(** * Room access and message synchronisation of the chat client

    A shallow embedding of the React components [RoomList], [RoomSettings]
    and [Chat] and of the Postgres schema they talk to, followed by the
    properties of room creation, joining, listing, filtering, settings
    update, deletion and of the message log.

    Conventions of the embedding.
    - A handler of a component ([joinRoom], [createRoom], ...) is a program
      of type [Prog unit]: a tree whose nodes are the UI actions it performs
      (toasts, state setters, callbacks) and the requests it sends through
      the Supabase client, each request continuing with the response.
    - The backing store is a record of tables; [Db.handle] answers requests
      the way the schema of the migrations prescribes (primary key and
      unique name of [rooms], CHECK on [rooms.max_users], primary key of
      [room_users], foreign keys to [rooms] with ON DELETE CASCADE);
      [Rls.handle] puts the row policies of the migrations in front of
      it.  The [auth] schema is outside the model.
    - The errors that the database client returns are plain objects, not
      instances of [Error]; the errors of the storage client are.
    - A JavaScript string is represented by its text in UTF-8, one
      [ascii] for each byte.  [trim] strips the white space of the
      language, in whatever encoding length; [toLowerCase] follows the
      case tables of Unicode, which are not reproduced: the function is
      a parameter of the search, known on ASCII text.
    - Timestamps are integers (the instant that [new Date(s).getTime()]
      yields for the column value); [max_users] and counts are integers. *)

From Stdlib Require Import Bool List ZArith NArith Lia String Ascii Setoid.
From Stdlib Require Import Sorting.Sorted Sorting.Permutation.
From Stdlib Require DecimalString.
Import ListNotations.

Local Open Scope string_scope.
Local Open Scope list_scope.
Local Open Scope Z_scope.

(* ================================================================== *)
(** * Part I: the embedding *)
(* ================================================================== *)

(** ** JavaScript built-ins used by the components *)

Module Js.

(** Strings.  A JavaScript string is a sequence of UTF-16 code units;
    it is represented here by the UTF-8 encoding of its text.  On text
    (strings without an unpaired surrogate, which have no encoding and
    are outside the model) the two encodings agree on everything the
    components do with strings: [===] is equality of the bytes,
    [includes] and [startsWith] find the same occurrences, [split('.')]
    cuts at the same places, and [trim] removes whole characters. *)

(** White space as [String.prototype.trim] sees it: the code points of
    WhiteSpace (TAB, VT, FF, U+FEFF and the category Zs) and of
    LineTerminator (LF, CR, U+2028, U+2029), by the length of their
    encoding. *)

(** U+0009 .. U+000D and U+0020 *)
Definition is_white_space_1 (a : ascii) : bool :=
  let x := nat_of_ascii a in
  (((9 <=? x) && (x <=? 13)) || (x =? 32))%nat.

(** U+00A0 (C2 A0) *)
Definition is_white_space_2 (a b : ascii) : bool :=
  ((nat_of_ascii a =? 194) && (nat_of_ascii b =? 160))%nat.

(** U+1680 (E1 9A 80), U+2000 .. U+200A (E2 80 80 .. E2 80 8A),
    U+2028, U+2029, U+202F (E2 80 A8, E2 80 A9, E2 80 AF),
    U+205F (E2 81 9F), U+3000 (E3 80 80), U+FEFF (EF BB BF) *)
Definition is_white_space_3 (a b c : ascii) : bool :=
  let x := nat_of_ascii a in
  let y := nat_of_ascii b in
  let z := nat_of_ascii c in
  (((x =? 225) && (y =? 154) && (z =? 128)) ||
   ((x =? 226) && (y =? 128) &&
    (((128 <=? z) && (z <=? 138)) || (z =? 168) || (z =? 169) || (z =? 175))) ||
   ((x =? 226) && (y =? 129) && (z =? 159)) ||
   ((x =? 227) && (y =? 128) && (z =? 128)) ||
   ((x =? 239) && (y =? 187) && (z =? 191)))%nat.

(** The string without the white space characters it starts with. *)
Fixpoint trimStart (s : string) : string :=
  match s with
  | EmptyString => EmptyString
  | String a s1 =>
      if is_white_space_1 a then trimStart s1
      else
        match s1 with
        | EmptyString => s
        | String b s2 =>
            if is_white_space_2 a b then trimStart s2
            else
              match s2 with
              | EmptyString => s
              | String c s3 =>
                  if is_white_space_3 a b c then trimStart s3 else s
              end
        end
  end.

(** The string is a sequence of white space characters. *)
Fixpoint all_white_space (s : string) : bool :=
  match s with
  | EmptyString => true
  | String a s1 =>
      if is_white_space_1 a then all_white_space s1
      else
        match s1 with
        | EmptyString => false
        | String b s2 =>
            if is_white_space_2 a b then all_white_space s2
            else
              match s2 with
              | EmptyString => false
              | String c s3 =>
                  is_white_space_3 a b c && all_white_space s3
              end
        end
  end.

(** The string without the white space it ends with: it is cut where
    nothing but white space follows. *)
Fixpoint trimEnd (s : string) : string :=
  match s with
  | EmptyString => EmptyString
  | String c s' =>
      if all_white_space s then EmptyString else String c (trimEnd s')
  end.

Definition trim (s : string) : string := trimEnd (trimStart s).

(** [ToBoolean] on a string: only the empty string is falsy. *)
Definition truthy (s : string) : bool := negb (String.eqb s "").

(** Text of the ASCII range: every byte is below 128. *)
Fixpoint is_ascii (s : string) : bool :=
  match s with
  | EmptyString => true
  | String c s' => (nat_of_ascii c <? 128)%nat && is_ascii s'
  end.

(** The capitals A .. Z to the small letters. *)
Definition lower_ascii_char (c : ascii) : ascii :=
  let n := nat_of_ascii c in
  if ((65 <=? n) && (n <=? 90))%nat then ascii_of_nat (n + 32) else c.

Fixpoint lower_ascii (s : string) : string :=
  match s with
  | EmptyString => EmptyString
  | String c s' => String (lower_ascii_char c) (lower_ascii s')
  end.

(** [String.prototype.toLowerCase] maps a string by the case tables of
    Unicode, with rules that look at the neighbours of a character (the
    final sigma).  The tables are not reproduced here: the function is a
    parameter, of which the embedding knows what it does on text of the
    ASCII range, where it maps the capitals A .. Z and nothing else. *)
Record CaseMapping : Type := mkCaseMapping {
  toLowerCase : string -> string;
  toLowerCase_ascii :
    forall s, is_ascii s = true -> toLowerCase s = lower_ascii s
}.

(** The case mapping that leaves every byte outside A .. Z as it is: what
    [toLowerCase] does on the ASCII text of the examples. *)
Definition basic_latin : CaseMapping :=
  mkCaseMapping lower_ascii (fun s _ => eq_refl).

Fixpoint startsWith (s sub : string) : bool :=
  match sub, s with
  | EmptyString, _ => true
  | String _ _, EmptyString => false
  | String a sub', String b s' => Ascii.eqb a b && startsWith s' sub'
  end.

(** [s.includes(sub)]: [sub] occurs in [s] at some position. *)
Fixpoint includes (s sub : string) : bool :=
  startsWith s sub ||
  match s with
  | EmptyString => false
  | String _ s' => includes s' sub
  end.

(** [Array.prototype.sort(comparefn)].  The language requires a stable
    sort and leaves the algorithm to the engine.  The model inserts from
    the right: an element is placed in front of the first element it does
    not have to follow, so that tied elements keep their order.  For a
    consistent comparator a list has one stable sort only
    ([stable_sort_unique] below), so the model returns what any engine
    returns. *)
Section Sort.
Context {A : Type} (comparefn : A -> A -> Z).

Fixpoint sort_insert (x : A) (l : list A) : list A :=
  match l with
  | [] => [x]
  | y :: l' =>
      if comparefn x y <=? 0 then x :: y :: l' else y :: sort_insert x l'
  end.

Fixpoint sort (l : list A) : list A :=
  match l with
  | [] => []
  | x :: l' => sort_insert x (sort l')
  end.
End Sort.

End Js.

(** ** Rows of the schema (the [Room] and [Message] interfaces) *)

Module Room.
Record t : Type := mk {
  id : string;
  name : string;
  owner_email : string;
  created_at : Z;
  password_hash : string;
  max_users : Z;
  owner_id : string
}.

(** [Partial<Room>] as [RoomSettings] declares it: every field optional. *)
Record partial : Type := mk_partial {
  p_id : option string;
  p_name : option string;
  p_password_hash : option string;
  p_max_users : option Z;
  p_owner_id : option string
}.
End Room.

Module RoomUser.
Record t : Type := mk {
  room_id : string;
  user_id : string;
  joined_at : Z
}.
End RoomUser.

Module Message.
Inductive message_type : Type := text | image.

Record t : Type := mk {
  id : string;
  created_at : Z;
  content : string;
  user_id : string;
  user_email : string;
  image_url : option string;
  type : message_type;
  room_id : string
}.
End Message.

Module User.
Record t : Type := mk { id : string; email : string }.
End User.

(** ** The Supabase client: errors, responses and requests *)

Module Supabase.

(** The error object of a response.  [is_Error] records whether it
    passes [instanceof Error]: the database client hands back the error
    body of the REST answer, a plain object, for which the test fails;
    the storage client hands back an instance of its [StorageError]
    class, which extends [Error]. *)
Record PostgrestError : Type := mkError {
  code : string;
  message : string;
  is_Error : bool
}.

Record Response (A : Type) : Type := mkResponse {
  data : option A;
  count : option Z;
  error : option PostgrestError
}.
Arguments mkResponse {A} _ _ _.
Arguments data {A} _.
Arguments count {A} _.
Arguments error {A} _.

(** The requests the components send, named after the call chains. *)
Inductive Op : Type :=
| auth_getUser
| rooms_select_order_desc
| rooms_insert_single (name password_hash : string) (max_users : Z)
                      (owner_id owner_email : string)
| rooms_update_eq_id (updates : Room.partial) (id : string)
| rooms_delete_eq_id (id : string)
| room_users_select_single (room_id user_id : string)
| room_users_select_count (room_id : string)
| room_users_insert (room_id user_id : string)
| room_users_delete_eq_room_id (room_id : string)
| messages_select_order_asc (room_id : string)
| messages_delete_eq_room_id (room_id : string).

Definition resp (o : Op) : Type :=
  match o with
  | auth_getUser => option User.t
  | rooms_select_order_desc => Response (list Room.t)
  | rooms_insert_single _ _ _ _ _ => Response Room.t
  | room_users_select_single _ _ => Response RoomUser.t
  | room_users_select_count _ => Response (list RoomUser.t)
  | messages_select_order_asc _ => Response (list Message.t)
  | rooms_update_eq_id _ _
  | rooms_delete_eq_id _
  | room_users_insert _ _
  | room_users_delete_eq_room_id _
  | messages_delete_eq_room_id _ => Response unit
  end.

(** Requests that read or write the membership table [room_users]. *)
Definition touches_room_users (o : Op) : bool :=
  match o with
  | room_users_select_single _ _
  | room_users_select_count _
  | room_users_insert _ _
  | room_users_delete_eq_room_id _ => true
  | _ => false
  end.

(** Requests that write to some table. *)
Definition is_write (o : Op) : bool :=
  match o with
  | rooms_insert_single _ _ _ _ _
  | rooms_update_eq_id _ _
  | rooms_delete_eq_id _
  | room_users_insert _ _
  | room_users_delete_eq_room_id _
  | messages_delete_eq_room_id _ => true
  | _ => false
  end.
End Supabase.
Import Supabase.

(** ** Handler programs *)

(** UI actions: toasts, React state setters and the callbacks received
    through props. *)
Inductive UiAct : Type :=
| toast_error (msg : string)
| toast_success (msg : string)
| setRooms (l : list Room.t)
| setFilteredRooms (l : list Room.t)
| setShowCreateModal (b : bool)
| setShowJoinModal (b : bool)
| setNewRoomName (s : string)
| setNewRoomPassword (s : string)
| setMaxUsers (n : Z)
| setJoinPassword (s : string)
| onRoomSelect (roomId : string)
| setIsUpdating (b : bool)
| setIsDeleting (b : bool)
| onClose
| onRoomDeleted
| setMessages (l : list Message.t).

(** What a [throw] carries in these components: an [Error] object built
    by the code itself, or an error object handed back by the client. *)
Inductive Thrown : Type :=
| ErrorObj (msg : string)
| PgErr (e : PostgrestError).

Inductive Prog (R : Type) : Type :=
| Ret (r : R)
| Throw (e : Thrown)
| Ui (a : UiAct) (k : Prog R)
| Call (o : Op) (k : resp o -> Prog R).
Arguments Ret {R} _.
Arguments Throw {R} _.
Arguments Ui {R} _ _.
Arguments Call {R} _ _.

Fixpoint bind {A B : Type} (p : Prog A) (f : A -> Prog B) : Prog B :=
  match p with
  | Ret r => f r
  | Throw e => Throw e
  | Ui a k => Ui a (bind k f)
  | Call o k => Call o (fun x => bind (k x) f)
  end.

(** [try { p } catch (error) { h error }] *)
Fixpoint try_catch {R : Type} (p : Prog R) (h : Thrown -> Prog R) : Prog R :=
  match p with
  | Ret r => Ret r
  | Throw e => h e
  | Ui a k => Ui a (try_catch k h)
  | Call o k => Call o (fun x => try_catch (k x) h)
  end.

(** [try { p } finally { f }] *)
Fixpoint finally {R : Type} (p : Prog R) (f : Prog unit) : Prog R :=
  match p with
  | Ret r => bind f (fun _ => Ret r)
  | Throw e => bind f (fun _ => Throw e)
  | Ui a k => Ui a (finally k f)
  | Call o k => Call o (fun x => finally (k x) f)
  end.

Declare Scope prog_scope.
Delimit Scope prog_scope with prog.
Notation "x <- 'await' o ;; k" := (Call o (fun x => k))
  (at level 61, o at next level, right associativity) : prog_scope.
Notation "'emit' a ;; k" := (Ui a k)
  (at level 61, a at next level, right associativity) : prog_scope.
Notation "p ;; k" := (bind p (fun _ => k))
  (at level 61, right associativity) : prog_scope.
Notation "'return_'" := (Ret tt) : prog_scope.
Local Open Scope prog_scope.

(** [if (e) throw e] on an optional error of the client. *)
Definition throw_if_error (e : option PostgrestError) : Prog unit :=
  match e with
  | Some err => Throw (PgErr err)
  | None => Ret tt
  end.

(** The [catch] clause shared by all handlers:
    [if (error instanceof Error) toast.error(error.message)]. *)
Definition catch_toast (error : Thrown) : Prog unit :=
  match error with
  | ErrorObj msg => emit toast_error msg ;; return_
  | PgErr e =>
      if is_Error e then emit toast_error (message e) ;; return_ else return_
  end.

(** A program that sends no request at all. *)
Fixpoint silent {R : Type} (p : Prog R) : Prop :=
  match p with
  | Ret _ | Throw _ => True
  | Ui _ k => silent k
  | Call _ _ => False
  end.

(** Every request the program can send, whatever the responses are,
    satisfies [P]. *)
Fixpoint all_calls {R : Type} (P : Op -> Prop) (p : Prog R) : Prop :=
  match p with
  | Ret _ | Throw _ => True
  | Ui _ k => all_calls P k
  | Call o k => P o /\ forall x, all_calls P (k x)
  end.

(** ** The backing store *)

Module Db.

Record Store : Type := mkStore {
  rooms : list Room.t;
  room_users : list RoomUser.t;
  messages : list Message.t;
  (** the user of the current session, as the auth service reports it *)
  auth_user : option User.t;
  (** the clock behind [now()] and the source of fresh ids *)
  clock : Z;
  uuid_seed : N
}.

(** [id uuid PRIMARY KEY DEFAULT gen_random_uuid()] and
    [created_at timestamptz DEFAULT now()] of the [rooms] table: the
    store fills in both on insert.  The draws of the generator are
    numbered by [uuid_seed]. *)
Definition gen_random_uuid (seed : N) : string :=
  ("room-" ++ DecimalString.NilZero.string_of_uint (N.to_uint seed))%string.

Definition ok {A : Type} (d : A) : Response A := mkResponse (Some d) None None.

(** A refusal of the store, as the database client returns it: a plain
    object with the code and the message. *)
Definition failed {A : Type} (c m : string) : Response A :=
  mkResponse None None (Some (mkError c m false)).

(** CHECK (max_users > 0 AND max_users <= 100) *)
Definition check_max_users (n : Z) : bool := (0 <? n) && (n <=? 100).

(** ORDER BY created_at; rows with equal keys keep the table order. *)
Definition created_desc (a b : Room.t) : Z :=
  Room.created_at b - Room.created_at a.
Definition created_asc (a b : Message.t) : Z :=
  Message.created_at a - Message.created_at b.
Definition order_rooms_desc (l : list Room.t) : list Room.t :=
  Js.sort created_desc l.
Definition order_messages_asc (l : list Message.t) : list Message.t :=
  Js.sort created_asc l.

Definition override {A : Type} (o : option A) (old : A) : A :=
  match o with Some v => v | None => old end.

(** UPDATE ... SET of the fields present in the patch. *)
Definition apply_updates (u : Room.partial) (r : Room.t) : Room.t :=
  Room.mk (override (Room.p_id u) (Room.id r))
          (override (Room.p_name u) (Room.name r))
          (Room.owner_email r)
          (Room.created_at r)
          (override (Room.p_password_hash u) (Room.password_hash r))
          (override (Room.p_max_users u) (Room.max_users r))
          (override (Room.p_owner_id u) (Room.owner_id r)).

Definition update_rooms (u : Room.partial) (rid : string) (l : list Room.t)
  : list Room.t :=
  map (fun r => if String.eqb (Room.id r) rid then apply_updates u r else r) l.

Definition in_room (rid : string) (m : RoomUser.t) : bool :=
  String.eqb (RoomUser.room_id m) rid.
Definition is_membership (rid uid : string) (m : RoomUser.t) : bool :=
  String.eqb (RoomUser.room_id m) rid && String.eqb (RoomUser.user_id m) uid.
Definition msg_in_room (rid : string) (m : Message.t) : bool :=
  String.eqb (Message.room_id m) rid.
Definition has_id (rid : string) (r : Room.t) : bool :=
  String.eqb (Room.id r) rid.

(** [name text UNIQUE NOT NULL] and [id uuid PRIMARY KEY] of [rooms]. *)
Definition name_taken (n : string) (l : list Room.t) : bool :=
  existsb (fun r => String.eqb (Room.name r) n) l.

Fixpoint unique_names (l : list Room.t) : bool :=
  match l with
  | [] => true
  | r :: l' => negb (name_taken (Room.name r) l') && unique_names l'
  end.

Fixpoint unique_ids (l : list Room.t) : bool :=
  match l with
  | [] => true
  | r :: l' => negb (existsb (has_id (Room.id r)) l') && unique_ids l'
  end.

Definition check_violation {A : Type} : Response A :=
  failed "23514" "violates check constraint rooms_max_users_check".
Definition duplicate_name {A : Type} : Response A :=
  failed "23505" "duplicate key value violates unique constraint rooms_name_key".
Definition duplicate_id {A : Type} : Response A :=
  failed "23505" "duplicate key value violates unique constraint rooms_pkey".
Definition still_referenced {A : Type} : Response A :=
  failed "23503" "update or delete on table rooms violates foreign key constraint".

Definition is_some {A : Type} (o : option A) : bool :=
  match o with Some _ => true | None => false end.

Definition set_rooms (s : Store) (l : list Room.t) : Store :=
  mkStore l (room_users s) (messages s) (auth_user s) (clock s) (uuid_seed s).
Definition set_room_users (s : Store) (l : list RoomUser.t) : Store :=
  mkStore (rooms s) l (messages s) (auth_user s) (clock s) (uuid_seed s).
Definition set_messages (s : Store) (l : list Message.t) : Store :=
  mkStore (rooms s) (room_users s) l (auth_user s) (clock s) (uuid_seed s).

(** A room row that memberships or messages refer to. *)
Definition referenced (rid : string) (s : Store) : bool :=
  existsb (in_room rid) (room_users s) || existsb (msg_in_room rid) (messages s).

(** [UPDATE rooms SET ...] on the rows that [sel] selects.  The CHECK is
    evaluated on the rows the statement rewrites, before they reach the
    unique indexes; the indexes are consulted for a column that the
    statement sets; a row that is referred to cannot change its id. *)
Definition update_where (sel : Room.t -> bool) (u : Room.partial) (s : Store)
  : Response unit * Store :=
  let touched := filter sel (rooms s) in
  let rows := map (fun r => if sel r then apply_updates u r else r) (rooms s) in
  if negb (forallb (fun r => check_max_users (Room.max_users (apply_updates u r)))
                   touched)
  then (check_violation, s)
  else if is_some (Room.p_id u) && negb (unique_ids rows)
  then (duplicate_id, s)
  else if is_some (Room.p_name u) && negb (unique_names rows)
  then (duplicate_name, s)
  else if existsb (fun r => negb (String.eqb (Room.id (apply_updates u r)) (Room.id r))
                            && referenced (Room.id r) s) touched
  then (still_referenced, s)
  else (ok tt, set_rooms s rows).

(** The answer of the store to each request, and the store afterwards. *)
Definition handle (o : Op) : Store -> resp o * Store :=
  match o return Store -> resp o * Store with
  | auth_getUser => fun s => (auth_user s, s)
  | rooms_select_order_desc => fun s => (ok (order_rooms_desc (rooms s)), s)
  | rooms_insert_single nm pw mx oid oem => fun s =>
      let row := Room.mk (gen_random_uuid (uuid_seed s)) nm oem (clock s) pw mx oid in
      if negb (check_max_users mx) then (check_violation, s)
      else if existsb (has_id (Room.id row)) (rooms s) then
        (** the draw is spent, the next insert makes another *)
        (duplicate_id,
         mkStore (rooms s) (room_users s) (messages s) (auth_user s)
                 (clock s) (uuid_seed s + 1)%N)
      else if name_taken nm (rooms s) then (duplicate_name, s)
      else
        (ok row,
         mkStore (rooms s ++ [row]) (room_users s) (messages s) (auth_user s)
                 (clock s + 1) (uuid_seed s + 1)%N)
  | rooms_update_eq_id u rid => fun s => update_where (has_id rid) u s
  | rooms_delete_eq_id rid => fun s =>
      (** ON DELETE CASCADE on messages.room_id and room_users.room_id *)
      (ok tt,
       mkStore (filter (fun r => negb (has_id rid r)) (rooms s))
               (filter (fun m => negb (in_room rid m)) (room_users s))
               (filter (fun m => negb (msg_in_room rid m)) (messages s))
               (auth_user s) (clock s) (uuid_seed s))
  | room_users_select_single rid uid => fun s =>
      match filter (is_membership rid uid) (room_users s) with
      | [m] => (ok m, s)
      | _ => (failed "PGRST116" "JSON object requested, multiple (or no) rows returned", s)
      end
  | room_users_select_count rid => fun s =>
      let rows := filter (in_room rid) (room_users s) in
      (mkResponse (Some rows) (Some (Z.of_nat (List.length rows))) None, s)
  | room_users_insert rid uid => fun s =>
      if existsb (is_membership rid uid) (room_users s) then
        (failed "23505" "duplicate key value violates unique constraint room_users_pkey", s)
      else if negb (existsb (has_id rid) (rooms s)) then
        (failed "23503" "violates foreign key constraint room_users_room_id_fkey", s)
      else
        (ok tt,
         mkStore (rooms s) (room_users s ++ [RoomUser.mk rid uid (clock s)])
                 (messages s) (auth_user s) (clock s + 1) (uuid_seed s))
  | room_users_delete_eq_room_id rid => fun s =>
      (ok tt, set_room_users s (filter (fun m => negb (in_room rid m)) (room_users s)))
  | messages_select_order_asc rid => fun s =>
      (ok (order_messages_asc (filter (msg_in_room rid) (messages s))), s)
  | messages_delete_eq_room_id rid => fun s =>
      (ok tt, set_messages s (filter (fun m => negb (msg_in_room rid m)) (messages s)))
  end.

(** Number of membership rows of a user in a room. *)
Definition membership_rows (rid uid : string) (s : Store) : nat :=
  List.length (filter (is_membership rid uid) (room_users s)).

Definition member_count (rid : string) (s : Store) : Z :=
  Z.of_nat (List.length (filter (in_room rid) (room_users s))).

(** The constraints of the schema that the properties below rely on:
    PRIMARY KEY (room_id, user_id) of [room_users] and the CHECK of
    [rooms.max_users]. *)
Definition pk_room_users (s : Store) : Prop :=
  forall rid uid, (membership_rows rid uid s <= 1)%nat.
Definition check_rooms (s : Store) : Prop :=
  Forall (fun r => 1 <= Room.max_users r <= 100) (rooms s).
Definition store_ok (s : Store) : Prop := pk_room_users s /\ check_rooms s.

(** UNIQUE (name) of [rooms]. *)
Definition names_unique (s : Store) : Prop := unique_names (rooms s) = true.

(** The id that the next insert into [rooms] draws is not in use. *)
Definition id_free (s : Store) : Prop :=
  existsb (has_id (gen_random_uuid (uuid_seed s))) (rooms s) = false.

Definition empty (u : option User.t) : Store := mkStore [] [] [] u 0 0%N.
End Db.

(** ** Running a handler against a backend *)

Inductive Event : Type :=
| EvUi (a : UiAct)
| EvCall (o : Op).

Definition Backend (S : Type) : Type := forall o : Op, S -> resp o * S.

(** [run h p s]: how [p] ends ([inl] an uncaught exception, [inr] the
    result), the backend state afterwards and the trace of what it did. *)
Fixpoint run {S R : Type} (h : Backend S) (p : Prog R) (s : S)
  : (Thrown + R) * S * list Event :=
  match p with
  | Ret r => (inr r, s, [])
  | Throw e => (inl e, s, [])
  | Ui a k =>
      let '(r, s', t) := run h k s in (r, s', EvUi a :: t)
  | Call o k =>
      let '(x, s1) := h o s in
      let '(r, s', t) := run h (k x) s1 in (r, s', EvCall o :: t)
  end.

Definition outcome {S R : Type} (x : (Thrown + R) * S * list Event) := fst (fst x).
Definition final {S R : Type} (x : (Thrown + R) * S * list Event) : S := snd (fst x).
Definition trace {S R : Type} (x : (Thrown + R) * S * list Event) : list Event := snd x.

(** The requests of a trace, in the order they were sent. *)
Fixpoint calls (t : list Event) : list Op :=
  match t with
  | [] => []
  | EvCall o :: t' => o :: calls t'
  | EvUi _ :: t' => calls t'
  end.

(** The UI actions of a trace, in order. *)
Fixpoint ui_actions (t : list Event) : list UiAct :=
  match t with
  | [] => []
  | EvUi a :: t' => a :: ui_actions t'
  | EvCall _ :: t' => ui_actions t'
  end.

(** ** The [RoomList] component *)

Module RoomList.

(** The comparator of the three [sort] calls: rooms of the session's
    user first, and inside a group the later creation time first. *)
Definition owned (session_user_id : string) (r : Room.t) : bool :=
  String.eqb (Room.owner_id r) session_user_id.

Definition compareRooms (session_user_id : string) (a b : Room.t) : Z :=
  if Bool.eqb (owned session_user_id a) (owned session_user_id b)
  then Room.created_at b - Room.created_at a
  else if owned session_user_id a then -1 else 1.

Definition sortRooms (session_user_id : string) (l : list Room.t) : list Room.t :=
  Js.sort (compareRooms session_user_id) l.

Definition fetchRooms (session_user_id : string) : Prog unit :=
  r <- await rooms_select_order_desc ;;
  match error r with
  | Some _ => emit toast_error "Failed to fetch rooms" ;; return_
  | None =>
      let sortedRooms :=
        sortRooms session_user_id (match data r with Some d => d | None => [] end) in
      emit setRooms sortedRooms ;;
      emit setFilteredRooms sortedRooms ;;
      return_
  end.

(** The predicate of the search filter; [cm] is the case mapping of the
    engine. *)
Definition matches (cm : Js.CaseMapping) (query : string) (room : Room.t) : bool :=
  Js.includes (Js.toLowerCase cm (Room.id room)) query ||
  Js.includes (Js.toLowerCase cm (Room.name room)) query.

(** The effect on [searchQuery], [rooms] and the session's user: the
    value it passes to [setFilteredRooms]. *)
Definition searchEffect (cm : Js.CaseMapping) (session_user_id searchQuery : string)
           (rooms : list Room.t) : list Room.t :=
  if String.eqb (Js.trim searchQuery) "" then
    sortRooms session_user_id rooms
  else
    let query := Js.toLowerCase cm searchQuery in
    sortRooms session_user_id (filter (matches cm query) rooms).

Definition createRoom (newRoomName newRoomPassword : string) (maxUsers : Z)
  : Prog unit :=
  if negb (Js.truthy (Js.trim newRoomPassword)) then
    emit toast_error "Room password is required" ;; return_
  else
    try_catch
      (user <- await auth_getUser ;;
       match user with
       | None => Throw (ErrorObj "User not found")
       | Some user =>
           r <- await rooms_insert_single newRoomName newRoomPassword maxUsers
                                          (User.id user) (User.email user) ;;
           throw_if_error (error r) ;;
           emit setShowCreateModal false ;;
           emit setNewRoomName "" ;;
           emit setNewRoomPassword "" ;;
           emit setMaxUsers 10 ;;
           match data r with
           | None => Throw (ErrorObj "Cannot read properties of null (reading 'id')")
           | Some row =>
               emit onRoomSelect (Room.id row) ;;
               emit toast_success "Room created successfully!" ;;
               return_
           end
       end)
      catch_toast.

(** The create form: name and password inputs are [required], the number
    input is [required] with [min="1"] and [max="100"]; the browser
    dispatches [submit] to [createRoom] only when the form is valid. *)
Definition createForm_valid (newRoomName newRoomPassword : string)
           (maxUsers : Z) : bool :=
  Js.truthy newRoomName && Js.truthy newRoomPassword &&
  (1 <=? maxUsers) && (maxUsers <=? 100).

Definition createForm_submit (newRoomName newRoomPassword : string)
           (maxUsers : Z) : Prog unit :=
  if createForm_valid newRoomName newRoomPassword maxUsers
  then createRoom newRoomName newRoomPassword maxUsers
  else return_.

(** [if (membershipError && membershipError.code !== 'PGRST116') throw membershipError] *)
Definition throw_unless_no_rows (e : option PostgrestError) : Prog unit :=
  match e with
  | Some err => if negb (String.eqb (code err) "PGRST116") then Throw (PgErr err) else return_
  | None => return_
  end.

(** [count !== null && count >= selectedRoom.max_users] *)
Definition room_is_full (count : option Z) (max_users : Z) : bool :=
  match count with
  | Some c => max_users <=? c
  | None => false
  end.

Definition joinRoom (session_user_id : string) (selectedRoom : option Room.t)
           (joinPassword : string) : Prog unit :=
  match selectedRoom with
  | None => return_
  | Some selectedRoom =>
      if negb (Js.truthy (Js.trim joinPassword)) then
        emit toast_error "Room password is required" ;; return_
      else
        try_catch
          (if negb (String.eqb joinPassword (Room.password_hash selectedRoom)) then
             emit toast_error "Incorrect password" ;; return_
           else
             m <- await room_users_select_single (Room.id selectedRoom) session_user_id ;;
             throw_unless_no_rows (error m) ;;
             match data m with
             | Some _ =>
                 emit setShowJoinModal false ;;
                 emit setJoinPassword "" ;;
                 emit onRoomSelect (Room.id selectedRoom) ;;
                 return_
             | None =>
                 c <- await room_users_select_count (Room.id selectedRoom) ;;
                 throw_if_error (error c) ;;
                 if room_is_full (count c) (Room.max_users selectedRoom) then
                   emit toast_error "Room is full. Please try another room." ;;
                   emit setShowJoinModal false ;;
                   emit setJoinPassword "" ;;
                   return_
                 else
                   j <- await room_users_insert (Room.id selectedRoom) session_user_id ;;
                   throw_if_error (error j) ;;
                   emit setShowJoinModal false ;;
                   emit setJoinPassword "" ;;
                   emit onRoomSelect (Room.id selectedRoom) ;;
                   emit toast_success "Successfully joined the room!" ;;
                   return_
             end)
          catch_toast
  end.
End RoomList.

(** ** The [RoomSettings] component *)

Module RoomSettings.

(** The patch built by [handleUpdateSettings]. *)
Definition updates (newPassword : string) (maxUsers : Z) : Room.partial :=
  Room.mk_partial None None
    (if Js.truthy newPassword then Some newPassword else None)
    (Some maxUsers)
    None.

Definition handleUpdateSettings (room : Room.t) (newPassword : string)
           (maxUsers : Z) : Prog unit :=
  emit setIsUpdating true ;;
  finally
    (try_catch
       (r <- await rooms_update_eq_id (updates newPassword maxUsers) (Room.id room) ;;
        throw_if_error (error r) ;;
        emit toast_success "Room settings updated successfully" ;;
        emit onClose ;;
        return_)
       catch_toast)
    (emit setIsUpdating false ;; return_).

(** The three deletes are awaited and their results dropped. *)
Definition handleDeleteRoom (room : Room.t) : Prog unit :=
  emit setIsDeleting true ;;
  finally
    (try_catch
       (_ <- await messages_delete_eq_room_id (Room.id room) ;;
        _ <- await room_users_delete_eq_room_id (Room.id room) ;;
        _ <- await rooms_delete_eq_id (Room.id room) ;;
        emit toast_success "Room deleted successfully" ;;
        emit onRoomDeleted ;;
        return_)
       catch_toast)
    (emit setIsDeleting false ;; return_).

(** The sentinel of the confirmation dialog. *)
Definition confirmation : string := "DELETE".

(** [disabled={isDeleting || deletePassword !== 'DELETE'}] on the submit
    button of the confirmation form. *)
Definition deleteButton_disabled (isDeleting : bool) (deletePassword : string)
  : bool :=
  isDeleting || negb (String.eqb deletePassword confirmation).

(** The confirmation form reaches [handleDeleteRoom] only through its
    submit button: a disabled button submits nothing. *)
Definition deleteForm_submit (room : Room.t) (isDeleting : bool)
           (deletePassword : string) : Prog unit :=
  if deleteButton_disabled isDeleting deletePassword
  then return_
  else handleDeleteRoom room.
End RoomSettings.

(** ** The [Chat] component: the message log *)

Module Chat.

Inductive eventType : Type := INSERT | UPDATE | DELETE.

Record payload : Type := mkPayload {
  event : eventType;
  new : Message.t
}.

Definition fetchMessages (roomId : string) : Prog unit :=
  r <- await messages_select_order_asc roomId ;;
  match error r with
  | Some _ => emit toast_error "Failed to fetch messages" ;; return_
  | None =>
      emit setMessages (match data r with Some d => d | None => [] end) ;;
      return_
  end.

(** The callback of the change feed, as the state update it requests:
    [setMessages((current) => [...current, payload.new])] on INSERT. *)
Definition onChange (p : payload) (current : list Message.t)
  : list Message.t :=
  match event p with
  | INSERT => current ++ [new p]
  | _ => current
  end.

(** The log after a sequence of delivered events. *)
Definition deliver (ps : list payload) (log : list Message.t)
  : list Message.t :=
  fold_left (fun cur p => onChange p cur) ps log.

Definition has_message_id (mid : string) (log : list Message.t) : bool :=
  existsb (fun m => String.eqb (Message.id m) mid) log.
End Chat.

(** ** Vocabulary of the statements *)

(** [x] may stay in front of [y] under the comparator of a [sort]. *)
Definition precedes {A : Type} (cmp : A -> A -> Z) (x y : A) : Prop :=
  cmp x y <= 0.

(** [sub] occurs in [s]. *)
Definition contains (s sub : string) : Prop :=
  exists pre post, s = (pre ++ sub ++ post)%string.


Definition older_first (a b : Message.t) : Prop :=
  Message.created_at a <= Message.created_at b.

(** ** Sample data *)

Module Sample.
Definition alice : User.t := User.mk "ua" "alice@example.org".
Definition bob : User.t := User.mk "ub" "bob@example.org".

(** A room of Alice for two members, password [p]. *)
Definition lobby : Room.t :=
  Room.mk "r1" "Lobby" "alice@example.org" 5 "p" 2 "ua".

(** A room for one member, as created with password [q] ... *)
Definition quiet_as_created : Room.t :=
  Room.mk "r2" "Quiet" "alice@example.org" 6 "q" 1 "ua".

(** ... and after its owner saved a single space as new password in the
    settings dialog. *)
Definition quiet : Room.t :=
  Room.mk "r2" "Quiet" "alice@example.org" 6 " " 1 "ua".

(** A room of Bob, created between the two rooms of Alice. *)
Definition den : Room.t :=
  Room.mk "r3" "Den" "bob@example.org" 7 "d" 1 "ub".

Definition atrium : Room.t :=
  Room.mk "r4" "Atrium" "alice@example.org" 9 "a" 3 "ua".

(** A no-break space (U+00A0), in UTF-8. *)
Definition nbsp : string := String "194" (String "160" EmptyString).

(** Bob's session, nobody has joined anything. *)
Definition fresh : Db.Store :=
  Db.mkStore [lobby; quiet; den; atrium] [] [] (Some bob) 10 5%N.

(** The fresh store after Alice has deleted the lobby. *)
Definition lobby_gone : Db.Store :=
  Db.mkStore [quiet; den; atrium] [] [] (Some bob) 10 5%N.

(** Bob is a member of the lobby and of the quiet room; both are full. *)
Definition crowded : Db.Store :=
  Db.mkStore [lobby; quiet; den; atrium]
    [RoomUser.mk "r1" "ub" 10; RoomUser.mk "r1" "uc" 11;
     RoomUser.mk "r2" "ub" 12]
    [Message.mk "m2" 21 "hello" "uc" "carol@example.org" None Message.text "r1";
     Message.mk "m1" 20 "hi" "ub" "bob@example.org" None Message.text "r1";
     Message.mk "m3" 22 "psst" "ub" "bob@example.org" None Message.text "r2"]
    (Some bob) 30 5%N.

Definition hello : Message.t :=
  Message.mk "m2" 21 "hello" "uc" "carol@example.org" None Message.text "r1".

(** The crowded store before the password of the quiet room was changed. *)
Definition crowded_before : Db.Store :=
  Db.set_rooms crowded [lobby; quiet_as_created; den; atrium].
End Sample.

(** [x] and [y] may stand in either order: the comparator ties them. *)
Definition tied {A : Type} (cmp : A -> A -> Z) (x y : A) : bool :=
  (cmp x y <=? 0) && (cmp y x <=? 0).

(** [l'] is a stable sort of [l]: it is in order, and the elements tied
    with any given element are the same, in the same order, as in [l]. *)
Definition stable_sort_of {A : Type} (cmp : A -> A -> Z) (l l' : list A) : Prop :=
  StronglySorted (precedes cmp) l' /\
  forall x, filter (tied cmp x) l' = filter (tied cmp x) l.

(** ** Two clients on one store *)

Module Clients.

(** One turn of a client: its UI actions up to its next request, and that
    request served by the backend; a handler that has ended stays as it
    is. *)
Fixpoint turn {S R : Type} (h : Backend S) (p : Prog R) (s : S) : Prog R * S :=
  match p with
  | Ui _ k => turn h k s
  | Call o k => let '(x, s') := h o s in (k x, s')
  | _ => (p, s)
  end.

(** Two handlers running in two browsers against one backend.  Each
    [await] hands control back, so the requests of the two interleave;
    the schedule names the client whose request is served next, and when
    it is used up the first handler runs to its end, then the second. *)
Fixpoint interleave {S R : Type} (h : Backend S) (schedule : list bool)
  (p q : Prog R) (s : S) : S :=
  match schedule with
  | [] => final (run h q (final (run h p s)))
  | true :: rest => let '(p', s') := turn h p s in interleave h rest p' q s'
  | false :: rest => let '(q', s') := turn h q s in interleave h rest p q' s'
  end.
End Clients.

(** Handlers run one after the other on one backend. *)
Definition one_by_one {S R : Type} (h : Backend S) (ps : list (Prog R)) (s : S) : S :=
  fold_left (fun s p => final (run h p s)) ps s.

(** ** Handlers over other requests *)

(** The programs of the room list are trees over the requests [Op] and
    the actions [UiAct].  [Task.t] is the same tree over any set of
    requests and actions, for the handlers of the other components. *)
Module Task.

Inductive t (U O : Type) (rsp : O -> Type) (R : Type) : Type :=
| Ret (r : R)
| Throw (e : Thrown)
| Ui (a : U) (k : t U O rsp R)
| Call (o : O) (k : rsp o -> t U O rsp R).
Arguments Ret {U O rsp R} _.
Arguments Throw {U O rsp R} _.
Arguments Ui {U O rsp R} _ _.
Arguments Call {U O rsp R} _ _.

Inductive event (U O : Type) : Type :=
| EvUi (a : U)
| EvCall (o : O).
Arguments EvUi {U O} _.
Arguments EvCall {U O} _.

Fixpoint bind {U O : Type} {rsp : O -> Type} {A B : Type}
  (p : t U O rsp A) (f : A -> t U O rsp B) : t U O rsp B :=
  match p with
  | Ret r => f r
  | Throw e => Throw e
  | Ui a k => Ui a (bind k f)
  | Call o k => Call o (fun x => bind (k x) f)
  end.

Fixpoint try_catch {U O : Type} {rsp : O -> Type} {R : Type}
  (p : t U O rsp R) (h : Thrown -> t U O rsp R) : t U O rsp R :=
  match p with
  | Ret r => Ret r
  | Throw e => h e
  | Ui a k => Ui a (try_catch k h)
  | Call o k => Call o (fun x => try_catch (k x) h)
  end.

Fixpoint finally {U O : Type} {rsp : O -> Type} {R : Type}
  (p : t U O rsp R) (f : t U O rsp unit) : t U O rsp R :=
  match p with
  | Ret r => bind f (fun _ => Ret r)
  | Throw e => bind f (fun _ => Throw e)
  | Ui a k => Ui a (finally k f)
  | Call o k => Call o (fun x => finally (k x) f)
  end.

Definition throw_if_error {U O : Type} {rsp : O -> Type}
  (e : option PostgrestError) : t U O rsp unit :=
  match e with
  | Some err => Throw (PgErr err)
  | None => Ret tt
  end.

Fixpoint run {U O : Type} {rsp : O -> Type} {S R : Type}
  (h : forall o : O, S -> rsp o * S) (p : t U O rsp R) (s : S)
  : (Thrown + R) * S * list (event U O) :=
  match p with
  | Ret r => (inr r, s, [])
  | Throw e => (inl e, s, [])
  | Ui a k =>
      let '(r, s', tr) := run h k s in (r, s', EvUi a :: tr)
  | Call o k =>
      let '(x, s1) := h o s in
      let '(r, s', tr) := run h (k x) s1 in (r, s', EvCall o :: tr)
  end.

Definition final {U O S R : Type} (x : (Thrown + R) * S * list (event U O)) : S :=
  snd (fst x).

Fixpoint calls {U O : Type} (tr : list (event U O)) : list O :=
  match tr with
  | [] => []
  | EvCall o :: tr' => o :: calls tr'
  | EvUi _ :: tr' => calls tr'
  end.

Fixpoint ui_actions {U O : Type} (tr : list (event U O)) : list U :=
  match tr with
  | [] => []
  | EvUi a :: tr' => a :: ui_actions tr'
  | EvCall _ :: tr' => ui_actions tr'
  end.

(** The requests and the actions of a run. *)
Definition requests {U O : Type} {rsp : O -> Type} {S R : Type}
  (h : forall o : O, S -> rsp o * S) (p : t U O rsp R) (s : S) : list O :=
  calls (snd (run h p s)).
Definition actions {U O : Type} {rsp : O -> Type} {S R : Type}
  (h : forall o : O, S -> rsp o * S) (p : t U O rsp R) (s : S) : list U :=
  ui_actions (snd (run h p s)).
Definition after {U O : Type} {rsp : O -> Type} {S R : Type}
  (h : forall o : O, S -> rsp o * S) (p : t U O rsp R) (s : S) : S :=
  final (run h p s).
End Task.

Declare Scope task_scope.
Delimit Scope task_scope with task.
Notation "x <- 'await' o ;; k" := (Task.Call o (fun x => k))
  (at level 61, o at next level, right associativity) : task_scope.
Notation "'emit' a ;; k" := (Task.Ui a k)
  (at level 61, a at next level, right associativity) : task_scope.
Notation "p ;; k" := (Task.bind p (fun _ => k))
  (at level 61, right associativity) : task_scope.
Notation "'return_'" := (Task.Ret tt) : task_scope.

(** ** The [Chat] component: sending *)

Module ChatRoom.

(** What the handlers read of a [File]. *)
Record File : Type := mkFile {
  file_name : string;
  file_type : string
}.

Inductive Op : Type :=
| messages_insert (content user_id user_email : string)
                  (image_url : option string)
                  (message_type : Message.message_type) (room_id : string)
| storage_upload (bucket filePath : string) (file : File)
| storage_getPublicUrl (bucket filePath : string).

Definition rsp (o : Op) : Type :=
  match o with
  | messages_insert _ _ _ _ _ _ => Response unit
  | storage_upload _ _ _ => Response unit
  | storage_getPublicUrl _ _ => string
  end.

Inductive UiAct : Type :=
| toast_error (msg : string)
| setNewMessage (s : string)
| appendToNewMessage (emoji : string)
| setShowEmojiPicker (b : bool)
| setIsUploading (b : bool)
| setIsDragging (b : bool)
| clearFileInput.

Definition Handler : Type := Task.t UiAct Op rsp unit.

Local Open Scope task_scope.

Definition catch_toast (error : Thrown) : Handler :=
  match error with
  | ErrorObj msg => emit toast_error msg ;; return_
  | PgErr e =>
      if is_Error e then emit toast_error (message e) ;; return_ else return_
  end.

Definition handleSend (session : User.t) (roomId newMessage : string) : Handler :=
  if negb (Js.truthy (Js.trim newMessage)) then return_
  else
    Task.try_catch
      (r <- await messages_insert newMessage (User.id session) (User.email session)
                                  None Message.text roomId ;;
       Task.throw_if_error (error r) ;;
       emit setNewMessage "" ;;
       return_)
      catch_toast.

(** [name.split('.')]: the pieces of [name] between its dots. *)
Fixpoint split_dots (s : string) : list string :=
  match s with
  | EmptyString => [EmptyString]
  | String c s' =>
      if Ascii.eqb c "."%char then EmptyString :: split_dots s'
      else
        match split_dots s' with
        | piece :: rest => String c piece :: rest
        | [] => [String c EmptyString]
        end
  end.

(** [array.pop()]: the last element, [undefined] on an empty array. *)
Fixpoint pop (l : list string) : option string :=
  match l with
  | [] => None
  | [x] => Some x
  | _ :: l' => pop l'
  end.

(** A value inside a template literal. *)
Definition in_template (v : option string) : string :=
  match v with Some s => s | None => "undefined" end.

Definition fileExt (file : File) : option string := pop (split_dots (file_name file)).

(** [random] is the text of the number that [Math.random()] returned. *)
Definition filePath (session : User.t) (random : string) (file : File) : string :=
  (User.id session ++ "/" ++ (random ++ "." ++ in_template (fileExt file)))%string.

Definition bucket : string := "message-images".

(** [fileInput] tells whether [fileInputRef.current] is set. *)
Definition handleImageUpload (session : User.t) (roomId random : string)
  (fileInput : bool) (file : File) : Handler :=
  if negb (Js.startsWith (file_type file) "image/") then
    emit toast_error "Please upload an image file" ;; return_
  else
    emit setIsUploading true ;;
    Task.finally
      (Task.try_catch
         (u <- await storage_upload bucket (filePath session random file) file ;;
          Task.throw_if_error (error u) ;;
          publicUrl <- await storage_getPublicUrl bucket (filePath session random file) ;;
          m <- await messages_insert "Sent an image" (User.id session)
                                     (User.email session) (Some publicUrl)
                                     Message.image roomId ;;
          Task.throw_if_error (error m) ;;
          if fileInput then emit clearFileInput ;; return_ else return_)
         catch_toast)
      (emit setIsUploading false ;; return_).

Definition onEmojiClick (emoji : string) : Handler :=
  emit appendToNewMessage emoji ;;
  emit setShowEmojiPicker false ;;
  return_.

Definition handleDragOver : Handler := emit setIsDragging true ;; return_.
Definition handleDragLeave : Handler := emit setIsDragging false ;; return_.

Definition handleDrop (session : User.t) (roomId random : string)
  (fileInput : bool) (files : list File) : Handler :=
  emit setIsDragging false ;;
  match files with
  | file :: _ => handleImageUpload session roomId random fileInput file
  | [] => return_
  end.

(** *** The store, the blob store and the change feed behind it *)

Record World : Type := mkWorld {
  db : Db.Store;
  (** the objects of the blob store, by bucket and path *)
  objects : list (string * string * File);
  (** the INSERT events that the [messages] table has published *)
  published : list Chat.payload;
  (** where the blob store is served *)
  storage_url : string
}.

Definition message_id (seed : N) : string :=
  ("message-" ++ DecimalString.NilZero.string_of_uint (N.to_uint seed))%string.

Definition has_object (b p : string) (o : string * string * File) : bool :=
  String.eqb (fst (fst o)) b && String.eqb (snd (fst o)) p.

Definition public_url (w : World) (b p : string) : string :=
  (storage_url w ++ "/object/public/" ++ b ++ "/" ++ p)%string.

(** A refusal of the blob store, as the storage client returns it: an
    instance of [StorageError], which extends [Error]. *)
Definition storage_failed {A : Type} (c m : string) : Response A :=
  mkResponse None None (Some (mkError c m true)).

(** A message needs its room ([messages.room_id] references [rooms]);
    an accepted row gets its id and creation time from the store and is
    published as an INSERT event.  An upload needs the bucket of the
    migration and a path that is not in use.  The row policies are not
    applied here: the session is signed in and posts as itself. *)
Definition handle (o : Op) : World -> rsp o * World :=
  match o as o0 return World -> rsp o0 * World with
  | messages_insert content uid email url ty rid => fun w =>
      let s := db w in
      if existsb (Db.has_id rid) (Db.rooms s) then
        let row := Message.mk (message_id (Db.uuid_seed s)) (Db.clock s)
                              content uid email url ty rid in
        (Db.ok tt,
         mkWorld
           (Db.mkStore (Db.rooms s) (Db.room_users s) (Db.messages s ++ [row])
                       (Db.auth_user s) (Db.clock s + 1) (Db.uuid_seed s + 1)%N)
           (objects w)
           (published w ++ [Chat.mkPayload Chat.INSERT row])
           (storage_url w))
      else
        (Db.failed "23503" "violates foreign key constraint messages_room_id_fkey", w)
  | storage_upload b p file => fun w =>
      if negb (String.eqb b bucket) then
        (storage_failed "404" "Bucket not found", w)
      else if existsb (has_object b p) (objects w) then
        (storage_failed "409" "The resource already exists", w)
      else
        (Db.ok tt,
         mkWorld (db w) (objects w ++ [(b, p, file)]) (published w) (storage_url w))
  | storage_getPublicUrl b p => fun w => (public_url w b p, w)
  end.

(** The log that [fetchMessages] loads for a room. *)
Definition snapshot (roomId : string) (w : World) : list Message.t :=
  Db.order_messages_asc (filter (Db.msg_in_room roomId) (Db.messages (db w))).

(** The events a subscription with the filter [room_id=eq.roomId]
    receives between two states of the world. *)
Definition delivered (roomId : string) (before now : World) : list Chat.payload :=
  filter (fun p => Db.msg_in_room roomId (Chat.new p))
         (skipn (List.length (published before)) (published now)).

(** Every stored message is older than the clock of the store. *)
Definition clock_ahead (w : World) : Prop :=
  Forall (fun m => Message.created_at m < Db.clock (db w)) (Db.messages (db w)).
End ChatRoom.

(** The messages that a sequence of change events inserts, in order. *)
Definition inserted (ps : list Chat.payload) : list Message.t :=
  map Chat.new
      (filter (fun p => match Chat.event p with Chat.INSERT => true | _ => false end)
              ps).

(** [pieces.join('.')], the inverse of splitting at the dots. *)
Fixpoint join_dots (l : list string) : string :=
  match l with
  | [] => EmptyString
  | [x] => x
  | x :: l' => (x ++ "." ++ join_dots l')%string
  end.

Module SampleChat.
Definition photo : ChatRoom.File := ChatRoom.mkFile "holiday.2024.JPG" "image/jpeg".
Definition notes : ChatRoom.File := ChatRoom.mkFile "notes.txt" "text/plain".

(** The crowded store with an empty blob store and a feed that has
    published nothing yet. *)
Definition world : ChatRoom.World :=
  ChatRoom.mkWorld Sample.crowded [] [] "https://chat.example.org/storage/v1".

(** A backend that is out of reach: it answers every request with the
    error of a failed fetch and keeps no state. *)
Definition offline (o : Op) : unit -> resp o * unit :=
  match o as o0 return unit -> resp o0 * unit with
  | auth_getUser => fun s => (None, s)
  | rooms_select_order_desc => fun s => (Db.failed "" "Failed to fetch", s)
  | rooms_insert_single _ _ _ _ _ => fun s => (Db.failed "" "Failed to fetch", s)
  | rooms_update_eq_id _ _ => fun s => (Db.failed "" "Failed to fetch", s)
  | rooms_delete_eq_id _ => fun s => (Db.failed "" "Failed to fetch", s)
  | room_users_select_single _ _ => fun s => (Db.failed "" "Failed to fetch", s)
  | room_users_select_count _ => fun s => (Db.failed "" "Failed to fetch", s)
  | room_users_insert _ _ => fun s => (Db.failed "" "Failed to fetch", s)
  | room_users_delete_eq_room_id _ => fun s => (Db.failed "" "Failed to fetch", s)
  | messages_select_order_asc _ => fun s => (Db.failed "" "Failed to fetch", s)
  | messages_delete_eq_room_id _ => fun s => (Db.failed "" "Failed to fetch", s)
  end.
End SampleChat.

(** ** The store behind its row policies *)

Module Rls.

(** The policies of the migrations, for the role of the session:
    - [rooms]: anyone may read; an authenticated user may insert a room
      they own, and update or delete the rooms they own;
    - [room_users]: authenticated users may read; a user may insert and
      delete their own memberships;
    - [messages]: authenticated users may read (and insert their own);
      no policy lets anyone delete.
    A write that a USING clause does not cover skips the row without an
    error; an insert that fails its WITH CHECK is an error.  The deletes
    that follow a room by ON DELETE CASCADE are not subject to the
    policies. *)

(** [auth.uid() = x], for an authenticated session. *)
Definition is_uid (s : Db.Store) (x : string) : bool :=
  match Db.auth_user s with
  | Some u => String.eqb (User.id u) x
  | None => false
  end.

Definition authenticated (s : Db.Store) : bool :=
  match Db.auth_user s with Some _ => true | None => false end.

Definition denied {A : Type} : Response A :=
  Db.failed "42501" "new row violates row-level security policy".

(** The rooms with this id that the session owns. *)
Definition mine (s : Db.Store) (rid : string) (r : Room.t) : bool :=
  Db.has_id rid r && is_uid s (Room.owner_id r).

(** The memberships of this room that are the session's own. *)
Definition my_membership (s : Db.Store) (rid : string) (m : RoomUser.t) : bool :=
  Db.in_room rid m && is_uid s (RoomUser.user_id m).

Definition handle (o : Op) : Db.Store -> resp o * Db.Store :=
  match o as o0 return Db.Store -> resp o0 * Db.Store with
  | auth_getUser => Db.handle auth_getUser
  | rooms_select_order_desc => Db.handle rooms_select_order_desc
  | rooms_insert_single nm pw mx oid oem => fun s =>
      if is_uid s oid then Db.handle (rooms_insert_single nm pw mx oid oem) s
      else (denied, s)
  | rooms_update_eq_id u rid => fun s =>
      let touched := filter (mine s rid) (Db.rooms s) in
      if negb (forallb (fun r => is_uid s (Room.owner_id (Db.apply_updates u r)))
                       touched)
      then (denied, s)
      else Db.update_where (mine s rid) u s
  | rooms_delete_eq_id rid => fun s =>
      if existsb (mine s rid) (Db.rooms s) then
        (Db.ok tt,
         Db.mkStore (filter (fun r => negb (mine s rid r)) (Db.rooms s))
                    (filter (fun m => negb (Db.in_room rid m)) (Db.room_users s))
                    (filter (fun m => negb (Db.msg_in_room rid m)) (Db.messages s))
                    (Db.auth_user s) (Db.clock s) (Db.uuid_seed s))
      else (Db.ok tt, s)
  | room_users_select_single rid uid => fun s =>
      if authenticated s then Db.handle (room_users_select_single rid uid) s
      else (Db.failed "PGRST116"
              "JSON object requested, multiple (or no) rows returned", s)
  | room_users_select_count rid => fun s =>
      if authenticated s then Db.handle (room_users_select_count rid) s
      else (mkResponse (Some []) (Some 0) None, s)
  | room_users_insert rid uid => fun s =>
      if is_uid s uid then Db.handle (room_users_insert rid uid) s
      else (denied, s)
  | room_users_delete_eq_room_id rid => fun s =>
      (Db.ok tt,
       Db.set_room_users s
         (filter (fun m => negb (my_membership s rid m)) (Db.room_users s)))
  | messages_select_order_asc rid => fun s =>
      if authenticated s then Db.handle (messages_select_order_asc rid) s
      else (Db.ok [], s)
  | messages_delete_eq_room_id rid => fun s => (Db.ok tt, s)
  end.
End Rls.

Module SampleSessions.
(** The crowded store as Alice, the owner of the lobby, sees it ... *)
Definition alice_crowded : Db.Store :=
  Db.mkStore (Db.rooms Sample.crowded) (Db.room_users Sample.crowded)
             (Db.messages Sample.crowded) (Some Sample.alice) 30 5%N.
(** ... and after the session has expired. *)
Definition expired_crowded : Db.Store :=
  Db.mkStore (Db.rooms Sample.crowded) (Db.room_users Sample.crowded)
             (Db.messages Sample.crowded) None 30 5%N.
End SampleSessions.

(** Requests that remove rows. *)
Definition is_delete (o : Op) : bool :=
  match o with
  | rooms_delete_eq_id _
  | room_users_delete_eq_room_id _
  | messages_delete_eq_room_id _ => true
  | _ => false
  end.

(* ================================================================== *)
(** * Part II: properties *)
(* ================================================================== *)

(** ** Strings *)

Lemma trimEnd_empty_iff (s : string) :
  Js.trimEnd s = "" <-> Js.all_white_space s = true.
Proof.
  destruct s as [|c s]; [split; reflexivity|].
  cbn [Js.trimEnd].
  destruct (Js.all_white_space (String c s)); split; try reflexivity;
    discriminate.
Qed.

Lemma all_white_space_trimStart (s : string) :
  Js.all_white_space (Js.trimStart s) = Js.all_white_space s.
Proof.
  assert (H : forall n s, (String.length s <= n)%nat ->
                Js.all_white_space (Js.trimStart s) = Js.all_white_space s).
  { clear s. induction n as [|n IH]; intros s Hn.
    - destruct s; [reflexivity|simpl in Hn; lia].
    - destruct s as [|a s1]; [reflexivity|].
      cbn [Js.trimStart]. simpl in Hn.
      destruct (Js.is_white_space_1 a) eqn:E1.
      { cbn [Js.all_white_space]. rewrite E1. apply IH. lia. }
      destruct s1 as [|b s2]; [reflexivity|]. simpl in Hn.
      destruct (Js.is_white_space_2 a b) eqn:E2.
      { cbn [Js.all_white_space]. rewrite E1, E2. apply IH. lia. }
      destruct s2 as [|c s3]; [reflexivity|]. simpl in Hn.
      destruct (Js.is_white_space_3 a b c) eqn:E3; [|reflexivity].
      cbn [Js.all_white_space]. rewrite E1, E2, E3. apply IH. lia. }
  apply (H (String.length s)). lia.
Qed.

(** What [trimStart] removes is white space, and so is what [trimEnd]
    removes. *)
Lemma trimStart_spec (s : string) :
  exists w, s = (w ++ Js.trimStart s)%string /\ Js.all_white_space w = true.
Proof.
  assert (H : forall n s, (String.length s <= n)%nat ->
                exists w, s = (w ++ Js.trimStart s)%string /\
                          Js.all_white_space w = true).
  { clear s. induction n as [|n IH]; intros s Hn.
    - destruct s; [exists ""; split; reflexivity|simpl in Hn; lia].
    - destruct s as [|a s1]; [exists ""; split; reflexivity|].
      cbn [Js.trimStart]. simpl in Hn.
      destruct (Js.is_white_space_1 a) eqn:E1.
      { destruct (IH s1 ltac:(lia)) as [w [Hs Hw]].
        exists (String a w). split; [simpl; rewrite <- Hs; reflexivity|].
        cbn [Js.all_white_space]. rewrite E1. exact Hw. }
      destruct s1 as [|b s2]; [exists ""; split; reflexivity|]. simpl in Hn.
      destruct (Js.is_white_space_2 a b) eqn:E2.
      { destruct (IH s2 ltac:(lia)) as [w [Hs Hw]].
        exists (String a (String b w)).
        split; [simpl; rewrite <- Hs; reflexivity|].
        cbn [Js.all_white_space]. rewrite E1, E2. exact Hw. }
      destruct s2 as [|c s3]; [exists ""; split; reflexivity|]. simpl in Hn.
      destruct (Js.is_white_space_3 a b c) eqn:E3;
        [|exists ""; split; reflexivity].
      destruct (IH s3 ltac:(lia)) as [w [Hs Hw]].
      exists (String a (String b (String c w))).
      split; [simpl; rewrite <- Hs; reflexivity|].
      cbn [Js.all_white_space]. rewrite E1, E2, E3. exact Hw. }
  apply (H (String.length s)). lia.
Qed.

Lemma trimEnd_spec (s : string) :
  exists w, s = (Js.trimEnd s ++ w)%string /\ Js.all_white_space w = true.
Proof.
  induction s as [|c s IH]; [exists ""; split; reflexivity|].
  cbn [Js.trimEnd].
  destruct (Js.all_white_space (String c s)) eqn:E.
  - exists (String c s). split; [reflexivity|exact E].
  - destruct IH as [w [Hs Hw]]. exists w.
    split; [simpl; rewrite <- Hs; reflexivity|exact Hw].
Qed.

(** [trim] yields the empty string exactly on strings made of white space. *)
Lemma trim_empty_iff (s : string) :
  Js.trim s = "" <-> Js.all_white_space s = true.
Proof.
  unfold Js.trim. rewrite trimEnd_empty_iff.
  rewrite all_white_space_trimStart. reflexivity.
Qed.

Lemma trim_empty_string : Js.trim "" = "".
Proof. reflexivity. Qed.

(** [!s.trim()] as the handlers test it. *)
Lemma blank_test (s : string) :
  negb (Js.truthy (Js.trim s)) = Js.all_white_space s.
Proof.
  unfold Js.truthy. rewrite negb_involutive.
  destruct (Js.all_white_space s) eqn:E.
  - apply trim_empty_iff in E. rewrite E. reflexivity.
  - apply String.eqb_neq. intros H. apply trim_empty_iff in H. congruence.
Qed.

Lemma startsWith_spec (s sub : string) :
  Js.startsWith s sub = true <-> exists post, s = (sub ++ post)%string.
Proof.
  revert s. induction sub as [|a sub IH]; intros s; simpl.
  - destruct s; split; eauto.
  - destruct s as [|b s].
    + split; [discriminate|]. intros [post H]. discriminate.
    + simpl. destruct (Ascii.eqb a b) eqn:Hab; simpl.
      * apply Ascii.eqb_eq in Hab. subst b. rewrite IH. split.
        -- intros [post ->]. eauto.
        -- intros [post H]. injection H as ->. eauto.
      * apply Ascii.eqb_neq in Hab. split; [discriminate|].
        intros [post H]. injection H as H _. congruence.
Qed.

(** [includes] is the substring test. *)
Lemma includes_spec (s sub : string) :
  Js.includes s sub = true <->
  exists pre post, s = (pre ++ sub ++ post)%string.
Proof.
  induction s as [|c s IH].
  - cbn [Js.includes]. rewrite orb_false_r, startsWith_spec. split.
    + intros [post H]. exists "", post. exact H.
    + intros [pre [post H]]. destruct pre; simpl in H; [eauto|discriminate].
  - cbn [Js.includes]. rewrite orb_true_iff, startsWith_spec, IH. split.
    + intros [[post H]|[pre [post H]]].
      * exists "", post. exact H.
      * exists (String c pre), post. simpl. rewrite H. reflexivity.
    + intros [pre [post H]]. destruct pre as [|c' pre]; simpl in H.
      * left. eauto.
      * right. injection H as _ H. eauto.
Qed.

(** ** Sorting *)

Section SortFacts.
Context {A : Type} (cmp : A -> A -> Z).

Lemma sort_insert_perm (x : A) (l : list A) :
  Permutation (Js.sort_insert cmp x l) (x :: l).
Proof.
  induction l as [|y l IH]; simpl.
  - apply Permutation_refl.
  - destruct (cmp x y <=? 0).
    + apply Permutation_refl.
    + apply perm_trans with (y :: x :: l).
      * apply perm_skip, IH.
      * apply perm_swap.
Qed.

Lemma sort_perm (l : list A) : Permutation (Js.sort cmp l) l.
Proof.
  induction l as [|x l IH]; simpl.
  - apply perm_nil.
  - apply perm_trans with (x :: Js.sort cmp l).
    + apply sort_insert_perm.
    + apply perm_skip, IH.
Qed.

Lemma sort_In (x : A) (l : list A) : In x (Js.sort cmp l) <-> In x l.
Proof.
  split; apply Permutation_in;
    [apply sort_perm | apply Permutation_sym, sort_perm].
Qed.

Lemma sort_Forall (P : A -> Prop) (l : list A) :
  Forall P l -> Forall P (Js.sort cmp l).
Proof.
  rewrite !Forall_forall. intros H x Hx. apply H, sort_In, Hx.
Qed.

(** An element that may precede a whole list is put in front of it. *)
Lemma sort_insert_front (x : A) (l : list A) :
  HdRel (precedes cmp) x l -> Js.sort_insert cmp x l = x :: l.
Proof.
  intros [|y l' Hxy]; simpl; [reflexivity|].
  unfold precedes in Hxy. apply Z.leb_le in Hxy. rewrite Hxy. reflexivity.
Qed.

(** A list already in order is left as it is. *)
Lemma sort_sorted_id (l : list A) :
  Sorted (precedes cmp) l -> Js.sort cmp l = l.
Proof.
  induction 1 as [|x l Hl IH Hx]; simpl; [reflexivity|].
  rewrite IH. apply sort_insert_front, Hx.
Qed.

Section Total.
(** The comparator never asks for both orders of a pair. *)
Hypothesis cmp_total : forall a b, 0 < cmp a b -> cmp b a <= 0.

Lemma sort_insert_Sorted (x : A) (l : list A) :
  Sorted (precedes cmp) l -> Sorted (precedes cmp) (Js.sort_insert cmp x l).
Proof.
  induction l as [|y l IH]; simpl; intros Hs.
  - repeat constructor.
  - destruct (cmp x y <=? 0) eqn:E.
    + apply Z.leb_le in E. constructor; [exact Hs|]. constructor. exact E.
    + apply Z.leb_gt in E. apply Sorted_inv in Hs as [Hl Hy].
      constructor; [apply IH, Hl|].
      destruct l as [|z l]; simpl.
      * constructor. apply cmp_total, E.
      * destruct (cmp x z <=? 0).
        -- constructor. apply cmp_total, E.
        -- constructor. apply HdRel_inv in Hy. exact Hy.
Qed.

Lemma sort_Sorted (l : list A) : Sorted (precedes cmp) (Js.sort cmp l).
Proof.
  induction l as [|x l IH]; simpl.
  - constructor.
  - apply sort_insert_Sorted, IH.
Qed.

Lemma sort_idempotent (l : list A) :
  Js.sort cmp (Js.sort cmp l) = Js.sort cmp l.
Proof. apply sort_sorted_id, sort_Sorted. Qed.

Section Transitive.
Hypothesis cmp_trans :
  forall a b c, cmp a b <= 0 -> cmp b c <= 0 -> cmp a c <= 0.

Lemma sort_StronglySorted (l : list A) :
  StronglySorted (precedes cmp) (Js.sort cmp l).
Proof.
  apply Sorted_StronglySorted; [|apply sort_Sorted].
  intros a b c. apply cmp_trans.
Qed.

Lemma filter_sort_insert (p : A -> bool) (x : A) (l : list A) :
  StronglySorted (precedes cmp) l ->
  filter p (Js.sort_insert cmp x l) =
  if p x then Js.sort_insert cmp x (filter p l) else filter p l.
Proof.
  induction l as [|y l IH]; intros Hs.
  - simpl. destruct (p x); reflexivity.
  - apply StronglySorted_inv in Hs as [Hl Hy].
    cbn [Js.sort_insert]. destruct (cmp x y <=? 0) eqn:E.
    + cbn [filter]. destruct (p x); [|reflexivity].
      symmetry. apply sort_insert_front.
      apply Z.leb_le in E.
      assert (Hall : Forall (precedes cmp x) (y :: l)).
      { constructor; [exact E|].
        eapply Forall_impl; [|exact Hy].
        intros z Hz. eapply cmp_trans; [exact E | exact Hz]. }
      assert (Hf : Forall (precedes cmp x) (filter p (y :: l))).
      { rewrite Forall_forall in *. intros z Hz.
        apply filter_In in Hz as [Hz _]. auto. }
      cbn [filter] in Hf.
      destruct (if p y then y :: filter p l else filter p l);
        constructor.
      apply Forall_inv in Hf. exact Hf.
    + cbn [filter]. rewrite (IH Hl).
      destruct (p y), (p x); try reflexivity.
      cbn [Js.sort_insert]. rewrite E. reflexivity.
Qed.

(** Filtering commutes with the stable sort. *)
Lemma filter_sort (p : A -> bool) (l : list A) :
  filter p (Js.sort cmp l) = Js.sort cmp (filter p l).
Proof.
  induction l as [|x l IH]; [reflexivity|].
  cbn [Js.sort filter].
  rewrite filter_sort_insert by apply sort_StronglySorted.
  rewrite IH. destruct (p x); reflexivity.
Qed.
End Transitive.
End Total.
End SortFacts.

Section StableSort.
Context {A : Type} (cmp : A -> A -> Z).
Hypothesis cmp_total : forall a b, 0 < cmp a b -> cmp b a <= 0.
Hypothesis cmp_trans :
  forall a b c, cmp a b <= 0 -> cmp b c <= 0 -> cmp a c <= 0.

Lemma tied_refl (x : A) : tied cmp x x = true.
Proof.
  unfold tied. destruct (Z.leb_spec (cmp x x) 0) as [H|H]; [reflexivity|].
  pose proof (cmp_total x x H). lia.
Qed.

Lemma tied_class_Sorted (x : A) (l : list A) :
  Sorted (precedes cmp) (filter (tied cmp x) l).
Proof.
  apply StronglySorted_Sorted.
  induction l as [|y l IH]; simpl; [constructor|].
  destruct (tied cmp x y) eqn:Hy; [|exact IH].
  constructor; [exact IH|].
  apply Forall_forall. intros z Hz. apply filter_In in Hz as [_ Hz].
  unfold tied in Hy, Hz. apply andb_true_iff in Hy as [_ Hy], Hz as [Hz _].
  apply Z.leb_le in Hy, Hz. exact (cmp_trans y x z Hy Hz).
Qed.

(** The model of [sort] is a stable sort ... *)
Lemma sort_is_stable (l : list A) : stable_sort_of cmp l (Js.sort cmp l).
Proof.
  split; [apply sort_StronglySorted; assumption|].
  intros x. rewrite (filter_sort cmp cmp_total cmp_trans).
  apply sort_sorted_id, tied_class_Sorted.
Qed.

(** ... and a list has one stable sort only: whatever algorithm an
    engine uses for [Array.prototype.sort], it returns this list. *)
Lemma stable_sort_unique (l l1 l2 : list A) :
  stable_sort_of cmp l l1 -> stable_sort_of cmp l l2 -> l1 = l2.
Proof.
  intros [S1 E1] [S2 E2].
  assert (E : forall x, filter (tied cmp x) l1 = filter (tied cmp x) l2).
  { intros x. rewrite E1, E2. reflexivity. }
  clear E1 E2 l. revert l2 S2 E.
  induction S1 as [|a l1 S1 IH Ha]; intros l2 S2 E.
  - destruct l2 as [|b l2]; [reflexivity|].
    specialize (E b). simpl in E. rewrite tied_refl in E. discriminate.
  - destruct S2 as [|b l2 S2 Hb].
    + specialize (E a). simpl in E. rewrite tied_refl in E. discriminate.
    + assert (Hab : tied cmp a b = true).
      { unfold tied. apply andb_true_iff. split; apply Z.leb_le.
        - pose proof (E b) as Eb. simpl in Eb. rewrite tied_refl in Eb.
          assert (Hin : In b (a :: l1)).
          { assert (Hin : In b (filter (tied cmp b) (a :: l1))).
            { simpl. rewrite Eb. left. reflexivity. }
            apply filter_In in Hin. tauto. }
          destruct Hin as [->|Hin].
          + pose proof (tied_refl b) as T. unfold tied in T.
            apply andb_true_iff in T as [T _]. apply Z.leb_le, T.
          + rewrite Forall_forall in Ha. apply Ha, Hin.
        - pose proof (E a) as Ea. simpl in Ea. rewrite tied_refl in Ea.
          assert (Hin : In a (b :: l2)).
          { assert (Hin : In a (filter (tied cmp a) (b :: l2))).
            { simpl in Ea. simpl. rewrite <- Ea. left. reflexivity. }
            apply filter_In in Hin. tauto. }
          destruct Hin as [->|Hin].
          + pose proof (tied_refl a) as T. unfold tied in T.
            apply andb_true_iff in T as [T _]. apply Z.leb_le, T.
          + rewrite Forall_forall in Hb. apply Hb, Hin. }
      pose proof (E a) as Ea. simpl in Ea. rewrite tied_refl, Hab in Ea.
      injection Ea as Hhd _. subst b. f_equal.
      apply IH; [exact S2|]. intros x. specialize (E x). simpl in E.
      destruct (tied cmp x a); [injection E as E|]; exact E.
Qed.
End StableSort.

(** ** The order of the room list *)

Section RoomOrder.
Variable uid : string.

Lemma compareRooms_total (a b : Room.t) :
  0 < RoomList.compareRooms uid a b -> RoomList.compareRooms uid b a <= 0.
Proof.
  unfold RoomList.compareRooms.
  destruct (RoomList.owned uid a), (RoomList.owned uid b); simpl; lia.
Qed.

Lemma compareRooms_trans (a b c : Room.t) :
  RoomList.compareRooms uid a b <= 0 ->
  RoomList.compareRooms uid b c <= 0 ->
  RoomList.compareRooms uid a c <= 0.
Proof.
  unfold RoomList.compareRooms.
  destruct (RoomList.owned uid a), (RoomList.owned uid b),
    (RoomList.owned uid c); simpl; lia.
Qed.


(** Inside a group the comparator is the one of the creation times. *)
Lemma compareRooms_same_group (a b : Room.t) :
  RoomList.owned uid a = RoomList.owned uid b ->
  RoomList.compareRooms uid a b = Db.created_desc a b.
Proof.
  unfold RoomList.compareRooms. intros ->.
  rewrite Bool.eqb_reflx. reflexivity.
Qed.

Lemma sort_insert_owned (x : Room.t) (own others : list Room.t) :
  RoomList.owned uid x = true ->
  Forall (fun r => RoomList.owned uid r = true) own ->
  Forall (fun r => RoomList.owned uid r = false) others ->
  Js.sort_insert (RoomList.compareRooms uid) x (own ++ others) =
  Js.sort_insert Db.created_desc x own ++ others.
Proof.
  intros Hx Hown Hoth. induction Hown as [|y own Hy Hown IH]; simpl.
  - destruct Hoth as [|z others Hz Hoth]; simpl; [reflexivity|].
    unfold RoomList.compareRooms. rewrite Hx, Hz. reflexivity.
  - rewrite compareRooms_same_group by congruence.
    destruct (Db.created_desc x y <=? 0); [reflexivity|].
    simpl. rewrite IH. reflexivity.
Qed.

Lemma sort_insert_other (x : Room.t) (own others : list Room.t) :
  RoomList.owned uid x = false ->
  Forall (fun r => RoomList.owned uid r = true) own ->
  Forall (fun r => RoomList.owned uid r = false) others ->
  Js.sort_insert (RoomList.compareRooms uid) x (own ++ others) =
  own ++ Js.sort_insert Db.created_desc x others.
Proof.
  intros Hx Hown Hoth. induction Hown as [|y own Hy Hown IH]; simpl.
  - induction Hoth as [|z others Hz Hoth IH]; simpl; [reflexivity|].
    rewrite compareRooms_same_group by congruence.
    destruct (Db.created_desc x z <=? 0); [reflexivity|].
    rewrite IH. reflexivity.
  - unfold RoomList.compareRooms at 1. rewrite Hx, Hy. simpl.
    rewrite IH. reflexivity.
Qed.

Lemma Forall_filter_true {B : Type} (p : B -> bool) (l : list B) :
  Forall (fun x => p x = true) (filter p l).
Proof.
  apply Forall_forall. intros x Hx. apply filter_In in Hx. tauto.
Qed.

(** The sorted list is the owned rooms, newest first, followed by the
    other rooms, newest first; rooms created at the same instant keep
    the order they had. *)
Lemma sortRooms_groups (l : list Room.t) :
  RoomList.sortRooms uid l =
  Db.order_rooms_desc (filter (RoomList.owned uid) l) ++
  Db.order_rooms_desc (filter (fun r => negb (RoomList.owned uid r)) l).
Proof.
  unfold RoomList.sortRooms, Db.order_rooms_desc.
  induction l as [|x l IH]; [reflexivity|].
  cbn [Js.sort filter]. rewrite IH.
  destruct (RoomList.owned uid x) eqn:Hx; cbn [negb Js.sort].
  - apply sort_insert_owned; [exact Hx| |].
    + apply sort_Forall, Forall_filter_true.
    + apply sort_Forall.
      eapply Forall_impl; [|apply Forall_filter_true].
      intros r Hr. simpl in Hr. apply negb_true_iff in Hr. exact Hr.
  - apply sort_insert_other; [exact Hx| |].
    + apply sort_Forall, Forall_filter_true.
    + apply sort_Forall.
      eapply Forall_impl; [|apply Forall_filter_true].
      intros r Hr. simpl in Hr. apply negb_true_iff in Hr. exact Hr.
Qed.


Lemma sortRooms_idempotent (l : list Room.t) :
  RoomList.sortRooms uid (RoomList.sortRooms uid l) = RoomList.sortRooms uid l.
Proof. apply sort_idempotent, compareRooms_total. Qed.

Lemma sortRooms_filter (p : Room.t -> bool) (l : list Room.t) :
  filter p (RoomList.sortRooms uid l) = RoomList.sortRooms uid (filter p l).
Proof.
  apply filter_sort; [apply compareRooms_total | apply compareRooms_trans].
Qed.
End RoomOrder.

(** ** The store keeps its constraints *)

Lemma is_membership_inv (rid uid : string) (m : RoomUser.t) :
  Db.is_membership rid uid m = true ->
  RoomUser.room_id m = rid /\ RoomUser.user_id m = uid.
Proof.
  unfold Db.is_membership. rewrite andb_true_iff, !String.eqb_eq. tauto.
Qed.

Lemma filter_filter_length {B : Type} (f g : B -> bool) (l : list B) :
  (List.length (filter f (filter g l)) <= List.length (filter f l))%nat.
Proof.
  induction l as [|x l IH]; simpl; [lia|].
  destruct (g x); simpl; destruct (f x); simpl; lia.
Qed.

Lemma existsb_false_filter {B : Type} (f : B -> bool) (l : list B) :
  existsb f l = false -> filter f l = [].
Proof.
  induction l as [|x l IH]; simpl; [reflexivity|].
  destruct (f x); simpl; [discriminate|exact IH].
Qed.

Lemma filter_nil_existsb {B : Type} (f : B -> bool) (l : list B) :
  filter f l = [] -> existsb f l = false.
Proof.
  induction l as [|x l IH]; simpl; [reflexivity|].
  destruct (f x); simpl; [discriminate|exact IH].
Qed.

Lemma existsb_none {B : Type} (f : B -> bool) (l : list B) :
  (forall x, f x = false) -> existsb f l = false.
Proof.
  intros H. induction l as [|x l IH]; simpl; [reflexivity|].
  rewrite H, IH. reflexivity.
Qed.

(** An update either rewrites the selected rows, which then satisfy the
    CHECK, or is refused and changes nothing. *)
Lemma update_where_cases (sel : Room.t -> bool) (u : Room.partial) (s : Db.Store) :
  (Db.update_where sel u s =
     (Db.ok tt,
      Db.set_rooms s
        (map (fun r => if sel r then Db.apply_updates u r else r) (Db.rooms s))) /\
   forallb (fun r => Db.check_max_users (Room.max_users (Db.apply_updates u r)))
           (filter sel (Db.rooms s)) = true) \/
  (snd (Db.update_where sel u s) = s /\
   error (fst (Db.update_where sel u s)) <> None).
Proof.
  unfold Db.update_where.
  destruct (forallb _ (filter sel (Db.rooms s))) eqn:E; cbn [negb];
    [|right; split; [reflexivity|discriminate]].
  destruct (Db.is_some (Room.p_id u) && _);
    [right; split; [reflexivity|discriminate]|].
  destruct (Db.is_some (Room.p_name u) && _);
    [right; split; [reflexivity|discriminate]|].
  destruct (existsb _ (filter sel (Db.rooms s)));
    [right; split; [reflexivity|discriminate]|].
  left. split; reflexivity.
Qed.

(** An update that sets neither the id nor the name is decided by the
    CHECK alone. *)
Lemma update_where_plain (sel : Room.t -> bool) (u : Room.partial) (s : Db.Store) :
  Room.p_id u = None -> Room.p_name u = None ->
  Db.update_where sel u s =
  if forallb (fun r => Db.check_max_users (Room.max_users (Db.apply_updates u r)))
             (filter sel (Db.rooms s))
  then (Db.ok tt,
        Db.set_rooms s
          (map (fun r => if sel r then Db.apply_updates u r else r) (Db.rooms s)))
  else (Db.check_violation, s).
Proof.
  intros Hid Hname. unfold Db.update_where. rewrite Hid, Hname.
  destruct (forallb _ (filter sel (Db.rooms s))); cbn [negb Db.is_some andb];
    [|reflexivity].
  rewrite existsb_none; [reflexivity|].
  intros r. unfold Db.apply_updates. rewrite Hid. cbn [Db.override Room.id].
  rewrite String.eqb_refl. reflexivity.
Qed.

Lemma handle_pk (o : Op) (s : Db.Store) :
  Db.pk_room_users s -> Db.pk_room_users (snd (Db.handle o s)).
Proof.
  intros Hpk.
  assert (Hdel : forall g rs ms u c n,
    Db.pk_room_users
      (Db.mkStore rs (filter g (Db.room_users s)) ms u c n)).
  { intros g rs ms u c n rid uid. unfold Db.membership_rows. simpl.
    etransitivity; [apply filter_filter_length|apply (Hpk rid uid)]. }
  destruct o; cbn [Db.handle resp]; try exact Hpk; try apply Hdel.
  - destruct (Db.check_max_users max_users); cbn [negb]; [|exact Hpk].
    destruct (existsb _ _); [exact Hpk|].
    destruct (Db.name_taken _ _); exact Hpk.
  - destruct (update_where_cases (Db.has_id id) updates s) as [[-> _]|[-> _]];
      exact Hpk.
  - destruct (filter _ _) as [|m [|m' l]]; exact Hpk.
  - destruct (existsb (Db.is_membership room_id user_id) (Db.room_users s)) eqn:E;
      [exact Hpk|].
    destruct (negb _); [exact Hpk|]. simpl.
    intros rid uid. unfold Db.membership_rows. simpl.
    rewrite filter_app, length_app. simpl.
    destruct (Db.is_membership rid uid (RoomUser.mk room_id user_id (Db.clock s))) eqn:M.
    + apply is_membership_inv in M as [<- <-]. simpl.
      rewrite (existsb_false_filter _ _ E). simpl. lia.
    + simpl. rewrite Nat.add_0_r. apply (Hpk rid uid).
Qed.

Lemma handle_check (o : Op) (s : Db.Store) :
  Db.check_rooms s -> Db.check_rooms (snd (Db.handle o s)).
Proof.
  unfold Db.check_rooms. intros Hc.
  destruct o; cbn [Db.handle resp]; try exact Hc.
  - destruct (Db.check_max_users max_users) eqn:E; cbn [negb]; [|exact Hc].
    destruct (existsb _ _); [exact Hc|].
    destruct (Db.name_taken _ _); [exact Hc|]. cbn [snd Db.rooms].
    apply Forall_app. split; [exact Hc|]. constructor; [|constructor]. simpl.
    unfold Db.check_max_users in E. lia.
  - destruct (update_where_cases (Db.has_id id) updates s) as [[-> E]|[-> _]];
      [|exact Hc]. cbn [snd Db.set_rooms Db.rooms].
    rewrite forallb_forall in E. rewrite Forall_forall in Hc.
    apply Forall_forall. intros r' Hr'.
    apply in_map_iff in Hr' as [r [Hr' Hr]].
    destruct (Db.has_id id r) eqn:Hid; subst r'; [|auto].
    assert (Hin : In r (filter (Db.has_id id) (Db.rooms s))).
    { apply filter_In. split; [exact Hr|exact Hid]. }
    specialize (E r Hin). unfold Db.check_max_users in E. simpl in E |- *.
    apply andb_true_iff in E as [E1 E2].
    apply Z.ltb_lt in E1. apply Z.leb_le in E2. lia.
  - apply Forall_forall. intros r Hr. apply filter_In in Hr as [Hr _].
    rewrite Forall_forall in Hc. auto.
  - destruct (filter _ _) as [|m [|m' l]]; exact Hc.
  - destruct (existsb _ _); [exact Hc|]. destruct (negb _); exact Hc.
Qed.

Lemma handle_store_ok (o : Op) (s : Db.Store) :
  Db.store_ok s -> Db.store_ok (snd (Db.handle o s)).
Proof.
  intros [Hpk Hc]. split; [apply handle_pk, Hpk | apply handle_check, Hc].
Qed.

(** A property of the store that every request preserves holds after any
    program. *)
Lemma run_invariant {R : Type} (P : Db.Store -> Prop)
  (HP : forall o s, P s -> P (snd (Db.handle o s)))
  (p : Prog R) (s : Db.Store) :
  P s -> P (final (run Db.handle p s)).
Proof.
  revert s. induction p as [r|e|a k IH|o k IH]; intros s Hs; simpl.
  - exact Hs.
  - exact Hs.
  - specialize (IH s Hs). destruct (run Db.handle k s) as [[r s'] t]. exact IH.
  - pose proof (HP o s Hs) as Hs1.
    destruct (Db.handle o s) as [x s1]. simpl in Hs1.
    specialize (IH x s1 Hs1).
    destruct (run Db.handle (k x) s1) as [[r s'] t]. exact IH.
Qed.

Lemma run_pk {R : Type} (p : Prog R) (s : Db.Store) :
  Db.pk_room_users s -> Db.pk_room_users (final (run Db.handle p s)).
Proof. apply run_invariant. exact handle_pk. Qed.

Lemma run_check {R : Type} (p : Prog R) (s : Db.Store) :
  Db.check_rooms s -> Db.check_rooms (final (run Db.handle p s)).
Proof. apply run_invariant. exact handle_check. Qed.

(** Whatever a program does, the store it leaves satisfies the constraints. *)
Lemma run_store_ok {R : Type} (p : Prog R) (s : Db.Store) :
  Db.store_ok s -> Db.store_ok (final (run Db.handle p s)).
Proof. apply run_invariant. exact handle_store_ok. Qed.

Lemma empty_store_ok (u : option User.t) : Db.store_ok (Db.empty u).
Proof.
  split.
  - intros rid uid. unfold Db.membership_rows. simpl. lia.
  - constructor.
Qed.

(** A program that sends no request leaves any backend as it is. *)
Lemma run_silent {S R : Type} (h : Backend S) (p : Prog R) (s : S) :
  silent p -> final (run h p s) = s /\ calls (trace (run h p s)) = [].
Proof.
  induction p as [r|e|a k IH|o k IH]; simpl; intros Hs.
  - split; reflexivity.
  - split; reflexivity.
  - specialize (IH Hs). destruct (run h k s) as [[r s'] t]. exact IH.
  - contradiction.
Qed.

(** ** Joining a room *)

Lemma membership_filter_single (rid uid : string) (s : Db.Store) :
  Db.pk_room_users s ->
  (1 <= Db.membership_rows rid uid s)%nat ->
  exists m, filter (Db.is_membership rid uid) (Db.room_users s) = [m].
Proof.
  intros Hpk Hmem. specialize (Hpk rid uid).
  unfold Db.membership_rows in *.
  destruct (filter _ _) as [|m [|m' l]]; simpl in *; [lia|eauto|lia].
Qed.

Lemma membership_filter_none (rid uid : string) (s : Db.Store) :
  Db.membership_rows rid uid s = 0%nat ->
  filter (Db.is_membership rid uid) (Db.room_users s) = [].
Proof.
  unfold Db.membership_rows. intros H. apply length_zero_iff_nil, H.
Qed.

(** The first two tests of [joinRoom] pass on a correct password that is
    not blank. *)
Ltac pass_password_tests Hpw :=
  unfold RoomList.joinRoom;
  rewrite blank_test;
  match type of Hpw with
  | Js.trim ?pw <> "" =>
      let E := fresh "E" in
      destruct (Js.all_white_space pw) eqn:E;
      [exfalso; apply Hpw, trim_empty_iff, E|]
  end;
  rewrite String.eqb_refl; cbn [negb].

(** C1 (amended).  For every room and every supplied password that is
    blank (empty or made of white space) or differs from the stored
    credential, [joinRoom] fails: with the toast "Room password is
    required" when the password is blank, with "Incorrect password"
    otherwise.  In both cases it sends no request: against any backend,
    whatever its capacity state, the state is left as it is and nothing
    is read or written. *)
Theorem joinRoom_rejects_password (uid : string) (room : Room.t) (pw : string)
  (Hbad : Js.trim pw = "" \/ pw <> Room.password_hash room) :
  let j := RoomList.joinRoom uid (Some room) pw in
  (Js.trim pw = "" ->
   j = Ui (toast_error "Room password is required") (Ret tt)) /\
  (Js.trim pw <> "" ->
   j = Ui (toast_error "Incorrect password") (Ret tt)) /\
  silent j /\
  forall (S : Type) (h : Backend S) (s : S),
    outcome (run h j s) = inr tt /\
    final (run h j s) = s /\
    calls (trace (run h j s)) = [] /\
    exists msg, ui_actions (trace (run h j s)) = [toast_error msg].
Proof.
  intros j. subst j. unfold RoomList.joinRoom. rewrite blank_test.
  destruct (Js.all_white_space pw) eqn:Hws.
  - pose proof (proj2 (trim_empty_iff pw) Hws) as Ht.
    split; [reflexivity|]. split; [congruence|]. split; [exact I|].
    intros S h s. simpl. repeat split; eauto.
  - assert (Ht : Js.trim pw <> "").
    { intros H. apply trim_empty_iff in H. congruence. }
    destruct Hbad as [Hb|Hne]; [contradiction|].
    apply String.eqb_neq in Hne. rewrite Hne. simpl.
    split; [contradiction|]. split; [reflexivity|]. split; [exact I|].
    intros S h s. simpl. repeat split; eauto.
Qed.

Lemma joinRoom_rejects_password_witness :
  let j := RoomList.joinRoom "ub" (Some Sample.lobby) "wrong" in
  j = Ui (toast_error "Incorrect password") (Ret tt) /\
  final (run Db.handle j Sample.crowded) = Sample.crowded.
Proof.
  pose proof (joinRoom_rejects_password "ub" Sample.lobby "wrong") as H.
  cbv zeta in H. destruct H as (_ & H2 & _ & H4).
  - right. discriminate.
  - split.
    + apply H2. discriminate.
    + apply (H4 Db.Store Db.handle Sample.crowded).
Defined.

(** C1, as stated, fails on a blank password that differs from the
    credential: the toast is that of the missing password, not the one of
    a wrong password. *)
Lemma joinRoom_blank_password_is_not_incorrect :
  let j := RoomList.joinRoom "ub" (Some Sample.lobby) " " in
  String.eqb " " (Room.password_hash Sample.lobby) = false /\
  ui_actions (trace (run Db.handle j Sample.fresh)) =
    [toast_error "Room password is required"] /\
  ui_actions (trace (run Db.handle j Sample.fresh)) <>
    [toast_error "Incorrect password"].
Proof.
  cbv zeta. split; [reflexivity|]. split; [reflexivity|].
  vm_compute. discriminate.
Qed.

(** C10.  A supplied password that is not empty but consists of white
    space only (of any of the characters that [trim] strips, the
    no-break space and the other Unicode spaces included) is rejected
    with the toast of the missing password, by the test that comes
    before the comparison with the credential: the program is the same
    for every room, also for one whose credential is that very string,
    and it sends no request. *)
Theorem joinRoom_whitespace_password (uid : string) (room : Room.t) (pw : string)
  (Hne : pw <> "") (Hws : Js.all_white_space pw = true) :
  let j := RoomList.joinRoom uid (Some room) pw in
  j = Ui (toast_error "Room password is required") (Ret tt) /\
  silent j /\
  forall (S : Type) (h : Backend S) (s : S),
    run h j s = (inr tt, s, [EvUi (toast_error "Room password is required")]).
Proof.
  intros j. subst j. unfold RoomList.joinRoom.
  rewrite blank_test, Hws. simpl. repeat split.
Qed.

Lemma joinRoom_whitespace_password_witness :
  Room.password_hash Sample.quiet = " " /\
  run Db.handle (RoomList.joinRoom "ub" (Some Sample.quiet) " ") Sample.crowded =
  (inr tt, Sample.crowded, [EvUi (toast_error "Room password is required")]) /\
  run Db.handle (RoomList.joinRoom "ub" (Some Sample.lobby) Sample.nbsp)
      Sample.crowded =
  (inr tt, Sample.crowded, [EvUi (toast_error "Room password is required")]).
Proof.
  split; [reflexivity|]. split.
  - apply (joinRoom_whitespace_password "ub" Sample.quiet " ").
    + discriminate.
    + reflexivity.
  - apply (joinRoom_whitespace_password "ub" Sample.lobby Sample.nbsp).
    + discriminate.
    + reflexivity.
Defined.

(** The trace of a join that finds the membership row. *)
Lemma joinRoom_member (uid : string) (room : Room.t) (pw : string) (s : Db.Store)
  (Hpk : Db.pk_room_users s)
  (Hpw : Js.trim pw <> "") (Heq : pw = Room.password_hash room)
  (Hmem : (1 <= Db.membership_rows (Room.id room) uid s)%nat) :
  run Db.handle (RoomList.joinRoom uid (Some room) pw) s =
  (inr tt, s,
   [EvCall (room_users_select_single (Room.id room) uid);
    EvUi (setShowJoinModal false);
    EvUi (setJoinPassword "");
    EvUi (onRoomSelect (Room.id room))]).
Proof.
  subst pw. pass_password_tests Hpw.
  destruct (membership_filter_single _ _ _ Hpk Hmem) as [m Hm].
  cbn [try_catch run Db.handle]. rewrite Hm. reflexivity.
Qed.

(** C2 (amended).  For every user who holds a membership of the room and
    supplies the correct password, provided the password is not blank,
    [joinRoom] succeeds at once: it selects the room after the single
    membership query, sends neither the count nor an insert, and leaves
    the store as it is, whatever the number of members of the room.
    Joining again changes nothing: the user has exactly one membership
    row. *)
Theorem joinRoom_idempotent (uid : string) (room : Room.t) (pw : string)
  (s : Db.Store)
  (Hpk : Db.pk_room_users s)
  (Hpw : Js.trim pw <> "") (Heq : pw = Room.password_hash room)
  (Hmem : (1 <= Db.membership_rows (Room.id room) uid s)%nat) :
  let j := RoomList.joinRoom uid (Some room) pw in
  run Db.handle j s =
    (inr tt, s,
     [EvCall (room_users_select_single (Room.id room) uid);
      EvUi (setShowJoinModal false);
      EvUi (setJoinPassword "");
      EvUi (onRoomSelect (Room.id room))]) /\
  final (run Db.handle j (final (run Db.handle j s))) = s /\
  Db.membership_rows (Room.id room) uid
    (final (run Db.handle j (final (run Db.handle j s)))) = 1%nat.
Proof.
  intros j. subst j.
  rewrite (joinRoom_member uid room pw s Hpk Hpw Heq Hmem).
  unfold final at 2 4. cbn [fst snd].
  rewrite (joinRoom_member uid room pw s Hpk Hpw Heq Hmem).
  split; [reflexivity|]. split; [reflexivity|].
  unfold final. cbn [fst snd]. specialize (Hpk (Room.id room) uid). lia.
Qed.

(** C3 (amended).  For every user without a membership of the room who
    supplies the correct password, provided the password is not blank:
    when the number of membership rows of the room is at least the
    room's [max_users], [joinRoom] fails with the toast "Room is full"
    after the count and leaves the store as it is; when it is below
    [max_users], provided the room is still stored, [joinRoom] inserts
    the row (room id, user id), exactly one, and selects the room. *)
Theorem joinRoom_capacity (uid : string) (room : Room.t) (pw : string)
  (s : Db.Store)
  (Hpw : Js.trim pw <> "") (Heq : pw = Room.password_hash room)
  (Hnon : Db.membership_rows (Room.id room) uid s = 0%nat) :
  let j := RoomList.joinRoom uid (Some room) pw in
  let rid := Room.id room in
  (Room.max_users room <= Db.member_count rid s ->
   run Db.handle j s =
     (inr tt, s,
      [EvCall (room_users_select_single rid uid);
       EvCall (room_users_select_count rid);
       EvUi (toast_error "Room is full. Please try another room.");
       EvUi (setShowJoinModal false);
       EvUi (setJoinPassword "")])) /\
  (Db.member_count rid s < Room.max_users room ->
   existsb (Db.has_id rid) (Db.rooms s) = true ->
   let s' := Db.mkStore (Db.rooms s)
               (Db.room_users s ++ [RoomUser.mk rid uid (Db.clock s)])
               (Db.messages s) (Db.auth_user s) (Db.clock s + 1)
               (Db.uuid_seed s) in
   run Db.handle j s =
     (inr tt, s',
      [EvCall (room_users_select_single rid uid);
       EvCall (room_users_select_count rid);
       EvCall (room_users_insert rid uid);
       EvUi (setShowJoinModal false);
       EvUi (setJoinPassword "");
       EvUi (onRoomSelect rid);
       EvUi (toast_success "Successfully joined the room!")]) /\
   Db.membership_rows rid uid s' = 1%nat /\
   Db.member_count rid s' = Db.member_count rid s + 1).
Proof.
  intros j rid. subst j rid. subst pw.
  pose proof (membership_filter_none _ _ _ Hnon) as Hnone.
  split.
  - intros Hfull. pass_password_tests Hpw.
    cbn [try_catch run Db.handle]. rewrite Hnone.
    cbn [Db.failed Db.ok data error count RoomList.throw_unless_no_rows
         code String.eqb Ascii.eqb Bool.eqb negb bind try_catch run
         Db.handle throw_if_error RoomList.room_is_full].
    unfold Db.member_count in Hfull. apply Z.leb_le in Hfull.
    rewrite Hfull. reflexivity.
  - intros Hroom Hex s'. split; [|split].
    + pass_password_tests Hpw.
      cbn [try_catch run Db.handle]. rewrite Hnone.
      cbn [Db.failed Db.ok data error count RoomList.throw_unless_no_rows
           code String.eqb Ascii.eqb Bool.eqb negb bind try_catch run
           Db.handle throw_if_error RoomList.room_is_full].
      unfold Db.member_count in Hroom. apply Z.leb_gt in Hroom.
      rewrite Hroom.
      cbn [bind try_catch run Db.handle].
      rewrite (filter_nil_existsb _ _ Hnone), Hex. reflexivity.
    + subst s'. unfold Db.membership_rows. cbn [Db.room_users].
      rewrite filter_app, length_app, Hnone. simpl.
      unfold Db.is_membership. simpl. rewrite !String.eqb_refl. reflexivity.
    + subst s'. unfold Db.member_count. cbn [Db.room_users].
      rewrite filter_app, length_app. simpl.
      unfold Db.in_room. simpl. rewrite String.eqb_refl. simpl. lia.
Qed.

Lemma pk_no_members (s : Db.Store) :
  Db.room_users s = [] -> Db.pk_room_users s.
Proof.
  intros H rid uid. unfold Db.membership_rows. rewrite H. simpl. lia.
Qed.

(** A blank credential is a state the settings dialog can produce: the
    update keeps any password that is not the empty string. *)
Lemma settings_can_store_blank_credential :
  final (run Db.handle
           (RoomSettings.handleUpdateSettings Sample.quiet_as_created " " 1)
           Sample.crowded_before) = Sample.crowded.
Proof. reflexivity. Qed.

Lemma joinRoom_idempotent_witness :
  let j := RoomList.joinRoom "ub" (Some Sample.lobby) "p" in
  let once := final (run Db.handle j Sample.fresh) in
  let twice := final (run Db.handle j once) in
  Db.membership_rows "r1" "ub" Sample.fresh = 0%nat /\
  Db.membership_rows "r1" "ub" once = 1%nat /\
  twice = once /\
  calls (trace (run Db.handle j once)) = [room_users_select_single "r1" "ub"] /\
  Db.membership_rows "r1" "ub" (final (run Db.handle j twice)) = 1%nat.
Proof.
  cbv zeta.
  split; [reflexivity|]. split; [reflexivity|].
  pose proof (joinRoom_idempotent "ub" Sample.lobby "p"
                (final (run Db.handle (RoomList.joinRoom "ub" (Some Sample.lobby) "p")
                          Sample.fresh))) as H.
  cbv zeta in H. destruct H as (H1 & H2 & H3).
  - apply run_pk, pk_no_members. reflexivity.
  - cbv. discriminate.
  - reflexivity.
  - cbv. lia.
  - split; [rewrite H1; reflexivity|].
    split; [rewrite H1; reflexivity|].
    rewrite H1. unfold final at 2. cbn [fst snd]. rewrite H1. reflexivity.
Defined.

(** C2, as stated, fails for a member of a room whose credential is
    blank: the correct password is turned away. *)
Lemma joinRoom_member_with_blank_credential :
  let j := RoomList.joinRoom "ub" (Some Sample.quiet) " " in
  (1 <= Db.membership_rows "r2" "ub" Sample.crowded)%nat /\
  " " = Room.password_hash Sample.quiet /\
  run Db.handle j Sample.crowded =
    (inr tt, Sample.crowded, [EvUi (toast_error "Room password is required")]).
Proof.
  cbv zeta. split; [cbv; lia|]. split; reflexivity.
Qed.

Lemma joinRoom_capacity_witness :
  let full := RoomList.joinRoom "ud" (Some Sample.lobby) "p" in
  let free := RoomList.joinRoom "ub" (Some Sample.lobby) "p" in
  (Db.member_count "r1" Sample.crowded = 2 /\
   final (run Db.handle full Sample.crowded) = Sample.crowded /\
   ui_actions (trace (run Db.handle full Sample.crowded)) =
     [toast_error "Room is full. Please try another room.";
      setShowJoinModal false; setJoinPassword ""]) /\
  (Db.member_count "r1" Sample.fresh = 0 /\
   Db.room_users (final (run Db.handle free Sample.fresh)) =
     [RoomUser.mk "r1" "ub" 10]).
Proof.
  cbv zeta. split.
  - split; [reflexivity|].
    pose proof (joinRoom_capacity "ud" Sample.lobby "p" Sample.crowded) as H.
    cbv zeta in H. destruct H as [H _].
    + cbv. discriminate.
    + reflexivity.
    + reflexivity.
    + rewrite H; [split; reflexivity | cbv; discriminate].
  - split; [reflexivity|].
    pose proof (joinRoom_capacity "ub" Sample.lobby "p" Sample.fresh) as H.
    cbv zeta in H. destruct H as [_ H].
    + cbv. discriminate.
    + reflexivity.
    + reflexivity.
    + destruct H as [H _]; [reflexivity | reflexivity |].
      rewrite H. reflexivity.
Defined.

(** C3, as stated, fails for a room whose credential is blank: with the
    correct password a non-member of the full room gets the toast of the
    missing password and no count is made, and a non-member of the same
    room with a free place is not inserted.  It fails too for a room
    that was deleted after the list was fetched: the count is below the
    limit, the insert is refused for the foreign key, the refusal is not
    shown, and no row is inserted. *)
Lemma joinRoom_nonmember_not_admitted :
  let j := RoomList.joinRoom "ud" (Some Sample.quiet) " " in
  let k := RoomList.joinRoom "ub" (Some Sample.quiet) " " in
  let l := RoomList.joinRoom "ub" (Some Sample.lobby) "p" in
  (Db.membership_rows "r2" "ud" Sample.crowded = 0%nat /\
   Room.max_users Sample.quiet <= Db.member_count "r2" Sample.crowded /\
   run Db.handle j Sample.crowded =
     (inr tt, Sample.crowded, [EvUi (toast_error "Room password is required")])) /\
  (Db.membership_rows "r2" "ub" Sample.fresh = 0%nat /\
   Db.member_count "r2" Sample.fresh < Room.max_users Sample.quiet /\
   Db.room_users (final (run Db.handle k Sample.fresh)) = []) /\
  (Db.membership_rows "r1" "ub" Sample.lobby_gone = 0%nat /\
   Db.member_count "r1" Sample.lobby_gone < Room.max_users Sample.lobby /\
   run Db.handle l Sample.lobby_gone =
     (inr tt, Sample.lobby_gone,
      [EvCall (room_users_select_single "r1" "ub");
       EvCall (room_users_select_count "r1");
       EvCall (room_users_insert "r1" "ub")])).
Proof.
  cbv zeta. repeat split; try reflexivity; try (cbv; discriminate).
Qed.

(** ** The message log *)

Lemma created_asc_total (a b : Message.t) :
  0 < Db.created_asc a b -> Db.created_asc b a <= 0.
Proof. unfold Db.created_asc. lia. Qed.

Lemma order_messages_asc_Sorted (l : list Message.t) :
  Sorted older_first (Db.order_messages_asc l).
Proof.
  unfold Db.order_messages_asc.
  pose proof (sort_Sorted Db.created_asc created_asc_total l) as H.
  induction H as [|a l0 _ IH Hd]; constructor; [exact IH|].
  destruct Hd as [|b l1 Hab]; constructor.
  unfold precedes, Db.created_asc in Hab. unfold older_first. lia.
Qed.

(** C4 (amended).  The snapshot that [fetchMessages] loads into the log
    holds the messages of the room ordered by creation time ascending.
    An INSERT event appends its message at the end of the log, whether or
    not a message with that id is in the log already: there is no test of
    the id.  Events of the other kinds leave the log as it is. *)
Theorem message_log_snapshot_and_append (roomId : string) (s : Db.Store) :
  let snapshot :=
    Db.order_messages_asc (filter (Db.msg_in_room roomId) (Db.messages s)) in
  run Db.handle (Chat.fetchMessages roomId) s =
    (inr tt, s,
     [EvCall (messages_select_order_asc roomId); EvUi (setMessages snapshot)]) /\
  Sorted older_first snapshot /\
  Permutation snapshot (filter (Db.msg_in_room roomId) (Db.messages s)) /\
  (forall m, In m snapshot <->
             In m (Db.messages s) /\ Message.room_id m = roomId) /\
  (forall m log, Chat.onChange (Chat.mkPayload Chat.INSERT m) log = log ++ [m]) /\
  (forall m log, Chat.onChange (Chat.mkPayload Chat.UPDATE m) log = log) /\
  (forall m log, Chat.onChange (Chat.mkPayload Chat.DELETE m) log = log).
Proof.
  intros snapshot. subst snapshot. split; [reflexivity|].
  split; [apply order_messages_asc_Sorted|].
  split; [apply sort_perm|].
  split; [|repeat split].
  intros m. unfold Db.order_messages_asc. rewrite sort_In, filter_In.
  unfold Db.msg_in_room. rewrite String.eqb_eq. reflexivity.
Qed.

(** C4, as stated, fails: an INSERT event for a message that the log
    already holds appends it a second time. *)
Lemma insert_event_appends_known_message :
  let log := Db.order_messages_asc
               (filter (Db.msg_in_room "r1") (Db.messages Sample.crowded)) in
  let log' := Chat.onChange (Chat.mkPayload Chat.INSERT Sample.hello) log in
  Chat.has_message_id (Message.id Sample.hello) log = true /\
  List.length log = 2%nat /\
  List.length log' = 3%nat /\
  log' = log ++ [Sample.hello].
Proof. cbv zeta. repeat split. Qed.

(** ** Creating a room *)

Lemma createForm_blocks (newRoomName newRoomPassword : string) (maxUsers : Z) :
  maxUsers < 1 \/ 100 < maxUsers ->
  RoomList.createForm_submit newRoomName newRoomPassword maxUsers = Ret tt.
Proof.
  intros H. unfold RoomList.createForm_submit, RoomList.createForm_valid.
  destruct (Js.truthy newRoomName), (Js.truthy newRoomPassword); simpl;
    try reflexivity.
  destruct (1 <=? maxUsers) eqn:E1; simpl; [|reflexivity].
  destruct (maxUsers <=? 100) eqn:E2; [|reflexivity].
  apply Z.leb_le in E1, E2. lia.
Qed.

(** C5.  A submission of the create form with [maxUsers] outside 1..100
    (0 and 101 in particular) is rejected before any request: the number
    input has [min] 1 and [max] 100, the form does not reach [createRoom],
    and nothing is sent to any backend.  Were [createRoom] to run with
    such a number, the CHECK of the store would refuse the row.  With
    [maxUsers] in 1..100 (1 and 100 in particular) the submission
    succeeds: for a name that is not empty and not in use, a password
    that is not blank and a signed-in user, the room is stored with that
    limit and selected.  Every stored room satisfies
    [1 <= max_users <= 100], whatever program runs on the store. *)
Theorem createRoom_max_users_bounds (newRoomName newRoomPassword : string)
  (maxUsers : Z) (s : Db.Store) :
  let c := RoomList.createForm_submit newRoomName newRoomPassword maxUsers in
  (maxUsers < 1 \/ 100 < maxUsers ->
   c = Ret tt /\
   (forall (S : Type) (h : Backend S) (x : S), run h c x = (inr tt, x, [])) /\
   final (run Db.handle
            (RoomList.createRoom newRoomName newRoomPassword maxUsers) s) = s) /\
  (1 <= maxUsers <= 100 ->
   forall user,
     newRoomName <> "" -> Js.trim newRoomPassword <> "" ->
     Db.auth_user s = Some user ->
     Db.name_taken newRoomName (Db.rooms s) = false -> Db.id_free s ->
     let row := Room.mk (Db.gen_random_uuid (Db.uuid_seed s)) newRoomName
                        (User.email user) (Db.clock s) newRoomPassword
                        maxUsers (User.id user) in
     Db.rooms (final (run Db.handle c s)) = Db.rooms s ++ [row] /\
     ui_actions (trace (run Db.handle c s)) =
       [setShowCreateModal false; setNewRoomName ""; setNewRoomPassword "";
        setMaxUsers 10; onRoomSelect (Room.id row);
        toast_success "Room created successfully!"]) /\
  (forall (R : Type) (p : Prog R),
     Db.check_rooms s -> Db.check_rooms (final (run Db.handle p s))).
Proof.
  intros c. subst c. split; [|split].
  - intros Hout. rewrite (createForm_blocks _ _ _ Hout).
    split; [reflexivity|]. split; [reflexivity|].
    assert (Hck : Db.check_max_users maxUsers = false).
    { unfold Db.check_max_users. apply andb_false_iff.
      destruct Hout; [left; apply Z.ltb_ge|right; apply Z.leb_gt]; lia. }
    unfold RoomList.createRoom.
    destruct (negb (Js.truthy (Js.trim newRoomPassword))); [reflexivity|].
    cbn [try_catch run Db.handle].
    destruct (Db.auth_user s) as [user|]; [|reflexivity].
    cbn [try_catch run Db.handle]. rewrite Hck. reflexivity.
  - intros Hin user Hname Hpw Hu Hfree Hid row.
    assert (Hck : Db.check_max_users maxUsers = true).
    { unfold Db.check_max_users. apply andb_true_iff.
      split; [apply Z.ltb_lt|apply Z.leb_le]; lia. }
    assert (Hvalid : RoomList.createForm_valid newRoomName newRoomPassword
                       maxUsers = true).
    { unfold RoomList.createForm_valid, Js.truthy.
      apply String.eqb_neq in Hname. rewrite Hname.
      assert (Hp : String.eqb newRoomPassword "" = false).
      { apply String.eqb_neq. intros ->. apply Hpw. reflexivity. }
      rewrite Hp. cbn [negb andb].
      apply andb_true_iff. split; apply Z.leb_le; lia. }
    unfold RoomList.createForm_submit. rewrite Hvalid.
    unfold RoomList.createRoom. rewrite blank_test.
    destruct (Js.all_white_space newRoomPassword) eqn:Hws.
    + exfalso. apply Hpw, trim_empty_iff, Hws.
    + unfold Db.id_free in Hid.
      cbn [try_catch run Db.handle]. rewrite Hu.
      cbn [try_catch run Db.handle Room.id]. rewrite Hck, Hid, Hfree.
      split; reflexivity.
  - intros R p. apply run_check.
Qed.

Lemma createRoom_max_users_bounds_witness :
  let low := RoomList.createForm_submit "Hall" "pw" 0 in
  let high := RoomList.createForm_submit "Hall" "pw" 101 in
  let one := RoomList.createForm_submit "Hall" "pw" 1 in
  let hundred := RoomList.createForm_submit "Hall" "pw" 100 in
  (run Db.handle low Sample.fresh = (inr tt, Sample.fresh, []) /\
   run Db.handle high Sample.fresh = (inr tt, Sample.fresh, [])) /\
  (Db.rooms (final (run Db.handle one Sample.fresh)) =
     Db.rooms Sample.fresh ++
     [Room.mk "room-5" "Hall" "bob@example.org" 10 "pw" 1 "ub"] /\
   Db.rooms (final (run Db.handle hundred Sample.fresh)) =
     Db.rooms Sample.fresh ++
     [Room.mk "room-5" "Hall" "bob@example.org" 10 "pw" 100 "ub"]) /\
  Db.check_rooms (final (run Db.handle hundred Sample.fresh)).
Proof.
  cbv zeta.
  pose proof (createRoom_max_users_bounds "Hall" "pw" 0 Sample.fresh) as H0.
  pose proof (createRoom_max_users_bounds "Hall" "pw" 101 Sample.fresh) as H101.
  pose proof (createRoom_max_users_bounds "Hall" "pw" 1 Sample.fresh) as H1.
  pose proof (createRoom_max_users_bounds "Hall" "pw" 100 Sample.fresh) as H100.
  cbv zeta in H0, H101, H1, H100.
  destruct H0 as [H0 _], H101 as [H101 _], H1 as (_ & H1 & _),
    H100 as (_ & H100 & Hinv).
  split; [split|split; [split|]].
  - apply H0. lia.
  - apply H101. lia.
  - apply (H1 ltac:(lia) Sample.bob); try reflexivity; cbv; discriminate.
  - apply (H100 ltac:(lia) Sample.bob); try reflexivity; cbv; discriminate.
  - apply Hinv. repeat constructor; simpl; lia.
Defined.

(** ** Listing and filtering rooms *)



Lemma matches_spec (cm : Js.CaseMapping) (q : string) (r : Room.t) :
  RoomList.matches cm q r = true <->
  contains (Js.toLowerCase cm (Room.id r)) q \/
  contains (Js.toLowerCase cm (Room.name r)) q.
Proof.
  unfold RoomList.matches, contains.
  rewrite orb_true_iff, !includes_spec. reflexivity.
Qed.

(** C7 (amended).  With a query that is blank (empty or made of white
    space) the filter shows the whole catalog in the order of the list:
    applied to the list itself it is the identity.  With a query that is
    not blank it shows exactly the rooms whose id or name, in lower case,
    contains the query in lower case (white space of the query included),
    in the same order: owned rooms first, each group by creation time
    descending; applied to the list it is the sublist of the matching
    rooms.  This holds whatever the case mapping of the engine is. *)
Theorem searchEffect_filter (cm : Js.CaseMapping) (uid searchQuery : string)
  (rooms : list Room.t) :
  let shown := RoomList.searchEffect cm uid searchQuery rooms in
  let q := Js.toLowerCase cm searchQuery in
  (Js.trim searchQuery = "" ->
   shown = RoomList.sortRooms uid rooms /\
   forall catalog, rooms = RoomList.sortRooms uid catalog -> shown = rooms) /\
  (Js.trim searchQuery <> "" ->
   let hits := filter (RoomList.matches cm q) rooms in
   shown = RoomList.sortRooms uid hits /\
   shown = Db.order_rooms_desc (filter (RoomList.owned uid) hits) ++
           Db.order_rooms_desc
             (filter (fun r => negb (RoomList.owned uid r)) hits) /\
   (forall r, In r shown <->
              In r rooms /\
              (contains (Js.toLowerCase cm (Room.id r)) q \/
               contains (Js.toLowerCase cm (Room.name r)) q)) /\
   forall catalog, rooms = RoomList.sortRooms uid catalog -> shown = hits).
Proof.
  intros shown q. subst shown q. unfold RoomList.searchEffect. split.
  - intros Hb. rewrite Hb. simpl. split; [reflexivity|].
    intros catalog ->. apply sortRooms_idempotent.
  - intros Hnb. apply String.eqb_neq in Hnb. rewrite Hnb.
    cbv zeta.
    split; [reflexivity|]. split; [apply sortRooms_groups|]. split.
    + intros r. unfold RoomList.sortRooms.
      rewrite sort_In, filter_In, matches_spec. reflexivity.
    + intros catalog ->. rewrite <- sortRooms_filter.
      rewrite sortRooms_idempotent. reflexivity.
Qed.

Lemma searchEffect_filter_witness :
  let listed := [Sample.atrium; Sample.quiet; Sample.lobby; Sample.den] in
  RoomList.searchEffect Js.basic_latin "ua" "" listed = listed /\
  RoomList.searchEffect Js.basic_latin "ua" Sample.nbsp listed = listed /\
  RoomList.searchEffect Js.basic_latin "ua" "LOB" listed = [Sample.lobby] /\
  RoomList.searchEffect Js.basic_latin "ua" "r" listed =
    [Sample.atrium; Sample.quiet; Sample.lobby; Sample.den].
Proof.
  cbv zeta.
  pose proof (searchEffect_filter Js.basic_latin "ua" ""
                [Sample.atrium; Sample.quiet; Sample.lobby; Sample.den]) as H0.
  pose proof (searchEffect_filter Js.basic_latin "ua" Sample.nbsp
                [Sample.atrium; Sample.quiet; Sample.lobby; Sample.den]) as Hn.
  pose proof (searchEffect_filter Js.basic_latin "ua" "LOB"
                [Sample.atrium; Sample.quiet; Sample.lobby; Sample.den]) as H1.
  cbv zeta in H0, Hn, H1. destruct H0 as [H0 _], Hn as [Hn _], H1 as [_ H1].
  split; [|split; [|split]].
  - destruct H0 as [_ H0]; [reflexivity|].
    apply (H0 (Db.rooms Sample.fresh)). reflexivity.
  - destruct Hn as [_ Hn]; [reflexivity|].
    apply (Hn (Db.rooms Sample.fresh)). reflexivity.
  - destruct H1 as (_ & _ & _ & H1); [cbv; discriminate|].
    rewrite (H1 (Db.rooms Sample.fresh)); reflexivity.
  - reflexivity.
Defined.

(** A blank query shows the whole list under every case mapping: the
    branch it takes does not lower anything. *)
Lemma searchEffect_blank (cm : Js.CaseMapping) (uid q : string)
  (rooms : list Room.t) :
  Js.all_white_space q = true ->
  RoomList.searchEffect cm uid q rooms = RoomList.sortRooms uid rooms.
Proof.
  intros H. apply trim_empty_iff in H. unfold RoomList.searchEffect.
  rewrite H. reflexivity.
Qed.

(** C7, as stated, fails on a query that is not empty but blank: the
    filter shows a room whose id and name do not contain the query.
    The strings are ASCII, on which every case mapping agrees. *)
Lemma searchEffect_blank_query_shows_all :
  let shown := RoomList.searchEffect Js.basic_latin "ub" " " [Sample.lobby] in
  String.eqb " " "" = false /\
  shown = [Sample.lobby] /\
  Js.includes (Js.toLowerCase Js.basic_latin (Room.id Sample.lobby))
              (Js.toLowerCase Js.basic_latin " ") = false /\
  Js.includes (Js.toLowerCase Js.basic_latin (Room.name Sample.lobby))
              (Js.toLowerCase Js.basic_latin " ") = false.
Proof. cbv zeta. repeat split. Qed.

(** ** Settings and deletion *)

Lemma filter_negb_none {B : Type} (f : B -> bool) (l : list B) (x : B) :
  In x (filter (fun y => negb (f y)) l) -> f x = false.
Proof.
  intros H. apply filter_In in H as [_ H]. apply negb_true_iff, H.
Qed.

Lemma filter_idem {B : Type} (f : B -> bool) (l : list B) :
  filter f (filter f l) = filter f l.
Proof.
  induction l as [|x l IH]; simpl; [reflexivity|].
  destruct (f x) eqn:E; simpl; [rewrite E, IH|]; auto.
Qed.

(** The backstop of the schema: deleting the room row alone removes the
    messages and memberships of the room (ON DELETE CASCADE). *)
Lemma rooms_delete_cascades (rid : string) (s : Db.Store) :
  let s' := snd (Db.handle (rooms_delete_eq_id rid) s) in
  (forall r, In r (Db.rooms s') -> Room.id r <> rid) /\
  (forall m, In m (Db.messages s') -> Message.room_id m <> rid) /\
  (forall m, In m (Db.room_users s') -> RoomUser.room_id m <> rid).
Proof.
  simpl. repeat split; intros x Hx; apply filter_negb_none in Hx;
    apply String.eqb_neq, Hx.
Qed.

Lemma handleDeleteRoom_run (room : Room.t) (s : Db.Store) :
  run Db.handle (RoomSettings.handleDeleteRoom room) s =
  (inr tt,
   Db.mkStore
     (filter (fun r => negb (Db.has_id (Room.id room) r)) (Db.rooms s))
     (filter (fun m => negb (Db.in_room (Room.id room) m)) (Db.room_users s))
     (filter (fun m => negb (Db.msg_in_room (Room.id room) m)) (Db.messages s))
     (Db.auth_user s) (Db.clock s) (Db.uuid_seed s),
   [EvUi (setIsDeleting true);
    EvCall (messages_delete_eq_room_id (Room.id room));
    EvCall (room_users_delete_eq_room_id (Room.id room));
    EvCall (rooms_delete_eq_id (Room.id room));
    EvUi (toast_success "Room deleted successfully");
    EvUi onRoomDeleted;
    EvUi (setIsDeleting false)]).
Proof.
  unfold RoomSettings.handleDeleteRoom. simpl.
  rewrite !filter_idem. reflexivity.
Qed.

(** C8.  The confirmation form starts the deletion only when the typed
    token is the sentinel [DELETE].  The deletion sends three requests in
    the order of the dependencies, whatever the backend answers: the
    messages of the room, its memberships, the room row.  Once it has run
    on the store, no room, message or membership row carries the id of
    the room, and the list fetched afterwards does not show it. *)
Theorem deleteRoom_gate_and_order (room : Room.t) (isDeleting : bool)
  (deletePassword : string) :
  let rid := Room.id room in
  (deletePassword <> RoomSettings.confirmation ->
   RoomSettings.deleteForm_submit room isDeleting deletePassword = Ret tt) /\
  (forall (S : Type) (h : Backend S) (s : S),
     calls (trace (run h (RoomSettings.handleDeleteRoom room) s)) =
       [messages_delete_eq_room_id rid;
        room_users_delete_eq_room_id rid;
        rooms_delete_eq_id rid]) /\
  (forall (s : Db.Store) (uid : string),
     let s' := final (run Db.handle
                        (RoomSettings.deleteForm_submit room false
                           RoomSettings.confirmation) s) in
     (forall r, In r (Db.rooms s') -> Room.id r <> rid) /\
     (forall m, In m (Db.messages s') -> Message.room_id m <> rid) /\
     (forall m, In m (Db.room_users s') -> RoomUser.room_id m <> rid) /\
     (exists listed,
        ui_actions (trace (run Db.handle (RoomList.fetchRooms uid) s')) =
          [setRooms listed; setFilteredRooms listed] /\
        forall r, In r listed -> Room.id r <> rid)).
Proof.
  intros rid. subst rid. split; [|split].
  - intros Hne. unfold RoomSettings.deleteForm_submit,
      RoomSettings.deleteButton_disabled.
    apply String.eqb_neq in Hne. rewrite Hne, orb_true_r. reflexivity.
  - intros S h s. unfold RoomSettings.handleDeleteRoom.
    cbn [run finally try_catch bind].
    destruct (h (messages_delete_eq_room_id (Room.id room)) s) as [x1 s1].
    cbn [run finally try_catch bind].
    destruct (h (room_users_delete_eq_room_id (Room.id room)) s1) as [x2 s2].
    cbn [run finally try_catch bind].
    destruct (h (rooms_delete_eq_id (Room.id room)) s2) as [x3 s3].
    reflexivity.
  - intros s uid.
    assert (Hsub : RoomSettings.deleteForm_submit room false
                     RoomSettings.confirmation =
                   RoomSettings.handleDeleteRoom room) by reflexivity.
    rewrite Hsub, handleDeleteRoom_run. unfold final. cbn [fst snd].
    assert (Hrooms : forall r,
      In r (filter (fun r => negb (Db.has_id (Room.id room) r)) (Db.rooms s)) ->
      Room.id r <> Room.id room).
    { intros r Hr. apply filter_negb_none in Hr.
      unfold Db.has_id in Hr. apply String.eqb_neq, Hr. }
    split; [exact Hrooms|]. split; [|split].
    + intros m Hm. cbn [Db.messages] in Hm. apply filter_negb_none in Hm.
      unfold Db.msg_in_room in Hm. apply String.eqb_neq, Hm.
    + intros m Hm. cbn [Db.room_users] in Hm. apply filter_negb_none in Hm.
      unfold Db.in_room in Hm. apply String.eqb_neq, Hm.
    + eexists. split; [reflexivity|].
      intros r Hr. cbn [Db.rooms] in Hr.
      apply Hrooms. unfold RoomList.sortRooms in Hr.
      rewrite sort_In in Hr. cbn [data Db.ok] in Hr.
      unfold Db.order_rooms_desc in Hr. rewrite sort_In in Hr. exact Hr.
Qed.

Lemma deleteRoom_gate_and_order_witness :
  RoomSettings.deleteForm_submit Sample.lobby false "delete" = Ret tt /\
  calls (trace (run Db.handle
                  (RoomSettings.deleteForm_submit Sample.lobby false "DELETE")
                  Sample.crowded)) =
    [messages_delete_eq_room_id "r1"; room_users_delete_eq_room_id "r1";
     rooms_delete_eq_id "r1"] /\
  forall r,
    In r (Db.rooms (final (run Db.handle
                             (RoomSettings.deleteForm_submit Sample.lobby false "DELETE")
                             Sample.crowded))) ->
    Room.id r <> "r1".
Proof.
  pose proof (deleteRoom_gate_and_order Sample.lobby false "delete") as H.
  pose proof (deleteRoom_gate_and_order Sample.lobby false "DELETE") as H'.
  cbv zeta in H, H'. destruct H as [H _], H' as (_ & H1 & H2).
  split; [apply H; cbv; discriminate|].
  split; [apply (H1 Db.Store Db.handle Sample.crowded)|].
  apply (H2 Sample.crowded "ub").
Defined.

Lemma update_rooms_frame (u : Room.partial) (rid : string) (l : list Room.t) :
  Room.p_id u = None -> Room.p_name u = None -> Room.p_owner_id u = None ->
  map (fun r => (Room.id r, Room.name r, Room.owner_id r, Room.owner_email r,
                 Room.created_at r))
      (Db.update_rooms u rid l) =
  map (fun r => (Room.id r, Room.name r, Room.owner_id r, Room.owner_email r,
                 Room.created_at r)) l.
Proof.
  intros Hi Hn Ho. unfold Db.update_rooms. rewrite map_map.
  apply map_ext. intros r. destruct (String.eqb (Room.id r) rid); [|reflexivity].
  unfold Db.apply_updates. rewrite Hi, Hn, Ho. reflexivity.
Qed.

Lemma update_rooms_password (u : Room.partial) (rid : string) (l : list Room.t) :
  Room.p_password_hash u = None ->
  map Room.password_hash (Db.update_rooms u rid l) = map Room.password_hash l.
Proof.
  intros Hp. unfold Db.update_rooms. rewrite map_map.
  apply map_ext. intros r. destruct (String.eqb (Room.id r) rid); [|reflexivity].
  unfold Db.apply_updates. rewrite Hp. reflexivity.
Qed.

(** C9.  [handleUpdateSettings] sends one request, the update of the room
    row by the patch it built.  When the new password is empty the patch
    holds [max_users] only and the stored credential of every room is
    what it was.  In every call the id, name, owner, owner label and
    creation time of every room, and the other tables, are what they
    were. *)
Theorem updateSettings_frame (room : Room.t) (newPassword : string)
  (maxUsers : Z) (s : Db.Store) :
  let u := RoomSettings.handleUpdateSettings room newPassword maxUsers in
  let s' := final (run Db.handle u s) in
  (forall (S : Type) (h : Backend S) (x : S),
     calls (trace (run h u x)) =
       [rooms_update_eq_id (RoomSettings.updates newPassword maxUsers)
                           (Room.id room)]) /\
  (newPassword = "" ->
   RoomSettings.updates newPassword maxUsers =
     Room.mk_partial None None None (Some maxUsers) None /\
   map Room.password_hash (Db.rooms s') = map Room.password_hash (Db.rooms s)) /\
  map (fun r => (Room.id r, Room.name r, Room.owner_id r, Room.owner_email r,
                 Room.created_at r)) (Db.rooms s') =
  map (fun r => (Room.id r, Room.name r, Room.owner_id r, Room.owner_email r,
                 Room.created_at r)) (Db.rooms s) /\
  Db.room_users s' = Db.room_users s /\
  Db.messages s' = Db.messages s.
Proof.
  intros u s'. subst u s'. split.
  { intros S h x. unfold RoomSettings.handleUpdateSettings.
    cbn [run finally try_catch bind].
    destruct (h _ x) as [r x1]. destruct (error r) as [e|] eqn:E.
    - cbn [throw_if_error bind try_catch finally catch_toast].
      destruct e as [c m [|]]; reflexivity.
    - reflexivity. }
  unfold RoomSettings.handleUpdateSettings.
  cbn [run finally try_catch bind Db.handle].
  rewrite update_where_plain by reflexivity.
  destruct (forallb _ _) eqn:E.
  - cbn. split; [|split; [|split; reflexivity]].
    + intros ->. split; [reflexivity|].
      apply (update_rooms_password (RoomSettings.updates "" maxUsers)
               (Room.id room)). reflexivity.
    + apply (update_rooms_frame (RoomSettings.updates newPassword maxUsers)
               (Room.id room)); reflexivity.
  - cbn. split; [|split; [|split; reflexivity]].
    + intros ->. split; reflexivity.
    + reflexivity.
Qed.

Lemma updateSettings_frame_witness :
  let u := RoomSettings.handleUpdateSettings Sample.lobby "" 7 in
  map Room.password_hash (Db.rooms (final (run Db.handle u Sample.crowded))) =
    ["p"; " "; "d"; "a"] /\
  map Room.max_users (Db.rooms (final (run Db.handle u Sample.crowded))) =
    [7; 1; 1; 3].
Proof.
  pose proof (updateSettings_frame Sample.lobby "" 7 Sample.crowded) as H.
  cbv zeta in H. destruct H as (_ & H & _).
  destruct H as [_ H]; [reflexivity|].
  cbv zeta. split; [rewrite H; reflexivity|reflexivity].
Defined.

(* ================================================================== *)
(** * Part III: further properties of the handlers *)
(* ================================================================== *)

(** ** Requests of a handler, whatever the backend answers *)

Lemma all_calls_impl {R : Type} (P Q : Op -> Prop) (p : Prog R) :
  (forall o, P o -> Q o) -> all_calls P p -> all_calls Q p.
Proof.
  intros HPQ. induction p as [r|e|a k IH|o k IH]; simpl; auto.
  intros [Ho Hk]. split; auto.
Qed.

Lemma all_calls_bind {A B : Type} (P : Op -> Prop) (p : Prog A) (f : A -> Prog B) :
  all_calls P p -> (forall a, all_calls P (f a)) -> all_calls P (bind p f).
Proof.
  intros Hp Hf. induction p as [r|e|a k IH|o k IH]; simpl in *; auto.
  destruct Hp as [Ho Hk]. split; auto.
Qed.

Lemma all_calls_try_catch {R : Type} (P : Op -> Prop) (p : Prog R)
  (c : Thrown -> Prog R) :
  all_calls P p -> (forall e, all_calls P (c e)) -> all_calls P (try_catch p c).
Proof.
  intros Hp Hc. induction p as [r|e|a k IH|o k IH]; simpl in *; auto.
  destruct Hp as [Ho Hk]. split; auto.
Qed.

Lemma all_calls_finally {R : Type} (P : Op -> Prop) (p : Prog R) (f : Prog unit) :
  all_calls P p -> all_calls P f -> all_calls P (finally p f).
Proof.
  intros Hp Hf. induction p as [r|e|a k IH|o k IH]; simpl in *.
  - apply all_calls_bind; simpl; auto.
  - apply all_calls_bind; simpl; auto.
  - auto.
  - destruct Hp as [Ho Hk]. split; auto.
Qed.

Lemma all_calls_catch_toast (P : Op -> Prop) (e : Thrown) :
  all_calls P (catch_toast e).
Proof. destruct e as [m|[c m [|]]]; simpl; exact I. Qed.

Lemma all_calls_throw_if_error (P : Op -> Prop) (e : option PostgrestError) :
  all_calls P (throw_if_error e).
Proof. destruct e; simpl; exact I. Qed.

(** What holds of every request a program can send holds of every
    request it does send. *)
Lemma all_calls_run {S R : Type} (P : Op -> Prop) (h : Backend S)
  (p : Prog R) (s : S) :
  all_calls P p -> Forall P (calls (trace (run h p s))).
Proof.
  revert s. induction p as [r|e|a k IH|o k IH]; intros s Hp; simpl in *.
  - constructor.
  - constructor.
  - specialize (IH s Hp). destruct (run h k s) as [[r s'] t]. exact IH.
  - destruct Hp as [Ho Hk]. destruct (h o s) as [x s1].
    specialize (IH x s1 (Hk x)).
    destruct (run h (k x) s1) as [[r s'] t]. simpl in *.
    constructor; assumption.
Qed.

Ltac all_calls_step :=
  first
    [ exact I
    | apply all_calls_catch_toast
    | apply all_calls_throw_if_error
    | apply all_calls_try_catch; [|intros ?]
    | apply all_calls_finally
    | apply all_calls_bind; [|intros ?]
    | match goal with
      | |- all_calls _ (if ?b then _ else _) => destruct b
      | |- all_calls _ (match ?x with Some _ => _ | None => _ end) => destruct x
      | |- all_calls _ (Ui _ _) => cbn [all_calls]
      | |- all_calls _ (Call _ _) => cbn [all_calls]; split; [|intros ?]
      end ].

(** [joinRoom] talks to the membership table only, about this room and
    this user: the credential and [max_users] it tests are those of the
    catalog entry, the row of the room is not read. *)
Theorem joinRoom_requests (uid : string) (room : Room.t) (pw : string) :
  let allowed o :=
    o = room_users_select_single (Room.id room) uid \/
    o = room_users_select_count (Room.id room) \/
    o = room_users_insert (Room.id room) uid in
  all_calls allowed (RoomList.joinRoom uid (Some room) pw) /\
  forall (S : Type) (h : Backend S) (s : S),
    Forall (fun o => touches_room_users o = true)
           (calls (trace (run h (RoomList.joinRoom uid (Some room) pw) s))).
Proof.
  intros allowed.
  assert (H : all_calls allowed (RoomList.joinRoom uid (Some room) pw)).
  { unfold RoomList.joinRoom, RoomList.throw_unless_no_rows.
    repeat all_calls_step; subst allowed; cbn beta; auto. }
  split; [exact H|].
  intros S h s. apply all_calls_run.
  eapply all_calls_impl; [|exact H].
  intros o [->|[->| ->]]; reflexivity.
Qed.

(** ** Joining, case by case *)

(** What [joinRoom] does on the store with a correct password that is
    not blank, by the state of the membership table.  An insert that the
    store refuses ends the handler without any message: the error is a
    plain object, which the [catch] clause does not show. *)
Lemma joinRoom_on_store (uid : string) (room : Room.t) (pw : string)
  (s : Db.Store) :
  Js.trim pw <> "" -> pw = Room.password_hash room ->
  let rid := Room.id room in
  run Db.handle (RoomList.joinRoom uid (Some room) pw) s =
  match filter (Db.is_membership rid uid) (Db.room_users s) with
  | [_] =>
      (inr tt, s,
       [EvCall (room_users_select_single rid uid);
        EvUi (setShowJoinModal false); EvUi (setJoinPassword "");
        EvUi (onRoomSelect rid)])
  | _ =>
      if Room.max_users room <=? Db.member_count rid s then
        (inr tt, s,
         [EvCall (room_users_select_single rid uid);
          EvCall (room_users_select_count rid);
          EvUi (toast_error "Room is full. Please try another room.");
          EvUi (setShowJoinModal false); EvUi (setJoinPassword "")])
      else if existsb (Db.is_membership rid uid) (Db.room_users s) then
        (inr tt, s,
         [EvCall (room_users_select_single rid uid);
          EvCall (room_users_select_count rid);
          EvCall (room_users_insert rid uid)])
      else if negb (existsb (Db.has_id rid) (Db.rooms s)) then
        (inr tt, s,
         [EvCall (room_users_select_single rid uid);
          EvCall (room_users_select_count rid);
          EvCall (room_users_insert rid uid)])
      else
        (inr tt,
         Db.mkStore (Db.rooms s)
           (Db.room_users s ++ [RoomUser.mk rid uid (Db.clock s)])
           (Db.messages s) (Db.auth_user s) (Db.clock s + 1) (Db.uuid_seed s),
         [EvCall (room_users_select_single rid uid);
          EvCall (room_users_select_count rid);
          EvCall (room_users_insert rid uid);
          EvUi (setShowJoinModal false); EvUi (setJoinPassword "");
          EvUi (onRoomSelect rid);
          EvUi (toast_success "Successfully joined the room!")])
  end.
Proof.
  intros Hpw Heq rid. subst rid pw. pass_password_tests Hpw.
  cbn [try_catch run Db.handle]. unfold Db.member_count.
  destruct (filter (Db.is_membership (Room.id room) uid) (Db.room_users s))
    as [|m [|m' l]] eqn:Hf.
  - cbn [Db.failed Db.ok data error count RoomList.throw_unless_no_rows
         code String.eqb Ascii.eqb Bool.eqb negb bind try_catch run
         Db.handle throw_if_error RoomList.room_is_full].
    destruct (Room.max_users room <=? _); [reflexivity|].
    cbn [bind try_catch run Db.handle].
    destruct (existsb (Db.is_membership (Room.id room) uid) (Db.room_users s));
      [reflexivity|].
    destruct (negb (existsb (Db.has_id (Room.id room)) (Db.rooms s)));
      reflexivity.
  - reflexivity.
  - cbn [Db.failed Db.ok data error count RoomList.throw_unless_no_rows
         code String.eqb Ascii.eqb Bool.eqb negb bind try_catch run
         Db.handle throw_if_error RoomList.room_is_full].
    destruct (Room.max_users room <=? _); [reflexivity|].
    cbn [bind try_catch run Db.handle].
    destruct (existsb (Db.is_membership (Room.id room) uid) (Db.room_users s));
      [reflexivity|].
    destruct (negb (existsb (Db.has_id (Room.id room)) (Db.rooms s)));
      reflexivity.
Qed.

Lemma joinRoom_rejected (uid : string) (room : Room.t) (pw : string) :
  Js.trim pw = "" \/ pw <> Room.password_hash room ->
  exists msg, RoomList.joinRoom uid (Some room) pw = Ui (toast_error msg) (Ret tt).
Proof.
  intros Hbad. unfold RoomList.joinRoom. rewrite blank_test.
  destruct (Js.all_white_space pw) eqn:Hws; [eauto|].
  destruct Hbad as [Hb|Hne].
  - apply trim_empty_iff in Hb. congruence.
  - apply String.eqb_neq in Hne. rewrite Hne. simpl. eauto.
Qed.

Lemma password_cases (room : Room.t) (pw : string) :
  (Js.trim pw = "" \/ pw <> Room.password_hash room) \/
  (Js.trim pw <> "" /\ pw = Room.password_hash room).
Proof.
  destruct (string_dec (Js.trim pw) "") as [H|H]; [left; left; exact H|].
  destruct (string_dec pw (Room.password_hash room)) as [E|E]; [right|left]; auto.
Qed.

Lemma trace_call {S R : Type} (h : Backend S) (o : Op) (k : resp o -> Prog R) (s : S) :
  trace (run h (Call o k) s) =
  EvCall o :: trace (run h (k (fst (h o s))) (snd (h o s))).
Proof.
  simpl. destruct (h o s) as [x s1]. simpl.
  destruct (run h (k x) s1) as [[r s'] t]. reflexivity.
Qed.

Lemma trace_ui {S R : Type} (h : Backend S) (a : UiAct) (k : Prog R) (s : S) :
  trace (run h (Ui a k) s) = EvUi a :: trace (run h k s).
Proof. simpl. destruct (run h k s) as [[r s'] t]. reflexivity. Qed.

Lemma final_call {S R : Type} (h : Backend S) (o : Op) (k : resp o -> Prog R) (s : S) :
  final (run h (Call o k) s) = final (run h (k (fst (h o s))) (snd (h o s))).
Proof.
  simpl. destruct (h o s) as [x s1]. simpl.
  destruct (run h (k x) s1) as [[r s'] t]. reflexivity.
Qed.

Lemma final_ui {S R : Type} (h : Backend S) (a : UiAct) (k : Prog R) (s : S) :
  final (run h (Ui a k) s) = final (run h k s).
Proof. simpl. destruct (run h k s) as [[r s'] t]. reflexivity. Qed.

(** The toast of the [catch] clause is an error toast or nothing. *)
Lemma catch_toast_ui {S : Type} (h : Backend S) (t : Thrown) (x : S) :
  calls (trace (run h (catch_toast t) x)) = [] /\
  final (run h (catch_toast t) x) = x /\
  (ui_actions (trace (run h (catch_toast t) x)) = [] \/
   exists msg, ui_actions (trace (run h (catch_toast t) x)) = [toast_error msg]).
Proof.
  destruct t as [m|[cd m [|]]]; simpl; repeat split; eauto.
Qed.

Ltac trace_steps :=
  repeat (rewrite ?trace_call, ?trace_ui, ?final_call, ?final_ui;
          cbn [ui_actions calls try_catch bind finally]).

(** [joinRoom] selects a room only after it was let in: whatever the
    backend answers, when the room is handed to [onRoomSelect] it is the
    room of the catalog entry, the password was not blank and equal to
    the credential of the entry, and the requests were the membership
    query alone (a row was found) or the query, the count and the
    insert. *)
Theorem joinRoom_selects_only_when_admitted {S : Type} (h : Backend S) (s : S)
  (uid : string) (room : Room.t) (pw rid : string)
  (Hsel : In (onRoomSelect rid)
             (ui_actions (trace (run h (RoomList.joinRoom uid (Some room) pw) s)))) :
  rid = Room.id room /\
  Js.trim pw <> "" /\ pw = Room.password_hash room /\
  let cs := calls (trace (run h (RoomList.joinRoom uid (Some room) pw) s)) in
  cs = [room_users_select_single (Room.id room) uid] \/
  cs = [room_users_select_single (Room.id room) uid;
        room_users_select_count (Room.id room);
        room_users_insert (Room.id room) uid].
Proof.
  destruct (password_cases room pw) as [Hbad|[Hpw Heq]].
  { destruct (joinRoom_rejected uid room pw Hbad) as [msg Hj].
    rewrite Hj in Hsel. simpl in Hsel. destruct Hsel as [H|[]]. discriminate. }
  cbv zeta. revert Hsel. subst pw. pass_password_tests Hpw.
  assert (Hcatch : forall (t : Thrown) (x : S) (pre : list UiAct),
            ~ In (onRoomSelect rid) pre ->
            ~ In (onRoomSelect rid)
                 (pre ++ ui_actions (trace (run h (catch_toast t) x)))).
  { intros t x pre Hpre H. apply in_app_or in H as [H|H]; [auto|].
    destruct (catch_toast_ui h t x) as (_ & _ & [E1|[msg E1]]);
      rewrite E1 in H; simpl in H; [exact H|].
    destruct H as [H|[]]. discriminate. }
  trace_steps.
  destruct (h (room_users_select_single (Room.id room) uid) s) as [[d c e] s1].
  cbn [fst snd data error].
  destruct e as [[cd m ie]|]; cbn [RoomList.throw_unless_no_rows code];
    [destruct (String.eqb cd "PGRST116"); cbn [negb bind try_catch];
     [|intros H; exfalso; exact (Hcatch _ _ [] (fun x => x) H)]
    |cbn [bind try_catch]].
  all: destruct d as [row|]; trace_steps;
    [simpl; intros [H|[H|[H|[]]]]; try discriminate;
     injection H as <-; repeat split; auto|].
  all: destruct (h (room_users_select_count (Room.id room)) s1) as [[d2 c2 e2] s2];
    cbn [fst snd error count];
    destruct e2 as [err2|]; cbn [throw_if_error bind try_catch];
    [intros H; exfalso; exact (Hcatch _ _ [] (fun x => x) H)|];
    destruct (RoomList.room_is_full c2 (Room.max_users room));
    [trace_steps; simpl; intros [H|[H|[H|[]]]]; discriminate|];
    trace_steps;
    destruct (h (room_users_insert (Room.id room) uid) s2) as [[d3 c3 e3] s3];
    cbn [fst snd error];
    destruct e3 as [err3|]; cbn [throw_if_error bind try_catch];
    [intros H; exfalso; exact (Hcatch _ _ [] (fun x => x) H)|];
    trace_steps; simpl; intros [H|[H|[H|[H|[]]]]]; try discriminate;
    injection H as <-; repeat split; auto.
Qed.

Lemma joinRoom_selects_only_when_admitted_witness :
  Js.trim "p" <> "" /\ "p" = Room.password_hash Sample.lobby /\
  calls (trace (run Db.handle (RoomList.joinRoom "ub" (Some Sample.lobby) "p")
                  Sample.crowded)) =
    [room_users_select_single "r1" "ub"].
Proof.
  assert (Hsel : In (onRoomSelect "r1")
            (ui_actions (trace (run Db.handle
               (RoomList.joinRoom "ub" (Some Sample.lobby) "p") Sample.crowded)))).
  { simpl. auto. }
  pose proof (joinRoom_selects_only_when_admitted Db.handle Sample.crowded
                "ub" Sample.lobby "p" "r1" Hsel) as (_ & H1 & H2 & _).
  split; [exact H1|]. split; [exact H2|]. reflexivity.
Defined.

(** ** Joins and the capacity of a room *)

Lemma member_count_after_join (uid : string) (room : Room.t) (pw : string)
  (s : Db.Store) :
  let s' := final (run Db.handle (RoomList.joinRoom uid (Some room) pw) s) in
  Db.member_count (Room.id room) s' = Db.member_count (Room.id room) s \/
  (Db.member_count (Room.id room) s < Room.max_users room /\
   Db.member_count (Room.id room) s' = Db.member_count (Room.id room) s + 1).
Proof.
  cbv zeta. destruct (password_cases room pw) as [Hbad|[Hpw Heq]].
  { destruct (joinRoom_rejected uid room pw Hbad) as [msg ->]. left. reflexivity. }
  rewrite (joinRoom_on_store uid room pw s Hpw Heq). cbv zeta.
  destruct (filter (Db.is_membership (Room.id room) uid) (Db.room_users s))
    as [|m [|m' l]]; try (left; reflexivity).
  all: destruct (Room.max_users room <=? Db.member_count (Room.id room) s) eqn:E;
    [left; reflexivity|];
    destruct (existsb _ _); [left; reflexivity|];
    destruct (negb _); [left; reflexivity|];
    right; apply Z.leb_gt in E; split; [exact E|];
    unfold final, Db.member_count; cbn [fst snd Db.room_users];
    rewrite filter_app, length_app; simpl;
    unfold Db.in_room; simpl; rewrite String.eqb_refl; simpl; lia.
Qed.

(** Joins served one after the other keep a room within its limit: when
    the room has at most [max_users] members, it has at most [max_users]
    members after any sequence of join attempts, by any users with any
    passwords, made from the same catalog entry. *)
Theorem joins_one_by_one_keep_capacity (room : Room.t)
  (attempts : list (string * string)) (s : Db.Store)
  (Hcap : Db.member_count (Room.id room) s <= Room.max_users room) :
  Db.member_count (Room.id room)
    (one_by_one Db.handle
       (map (fun a => RoomList.joinRoom (fst a) (Some room) (snd a)) attempts) s)
  <= Room.max_users room.
Proof.
  revert s Hcap. induction attempts as [|[uid pw] rest IH]; intros s Hcap.
  - exact Hcap.
  - cbn [map one_by_one fold_left fst snd]. apply IH.
    destruct (member_count_after_join uid room pw s) as [E|[Hlt E]];
      cbv zeta in E; rewrite E; lia.
Qed.

Lemma joins_one_by_one_keep_capacity_witness :
  Db.member_count "r1" Sample.fresh <= Room.max_users Sample.lobby /\
  Db.member_count "r1"
    (one_by_one Db.handle
       (map (fun a => RoomList.joinRoom (fst a) (Some Sample.lobby) (snd a))
            [("ub", "p"); ("uc", "p"); ("ud", "p"); ("ue", "wrong")])
       Sample.fresh) <= Room.max_users Sample.lobby.
Proof.
  assert (H0 : Db.member_count (Room.id Sample.lobby) Sample.fresh <=
               Room.max_users Sample.lobby) by (cbv; discriminate).
  split; [exact H0|].
  exact (joins_one_by_one_keep_capacity Sample.lobby
           [("ub", "p"); ("uc", "p"); ("ud", "p"); ("ue", "wrong")]
           Sample.fresh H0).
Defined.

Lemma in_room_length_snoc (rid uid : string) (t : Z) (l : list RoomUser.t) :
  List.length (filter (Db.in_room rid) (l ++ [RoomUser.mk rid uid t])) =
  S (List.length (filter (Db.in_room rid) l)).
Proof.
  rewrite filter_app, length_app. simpl.
  unfold Db.in_room at 2. simpl. rewrite String.eqb_refl. simpl. lia.
Qed.

(** Two joins whose requests interleave can overfill a room: when one
    place is left and two users who are not members join with the correct
    password, each count is made before the insert of the other, both
    pass, and the room ends with one member more than [max_users].  The
    same two joins served one after the other fill the room exactly. *)
Theorem two_joins_can_overfill (room : Room.t) (a b pw : string) (s : Db.Store)
  (Hab : a <> b)
  (Hpw : Js.trim pw <> "") (Heq : pw = Room.password_hash room)
  (Hroom : existsb (Db.has_id (Room.id room)) (Db.rooms s) = true)
  (Ha : Db.membership_rows (Room.id room) a s = 0%nat)
  (Hb : Db.membership_rows (Room.id room) b s = 0%nat)
  (Hone : Db.member_count (Room.id room) s + 1 = Room.max_users room) :
  let ja := RoomList.joinRoom a (Some room) pw in
  let jb := RoomList.joinRoom b (Some room) pw in
  Db.member_count (Room.id room)
    (Clients.interleave Db.handle [true; false; true; false] ja jb s) =
    Room.max_users room + 1 /\
  Db.member_count (Room.id room) (Clients.interleave Db.handle [] ja jb s) =
    Room.max_users room.
Proof.
  intros ja jb.
  pose proof (membership_filter_none _ _ _ Ha) as Na.
  pose proof (membership_filter_none _ _ _ Hb) as Nb.
  assert (Hfree : (Room.max_users room <=? Db.member_count (Room.id room) s) = false).
  { apply Z.leb_gt. lia. }
  assert (Hb' : existsb (Db.is_membership (Room.id room) b)
                  (Db.room_users s ++ [RoomUser.mk (Room.id room) a (Db.clock s)])
                = false).
  { rewrite existsb_app, (filter_nil_existsb _ _ Nb). simpl.
    unfold Db.is_membership. simpl. rewrite String.eqb_refl. simpl.
    apply String.eqb_neq in Hab. rewrite Hab. reflexivity. }
  split.
  - subst ja jb pw. unfold RoomList.joinRoom. rewrite blank_test.
    destruct (Js.all_white_space (Room.password_hash room)) eqn:E;
      [exfalso; apply Hpw, trim_empty_iff, E|].
    rewrite String.eqb_refl. cbn [negb try_catch].
    cbn [Clients.interleave Clients.turn Db.handle]. rewrite Na, Nb.
    cbn [Db.failed Db.ok data error count RoomList.throw_unless_no_rows
         code String.eqb Ascii.eqb Bool.eqb negb bind try_catch
         Clients.interleave Clients.turn Db.handle throw_if_error
         RoomList.room_is_full].
    fold (Db.member_count (Room.id room) s). rewrite Hfree.
    cbn [bind try_catch run Db.handle final fst snd].
    rewrite (filter_nil_existsb _ _ Na), Hroom. cbn [negb].
    cbn [bind try_catch run Db.handle final fst snd throw_if_error Db.ok error
         Db.room_users Db.rooms Db.clock].
    rewrite Hb', Hroom. cbn [negb].
    cbn [bind try_catch run Db.handle final fst snd throw_if_error Db.ok error].
    unfold Db.member_count in *. cbn [Db.room_users].
    rewrite !in_room_length_snoc. lia.
  - subst ja jb. cbn [Clients.interleave].
    rewrite (joinRoom_on_store a room pw s Hpw Heq). cbv zeta.
    rewrite Na, Hfree, (filter_nil_existsb _ _ Na), Hroom. cbn [negb].
    unfold final at 2. cbn [fst snd].
    rewrite (joinRoom_on_store b room pw _ Hpw Heq). cbv zeta.
    cbn [Db.room_users Db.rooms].
    assert (Nb' : filter (Db.is_membership (Room.id room) b)
                    (Db.room_users s ++ [RoomUser.mk (Room.id room) a (Db.clock s)])
                  = []).
    { apply existsb_false_filter, Hb'. }
    rewrite Nb'.
    assert (Hfull : (Room.max_users room <=?
              Db.member_count (Room.id room)
                (Db.mkStore (Db.rooms s)
                   (Db.room_users s ++ [RoomUser.mk (Room.id room) a (Db.clock s)])
                   (Db.messages s) (Db.auth_user s) (Db.clock s + 1)
                   (Db.uuid_seed s))) = true).
    { apply Z.leb_le. unfold Db.member_count in *. cbn [Db.room_users].
      rewrite in_room_length_snoc. lia. }
    rewrite Hfull. unfold final. cbn [fst snd].
    unfold Db.member_count in *. cbn [Db.room_users].
    rewrite in_room_length_snoc. lia.
Qed.

Lemma two_joins_can_overfill_witness :
  let ja := RoomList.joinRoom "ub" (Some Sample.den) "d" in
  let jb := RoomList.joinRoom "uc" (Some Sample.den) "d" in
  Room.max_users Sample.den = 1 /\
  Db.member_count "r3"
    (Clients.interleave Db.handle [true; false; true; false] ja jb Sample.fresh) = 2 /\
  Db.member_count "r3" (Clients.interleave Db.handle [] ja jb Sample.fresh) = 1.
Proof.
  split; [reflexivity|].
  apply (two_joins_can_overfill Sample.den "ub" "uc" "d" Sample.fresh);
    try reflexivity; cbv; discriminate.
Defined.

(** ** Joining from a catalog entry that is out of date *)

Lemma no_membership_after_delete (rid uid : string) (l : list RoomUser.t) :
  filter (Db.is_membership rid uid)
         (filter (fun m => negb (Db.in_room rid m)) l) = [].
Proof.
  induction l as [|m l IH]; simpl; [reflexivity|].
  destruct (Db.in_room rid m) eqn:E; simpl; [exact IH|].
  unfold Db.is_membership. unfold Db.in_room in E. rewrite E. simpl. exact IH.
Qed.

Lemma no_member_after_delete (rid : string) (l : list RoomUser.t) :
  filter (Db.in_room rid) (filter (fun m => negb (Db.in_room rid m)) l) = [].
Proof.
  induction l as [|m l IH]; simpl; [reflexivity|].
  destruct (Db.in_room rid m) eqn:E; simpl; [exact IH|].
  rewrite E. exact IH.
Qed.

Lemma no_room_after_delete (rid : string) (l : list Room.t) :
  existsb (Db.has_id rid) (filter (fun r => negb (Db.has_id rid r)) l) = false.
Proof.
  induction l as [|r l IH]; simpl; [reflexivity|].
  destruct (Db.has_id rid r) eqn:E; simpl; [exact IH|].
  rewrite E. exact IH.
Qed.

(** A join made from the catalog entry of a room that was deleted in the
    meantime changes nothing, whoever joins with whatever password: no
    membership of a room that is gone can appear, the room is not
    selected and no success is announced.  With the correct password and
    a limit above zero the join gets as far as the insert, which the
    foreign key of the membership table turns down; the refusal is a
    plain object, which the [catch] clause does not show, so the handler
    ends without any message and the dialog stays open. *)
Theorem join_after_delete_changes_nothing (room : Room.t) (uid pw : string)
  (s : Db.Store) :
  let rid := Room.id room in
  let gone := final (run Db.handle (RoomSettings.handleDeleteRoom room) s) in
  let j := run Db.handle (RoomList.joinRoom uid (Some room) pw) gone in
  final j = gone /\
  ~ In (onRoomSelect rid) (ui_actions (trace j)) /\
  (forall msg, ~ In (toast_success msg) (ui_actions (trace j))) /\
  (Js.trim pw <> "" -> pw = Room.password_hash room -> 0 < Room.max_users room ->
   trace j = [EvCall (room_users_select_single rid uid);
              EvCall (room_users_select_count rid);
              EvCall (room_users_insert rid uid)]).
Proof.
  intros rid gone j. subst rid.
  assert (Hg : Db.room_users gone =
               filter (fun m => negb (Db.in_room (Room.id room) m)) (Db.room_users s) /\
               Db.rooms gone =
               filter (fun r => negb (Db.has_id (Room.id room) r)) (Db.rooms s)).
  { subst gone. rewrite handleDeleteRoom_run. split; reflexivity. }
  destruct Hg as [Hu Hr]. clearbody gone.
  destruct (password_cases room pw) as [Hbad|[Hpw Heq]].
  { subst j. destruct (joinRoom_rejected uid room pw Hbad) as [msg E].
    rewrite E. simpl.
    split; [reflexivity|]. split; [intros [H|[]]; discriminate|].
    split; [intros m [H|[]]; discriminate|].
    intros Hpw Heq _. exfalso. destruct Hbad; contradiction. }
  pose proof (joinRoom_on_store uid room pw gone Hpw Heq) as Hj.
  cbv zeta in Hj. fold j in Hj. unfold Db.member_count in Hj.
  rewrite Hu, Hr, no_membership_after_delete in Hj.
  rewrite (filter_nil_existsb _ _ (no_membership_after_delete _ _ _)) in Hj.
  rewrite no_room_after_delete, no_member_after_delete in Hj.
  cbn [negb List.length Z.of_nat] in Hj.
  destruct (Room.max_users room <=? 0) eqn:Hm; rewrite Hj; simpl;
    (split; [reflexivity|]).
  - split; [intros [H|[H|[H|[]]]]; discriminate|].
    split; [intros m [H|[H|[H|[]]]]; discriminate|].
    intros _ _ Hpos. apply Z.leb_le in Hm. lia.
  - split; [intros []|]. split; [intros m []|]. intros _ _ _. reflexivity.
Qed.

Lemma join_after_delete_changes_nothing_witness :
  let gone := final (run Db.handle (RoomSettings.handleDeleteRoom Sample.lobby)
                       Sample.crowded) in
  let j := run Db.handle (RoomList.joinRoom "ud" (Some Sample.lobby) "p") gone in
  0 < Room.max_users Sample.lobby /\
  ui_actions (trace j) = [] /\
  calls (trace j) = [room_users_select_single "r1" "ud";
                     room_users_select_count "r1";
                     room_users_insert "r1" "ud"].
Proof.
  cbv zeta.
  assert (Hpos : 0 < Room.max_users Sample.lobby) by (cbv; reflexivity).
  assert (Hpw : Js.trim "p" <> "") by (cbv; discriminate).
  pose proof (proj2 (proj2 (proj2
    (join_after_delete_changes_nothing Sample.lobby "ud" "p" Sample.crowded)))
    Hpw eq_refl Hpos) as H.
  split; [exact Hpos|]. rewrite H. split; reflexivity.
Defined.

Lemma update_keeps_ids (u : Room.partial) (rid rid' : string) (l : list Room.t) :
  Room.p_id u = None ->
  existsb (Db.has_id rid) (Db.update_rooms u rid' l) = existsb (Db.has_id rid) l.
Proof.
  intros Hid. induction l as [|r l IH]; simpl; [reflexivity|].
  rewrite IH. f_equal.
  destruct (String.eqb (Room.id r) rid'); [|reflexivity].
  unfold Db.has_id, Db.apply_updates. simpl. rewrite Hid. reflexivity.
Qed.

Lemma handleUpdateSettings_store (room : Room.t) (newPassword : string)
  (maxUsers : Z) (s : Db.Store) :
  let s' := final (run Db.handle
                     (RoomSettings.handleUpdateSettings room newPassword maxUsers) s) in
  s' = s \/
  s' = Db.set_rooms s
         (Db.update_rooms (RoomSettings.updates newPassword maxUsers)
            (Room.id room) (Db.rooms s)).
Proof.
  cbv zeta. unfold RoomSettings.handleUpdateSettings.
  cbn [run finally try_catch bind Db.handle].
  rewrite update_where_plain by reflexivity.
  destruct (forallb _ _); cbn; [right|left]; reflexivity.
Qed.

(** A change of the settings does not reach a client that still holds the
    old catalog entry: a join made from that entry proceeds exactly as
    before the change, with the old password and the old limit, until the
    list is fetched again. *)
Theorem join_ignores_settings_update (changed : Room.t) (newPassword : string)
  (maxUsers : Z) (room : Room.t) (uid pw : string) (s : Db.Store) :
  let s' := final (run Db.handle
                     (RoomSettings.handleUpdateSettings changed newPassword maxUsers)
                     s) in
  let j := RoomList.joinRoom uid (Some room) pw in
  outcome (run Db.handle j s') = outcome (run Db.handle j s) /\
  trace (run Db.handle j s') = trace (run Db.handle j s) /\
  Db.room_users (final (run Db.handle j s')) =
  Db.room_users (final (run Db.handle j s)).
Proof.
  cbv zeta.
  destruct (handleUpdateSettings_store changed newPassword maxUsers s) as [E|E];
    cbv zeta in E; rewrite E; [repeat split|].
  destruct (password_cases room pw) as [Hbad|[Hpw Heq]].
  { destruct (joinRoom_rejected uid room pw Hbad) as [msg ->]. repeat split. }
  rewrite !(joinRoom_on_store uid room pw _ Hpw Heq). cbv zeta.
  unfold Db.member_count. cbn [Db.set_rooms Db.room_users Db.rooms].
  rewrite update_keeps_ids by reflexivity.
  destruct (filter (Db.is_membership (Room.id room) uid) (Db.room_users s))
    as [|m [|m' l]]; [|repeat split|].
  all: destruct (Room.max_users room <=? _); [repeat split|];
    destruct (existsb (Db.is_membership _ _) _); [repeat split|];
    destruct (negb _); repeat split.
Qed.

Lemma join_ignores_settings_update_witness :
  let s' := final (run Db.handle
                     (RoomSettings.handleUpdateSettings Sample.lobby "new" 1)
                     Sample.fresh) in
  map Room.password_hash (Db.rooms s') = ["new"; " "; "d"; "a"] /\
  Db.room_users
    (final (run Db.handle (RoomList.joinRoom "ub" (Some Sample.lobby) "p") s')) =
  [RoomUser.mk "r1" "ub" 10].
Proof.
  cbv zeta. split; [reflexivity|].
  pose proof (join_ignores_settings_update Sample.lobby "new" 1 Sample.lobby
                "ub" "p" Sample.fresh) as (_ & _ & H).
  rewrite H. reflexivity.
Defined.

(** ** Creating a room, and its creator *)

Lemma check_max_users_iff (n : Z) :
  Db.check_max_users n = true <-> 1 <= n <= 100.
Proof. unfold Db.check_max_users. lia. Qed.

Lemma createRoom_on_store (newRoomName newRoomPassword : string) (maxUsers : Z)
  (s : Db.Store) (user : User.t) :
  Js.trim newRoomPassword <> "" -> Db.auth_user s = Some user ->
  1 <= maxUsers <= 100 ->
  Db.name_taken newRoomName (Db.rooms s) = false -> Db.id_free s ->
  let row := Room.mk (Db.gen_random_uuid (Db.uuid_seed s)) newRoomName
                     (User.email user) (Db.clock s) newRoomPassword maxUsers
                     (User.id user) in
  run Db.handle (RoomList.createRoom newRoomName newRoomPassword maxUsers) s =
  (inr tt,
   Db.mkStore (Db.rooms s ++ [row]) (Db.room_users s) (Db.messages s)
              (Db.auth_user s) (Db.clock s + 1) (Db.uuid_seed s + 1)%N,
   [EvCall auth_getUser;
    EvCall (rooms_insert_single newRoomName newRoomPassword maxUsers
              (User.id user) (User.email user));
    EvUi (setShowCreateModal false); EvUi (setNewRoomName "");
    EvUi (setNewRoomPassword ""); EvUi (setMaxUsers 10);
    EvUi (onRoomSelect (Room.id row));
    EvUi (toast_success "Room created successfully!")]).
Proof.
  intros Hpw Hu Hin Hname Hid row. apply check_max_users_iff in Hin.
  unfold Db.id_free in Hid.
  unfold RoomList.createRoom. rewrite blank_test.
  destruct (Js.all_white_space newRoomPassword) eqn:Hws.
  - exfalso. apply Hpw, trim_empty_iff, Hws.
  - cbn [try_catch run Db.handle]. rewrite Hu.
    cbn [try_catch run Db.handle Room.id]. rewrite Hin, Hid, Hname.
    simpl. rewrite ?Hu. reflexivity.
Qed.

(** [createRoom] asks for the user and inserts the room, nothing else,
    whatever the backend answers: it creates no membership.  On the
    store the membership table is what it was, so the room it has just
    selected for its creator counts no member. *)
Theorem createRoom_creates_no_membership (newRoomName newRoomPassword : string)
  (maxUsers : Z) :
  let c := RoomList.createRoom newRoomName newRoomPassword maxUsers in
  all_calls (fun o => touches_room_users o = false) c /\
  (forall (S : Type) (h : Backend S) (s : S),
     Forall (fun o => touches_room_users o = false) (calls (trace (run h c s)))) /\
  forall (s : Db.Store) (rid : string),
    Db.room_users (final (run Db.handle c s)) = Db.room_users s /\
    Db.member_count rid (final (run Db.handle c s)) = Db.member_count rid s.
Proof.
  intros c.
  assert (H : all_calls (fun o => touches_room_users o = false) c).
  { subst c. unfold RoomList.createRoom. repeat all_calls_step; reflexivity. }
  split; [exact H|]. split; [intros S h s; apply all_calls_run, H|].
  intros s rid.
  assert (Hu : Db.room_users (final (run Db.handle c s)) = Db.room_users s).
  { subst c. unfold RoomList.createRoom.
    destruct (negb (Js.truthy (Js.trim newRoomPassword))); [reflexivity|].
    cbn [try_catch run Db.handle].
    destruct (Db.auth_user s) as [user|]; [|reflexivity].
    cbn [try_catch run Db.handle].
    destruct (Db.check_max_users maxUsers); [|reflexivity]. cbn [negb].
    destruct (existsb _ (Db.rooms s)); [reflexivity|].
    destruct (Db.name_taken _ _); reflexivity. }
  split; [exact Hu|]. unfold Db.member_count. rewrite Hu. reflexivity.
Qed.

Lemma no_member_no_membership (rid uid : string) (s : Db.Store) :
  Db.member_count rid s = 0 ->
  filter (Db.is_membership rid uid) (Db.room_users s) = [].
Proof.
  unfold Db.member_count. intros H.
  assert (Hn : filter (Db.in_room rid) (Db.room_users s) = []).
  { apply length_zero_iff_nil. lia. }
  induction (Db.room_users s) as [|m l IH]; simpl in *; [reflexivity|].
  unfold Db.is_membership. fold (Db.in_room rid m).
  destruct (Db.in_room rid m); [discriminate|]. simpl. apply IH.
  - rewrite Hn. reflexivity.
  - exact Hn.
Qed.

(** The creator of a room enters it through [joinRoom] like anyone else:
    with the password of the room, and taking one of its places.  In a
    room created for one member the creator's join fills it, and every
    other user is told that the room is full.  The room is one that the
    store accepts: its name is not in use, nor is the id it is given. *)
Theorem creator_joins_like_anyone (newRoomName newRoomPassword : string)
  (maxUsers : Z) (s : Db.Store) (user : User.t) (other : string)
  (Hpw : Js.trim newRoomPassword <> "")
  (Hu : Db.auth_user s = Some user)
  (Hin : 1 <= maxUsers <= 100)
  (Hname : Db.name_taken newRoomName (Db.rooms s) = false)
  (Hid : Db.id_free s)
  (Hfresh : Db.member_count (Db.gen_random_uuid (Db.uuid_seed s)) s = 0)
  (Hother : other <> User.id user) :
  let row := Room.mk (Db.gen_random_uuid (Db.uuid_seed s)) newRoomName
                     (User.email user) (Db.clock s) newRoomPassword maxUsers
                     (User.id user) in
  let created := final (run Db.handle
                          (RoomList.createRoom newRoomName newRoomPassword maxUsers) s) in
  let joined := final (run Db.handle
                         (RoomList.joinRoom (User.id user) (Some row) newRoomPassword)
                         created) in
  Db.membership_rows (Room.id row) (User.id user) created = 0%nat /\
  Db.membership_rows (Room.id row) (User.id user) joined = 1%nat /\
  Db.member_count (Room.id row) joined = 1 /\
  (maxUsers = 1 ->
   ui_actions (trace (run Db.handle
                        (RoomList.joinRoom other (Some row) newRoomPassword) joined)) =
     [toast_error "Room is full. Please try another room.";
      setShowJoinModal false; setJoinPassword ""]).
Proof.
  intros row created joined.
  assert (Hc : created =
               Db.mkStore (Db.rooms s ++ [row]) (Db.room_users s) (Db.messages s)
                 (Db.auth_user s) (Db.clock s + 1) (Db.uuid_seed s + 1)%N).
  { subst created.
    rewrite (createRoom_on_store _ _ _ s user Hpw Hu Hin Hname Hid).
    reflexivity. }
  assert (Hnone : forall uid,
            filter (Db.is_membership (Room.id row) uid) (Db.room_users created) = []).
  { intros uid. rewrite Hc. cbn [Db.room_users].
    apply (no_member_no_membership (Room.id row) uid s). exact Hfresh. }
  assert (Hcount : Db.member_count (Room.id row) created = 0).
  { rewrite Hc. exact Hfresh. }
  assert (Hex : existsb (Db.has_id (Room.id row)) (Db.rooms created) = true).
  { rewrite Hc. cbn [Db.rooms]. rewrite existsb_app. simpl.
    unfold Db.has_id at 2. simpl. rewrite String.eqb_refl.
    rewrite orb_true_r. reflexivity. }
  assert (Hj : joined =
               Db.mkStore (Db.rooms created)
                 (Db.room_users created ++
                  [RoomUser.mk (Room.id row) (User.id user) (Db.clock created)])
                 (Db.messages created) (Db.auth_user created)
                 (Db.clock created + 1) (Db.uuid_seed created)).
  { subst joined.
    rewrite (joinRoom_on_store (User.id user) row newRoomPassword created Hpw
               eq_refl).
    cbv zeta. rewrite (Hnone (User.id user)), Hcount.
    rewrite (filter_nil_existsb _ _ (Hnone (User.id user))), Hex.
    replace (Room.max_users row <=? 0) with false
      by (symmetry; apply Z.leb_gt; simpl; lia).
    reflexivity. }
  assert (Hcount' : Db.member_count (Room.id row) joined = 1).
  { rewrite Hj. unfold Db.member_count in *. cbn [Db.room_users].
    rewrite in_room_length_snoc. lia. }
  split; [unfold Db.membership_rows; rewrite Hnone; reflexivity|].
  split.
  { rewrite Hj. unfold Db.membership_rows. cbn [Db.room_users].
    rewrite filter_app, Hnone. simpl.
    unfold Db.is_membership. simpl. rewrite !String.eqb_refl. reflexivity. }
  split; [exact Hcount'|].
  intros H1.
  rewrite (joinRoom_on_store other row newRoomPassword joined Hpw eq_refl).
  cbv zeta. rewrite Hcount'.
  assert (Hno : filter (Db.is_membership (Room.id row) other) (Db.room_users joined)
                = []).
  { rewrite Hj. cbn [Db.room_users]. rewrite filter_app, Hnone. simpl.
    unfold Db.is_membership. simpl. rewrite String.eqb_refl. simpl.
    apply String.eqb_neq in Hother. rewrite String.eqb_sym, Hother. reflexivity. }
  rewrite Hno. subst row. cbn [Room.max_users]. subst maxUsers. reflexivity.
Qed.

Lemma creator_joins_like_anyone_witness :
  let created := final (run Db.handle (RoomList.createRoom "Nook" "n" 1) Sample.fresh) in
  let row := Room.mk "room-5" "Nook" "bob@example.org" 10 "n" 1 "ub" in
  let joined := final (run Db.handle (RoomList.joinRoom "ub" (Some row) "n") created) in
  Db.member_count "room-5" created = 0 /\
  Db.member_count "room-5" joined = 1 /\
  ui_actions (trace (run Db.handle (RoomList.joinRoom "uc" (Some row) "n") joined)) =
    [toast_error "Room is full. Please try another room.";
     setShowJoinModal false; setJoinPassword ""].
Proof.
  cbv zeta. split; [reflexivity|].
  pose proof (creator_joins_like_anyone "Nook" "n" 1 Sample.fresh Sample.bob "uc")
    as H.
  cbv zeta in H. destruct H as (_ & _ & H3 & H4).
  - cbv. discriminate.
  - reflexivity.
  - lia.
  - reflexivity.
  - reflexivity.
  - reflexivity.
  - cbv. discriminate.
  - split; [exact H3|]. apply H4. reflexivity.
Defined.

(** ** The unique name of a room *)

Lemma name_taken_app (n : string) (l1 l2 : list Room.t) :
  Db.name_taken n (l1 ++ l2) = Db.name_taken n l1 || Db.name_taken n l2.
Proof. apply existsb_app. Qed.

Lemma unique_names_snoc (l : list Room.t) (r : Room.t) :
  Db.unique_names l = true ->
  Db.name_taken (Room.name r) l = false ->
  Db.unique_names (l ++ [r]) = true.
Proof.
  induction l as [|x l IH]; simpl; intros Hu Hn; [reflexivity|].
  apply andb_true_iff in Hu as [Hx Hu]. apply orb_false_iff in Hn as [Hxr Hn].
  rewrite (IH Hu Hn), andb_true_r, name_taken_app. simpl.
  rewrite orb_false_r. apply negb_true_iff in Hx. rewrite Hx. simpl.
  rewrite String.eqb_sym, Hxr. reflexivity.
Qed.

Lemma name_taken_filter (n : string) (f : Room.t -> bool) (l : list Room.t) :
  Db.name_taken n l = false -> Db.name_taken n (filter f l) = false.
Proof.
  induction l as [|x l IH]; simpl; [reflexivity|].
  intros H. apply orb_false_iff in H as [Hx Hl].
  destruct (f x); simpl; [rewrite Hx|]; auto.
Qed.

Lemma unique_names_filter (f : Room.t -> bool) (l : list Room.t) :
  Db.unique_names l = true -> Db.unique_names (filter f l) = true.
Proof.
  induction l as [|x l IH]; simpl; [reflexivity|].
  intros H. apply andb_true_iff in H as [Hx Hl].
  destruct (f x); simpl; [|auto].
  rewrite (IH Hl), andb_true_r. apply negb_true_iff.
  apply name_taken_filter. apply negb_true_iff, Hx.
Qed.

Lemma update_rooms_names (u : Room.partial) (rid : string) (l : list Room.t) :
  Room.p_name u = None ->
  map Room.name (Db.update_rooms u rid l) = map Room.name l.
Proof.
  intros Hn. unfold Db.update_rooms. rewrite map_map. apply map_ext.
  intros r. destruct (String.eqb (Room.id r) rid); [|reflexivity].
  unfold Db.apply_updates. simpl. rewrite Hn. reflexivity.
Qed.

Lemma unique_names_by_names (l1 l2 : list Room.t) :
  map Room.name l1 = map Room.name l2 ->
  Db.unique_names l1 = Db.unique_names l2.
Proof.
  revert l2. induction l1 as [|x l1 IH]; intros [|y l2] H; try discriminate;
    [reflexivity|].
  simpl in H. injection H as Hxy Hl. simpl. rewrite (IH l2 Hl), Hxy. f_equal. f_equal.
  unfold Db.name_taken. clear IH. revert l2 Hl.
  induction l1 as [|a l1 IH]; intros [|b l2] Hl; try discriminate; [reflexivity|].
  simpl in Hl. injection Hl as Hab Hl. simpl. rewrite Hab, (IH l2 Hl). reflexivity.
Qed.

Lemma handle_names (o : Op) (s : Db.Store) :
  Db.names_unique s -> Db.names_unique (snd (Db.handle o s)).
Proof.
  unfold Db.names_unique. intros Hs.
  destruct o; cbn [Db.handle resp]; try exact Hs.
  - destruct (Db.check_max_users max_users); cbn [negb]; [|exact Hs].
    destruct (existsb _ (Db.rooms s)); [exact Hs|].
    destruct (Db.name_taken name (Db.rooms s)) eqn:Hn; [exact Hs|].
    cbn [snd Db.rooms]. apply unique_names_snoc; assumption.
  - unfold Db.update_where.
    destruct (negb (forallb _ _)); [exact Hs|].
    destruct (Db.is_some (Room.p_id updates) && _); [exact Hs|].
    destruct (Room.p_name updates) as [n|] eqn:Hn; cbn [Db.is_some andb].
    + destruct (Db.unique_names (map _ _)) eqn:Hq; cbn [negb]; [|exact Hs].
      destruct (existsb _ _); [exact Hs|exact Hq].
    + destruct (existsb _ _); [exact Hs|]. cbn [snd Db.set_rooms Db.rooms].
      rewrite (unique_names_by_names _ (Db.rooms s)); [exact Hs|].
      apply (update_rooms_names updates id), Hn.
  - cbn [snd Db.rooms]. apply unique_names_filter, Hs.
  - destruct (filter _ _) as [|m [|m' l]]; exact Hs.
  - destruct (existsb _ _); [exact Hs|]. destruct (negb _); exact Hs.
Qed.

(** The name of a room is unique in the store.  [createRoom] does not
    look for the name: it sends the insert, and the store turns down a
    name that is taken.  The refusal is a plain object, which the
    [catch] clause does not show: the handler ends without any message,
    the form stays as it is, no room is selected and the store is what
    it was.  No program can leave two rooms of one name. *)
Theorem createRoom_name_is_unique (newRoomName newRoomPassword : string)
  (maxUsers : Z) (s : Db.Store) (user : User.t)
  (Hpw : Js.trim newRoomPassword <> "")
  (Hu : Db.auth_user s = Some user)
  (Hin : 1 <= maxUsers <= 100)
  (Hid : Db.id_free s)
  (Htaken : Db.name_taken newRoomName (Db.rooms s) = true) :
  run Db.handle (RoomList.createRoom newRoomName newRoomPassword maxUsers) s =
    (inr tt, s,
     [EvCall auth_getUser;
      EvCall (rooms_insert_single newRoomName newRoomPassword maxUsers
                (User.id user) (User.email user))]) /\
  (forall (R : Type) (p : Prog R),
     Db.names_unique s -> Db.names_unique (final (run Db.handle p s))).
Proof.
  apply check_max_users_iff in Hin. unfold Db.id_free in Hid. split.
  - unfold RoomList.createRoom. rewrite blank_test.
    destruct (Js.all_white_space newRoomPassword) eqn:Hws;
      [exfalso; apply Hpw, trim_empty_iff, Hws|].
    cbn [try_catch run Db.handle]. rewrite Hu.
    cbn [try_catch run Db.handle Room.id]. rewrite Hin, Hid, Htaken.
    reflexivity.
  - intros R p. apply run_invariant. exact handle_names.
Qed.

Lemma createRoom_name_is_unique_witness :
  Db.name_taken "Lobby" (Db.rooms Sample.fresh) = true /\
  run Db.handle (RoomList.createRoom "Lobby" "pw" 5) Sample.fresh =
    (inr tt, Sample.fresh,
     [EvCall auth_getUser;
      EvCall (rooms_insert_single "Lobby" "pw" 5 "ub" "bob@example.org")]) /\
  Db.names_unique
    (final (run Db.handle (RoomList.createRoom "Porch" "pw" 5) Sample.fresh)).
Proof.
  pose proof (createRoom_name_is_unique "Lobby" "pw" 5 Sample.fresh Sample.bob) as H.
  destruct H as (H & H');
    [cbv; discriminate|reflexivity|lia|reflexivity|reflexivity|].
  split; [reflexivity|]. split; [exact H|]. apply H'. reflexivity.
Defined.

(** ** Failures of the backend *)

(** When the catalog query fails, [fetchRooms] shows the toast and leaves
    the list on screen as it is, also when the response carries rows;
    a response with neither error nor rows empties the list.  In every
    case the query is the only request. *)
Theorem fetchRooms_on_failure {S : Type} (h : Backend S) (s : S) (uid : string) :
  let r := fst (h rooms_select_order_desc s) in
  let f := run h (RoomList.fetchRooms uid) s in
  calls (trace f) = [rooms_select_order_desc] /\
  (error r <> None ->
   ui_actions (trace f) = [toast_error "Failed to fetch rooms"]) /\
  (error r = None -> data r = None ->
   ui_actions (trace f) = [setRooms []; setFilteredRooms []]).
Proof.
  cbv zeta. unfold RoomList.fetchRooms. trace_steps.
  destruct (h rooms_select_order_desc s) as [[d c e] s1]. cbn [fst snd error data].
  destruct e as [err|]; trace_steps; simpl.
  - split; [reflexivity|]. split; [intros _; reflexivity|intros H; discriminate].
  - split; [reflexivity|]. split; [intros H; contradiction|].
    intros _ ->. reflexivity.
Qed.

(** [handleDeleteRoom] does not look at the answers to its three deletes:
    whatever the backend answers, refusals included, it announces that
    the room was deleted, calls [onRoomDeleted] and releases the busy
    flag. *)
Theorem handleDeleteRoom_always_reports_success {S : Type} (h : Backend S)
  (s : S) (room : Room.t) :
  let d := run h (RoomSettings.handleDeleteRoom room) s in
  outcome d = inr tt /\
  ui_actions (trace d) =
    [setIsDeleting true; toast_success "Room deleted successfully";
     onRoomDeleted; setIsDeleting false].
Proof.
  cbv zeta. unfold RoomSettings.handleDeleteRoom.
  cbn [run finally try_catch bind].
  destruct (h (messages_delete_eq_room_id (Room.id room)) s) as [x1 s1].
  cbn [run finally try_catch bind].
  destruct (h (room_users_delete_eq_room_id (Room.id room)) s1) as [x2 s2].
  cbn [run finally try_catch bind].
  destruct (h (rooms_delete_eq_id (Room.id room)) s2) as [x3 s3].
  split; reflexivity.
Qed.

(** [handleUpdateSettings] sets the busy flag first and releases it last
    on every path; it announces success and closes the dialog exactly
    when the update came back without error, and shows at most the
    message of the error otherwise. *)
Theorem handleUpdateSettings_outcomes {S : Type} (h : Backend S) (s : S)
  (room : Room.t) (newPassword : string) (maxUsers : Z) :
  let u := run h (RoomSettings.handleUpdateSettings room newPassword maxUsers) s in
  let r := fst (h (rooms_update_eq_id (RoomSettings.updates newPassword maxUsers)
                     (Room.id room)) s) in
  outcome u = inr tt /\
  (error r = None ->
   ui_actions (trace u) =
     [setIsUpdating true; toast_success "Room settings updated successfully";
      onClose; setIsUpdating false]) /\
  (forall e, error r = Some e ->
   ui_actions (trace u) =
     if is_Error e
     then [setIsUpdating true; toast_error (message e); setIsUpdating false]
     else [setIsUpdating true; setIsUpdating false]).
Proof.
  cbv zeta. unfold RoomSettings.handleUpdateSettings.
  cbn [run finally try_catch bind].
  destruct (h _ s) as [[d c e] s1]. cbn [fst snd error].
  destruct e as [[cd m ie]|]; cbn [throw_if_error bind try_catch finally catch_toast].
  - destruct ie; simpl; (split; [reflexivity|]);
      (split; [intros H; discriminate|]); intros e H; injection H as <-; reflexivity.
  - simpl. split; [reflexivity|]. split; [reflexivity|]. intros e H. discriminate.
Qed.

Lemma handleUpdateSettings_outcomes_witness :
  ui_actions (trace (run Db.handle
                       (RoomSettings.handleUpdateSettings Sample.lobby "" 0)
                       Sample.fresh)) =
    [setIsUpdating true; setIsUpdating false] /\
  ui_actions (trace (run Db.handle
                       (RoomSettings.handleUpdateSettings Sample.lobby "" 3)
                       Sample.fresh)) =
    [setIsUpdating true; toast_success "Room settings updated successfully";
     onClose; setIsUpdating false].
Proof.
  pose proof (handleUpdateSettings_outcomes Db.handle Sample.fresh Sample.lobby "" 0)
    as (_ & _ & H).
  pose proof (handleUpdateSettings_outcomes Db.handle Sample.fresh Sample.lobby "" 3)
    as (_ & H' & _).
  split.
  - rewrite (H (mkError "23514" "violates check constraint rooms_max_users_check" false));
      reflexivity.
  - apply H'. reflexivity.
Defined.

(** ** A blank credential locks the room *)

Lemma update_sets_password (newPassword : string) (maxUsers : Z) (rid : string)
  (l : list Room.t) (r : Room.t) :
  newPassword <> "" ->
  In r (Db.update_rooms (RoomSettings.updates newPassword maxUsers) rid l) ->
  Room.id r = rid -> Room.password_hash r = newPassword.
Proof.
  intros Hne Hin Hid. unfold Db.update_rooms in Hin.
  apply in_map_iff in Hin as [r0 [Hr _]].
  assert (Ht : Js.truthy newPassword = true).
  { unfold Js.truthy. apply negb_true_iff, String.eqb_neq, Hne. }
  destruct (String.eqb (Room.id r0) rid) eqn:E.
  - subst r. unfold Db.apply_updates, RoomSettings.updates. simpl.
    rewrite Ht. reflexivity.
  - subst r0. apply String.eqb_neq in E. contradiction.
Qed.

(** The settings dialog accepts a new password of white space only,
    which [createRoom] would refuse.  Once it is stored (the limit being
    in range), [joinRoom] lets nobody in from the refreshed catalog: a
    blank password is asked for again, any other is incorrect, and no
    request is sent, members included. *)
Theorem blank_credential_locks_room (room : Room.t) (newPassword : string)
  (maxUsers : Z) (s : Db.Store)
  (Hne : newPassword <> "") (Hws : Js.all_white_space newPassword = true)
  (Hin : 1 <= maxUsers <= 100) :
  let s' := final (run Db.handle
                     (RoomSettings.handleUpdateSettings room newPassword maxUsers) s) in
  forall r, In r (Db.rooms s') -> Room.id r = Room.id room ->
    Room.password_hash r = newPassword /\
    forall (uid pw : string),
      silent (RoomList.joinRoom uid (Some r) pw) /\
      exists msg, RoomList.joinRoom uid (Some r) pw = Ui (toast_error msg) (Ret tt).
Proof.
  intros s' r Hr Hid.
  assert (Hp : Room.password_hash r = newPassword).
  { subst s'. unfold RoomSettings.handleUpdateSettings in Hr.
    cbn [run finally try_catch bind Db.handle] in Hr.
    rewrite update_where_plain in Hr by reflexivity.
    assert (Hck : forallb
              (fun r0 => Db.check_max_users
                 (Room.max_users
                    (Db.apply_updates (RoomSettings.updates newPassword maxUsers) r0)))
              (filter (Db.has_id (Room.id room)) (Db.rooms s)) = true).
    { apply forallb_forall. intros r0 _. simpl. apply check_max_users_iff, Hin. }
    rewrite Hck in Hr. cbn in Hr.
    apply (update_sets_password newPassword maxUsers (Room.id room)
             (Db.rooms s) r Hne Hr Hid). }
  split; [exact Hp|]. intros uid pw.
  assert (Hbad : Js.trim pw = "" \/ pw <> Room.password_hash r).
  { destruct (string_dec (Js.trim pw) "") as [E|E]; [left; exact E|right].
    intros ->. apply E, trim_empty_iff. rewrite Hp. exact Hws. }
  destruct (joinRoom_rejected uid r pw Hbad) as [msg Hj].
  split; [rewrite Hj; exact I|eauto].
Qed.

Lemma blank_credential_locks_room_witness :
  let s' := final (run Db.handle
                     (RoomSettings.handleUpdateSettings Sample.quiet_as_created " " 1)
                     Sample.crowded_before) in
  In Sample.quiet (Db.rooms s') /\
  (1 <= Db.membership_rows "r2" "ub" s')%nat /\
  silent (RoomList.joinRoom "ub" (Some Sample.quiet) " ") /\
  silent (RoomList.joinRoom "ub" (Some Sample.quiet) "q").
Proof.
  cbv zeta.
  assert (Hin : In Sample.quiet
            (Db.rooms (final (run Db.handle
               (RoomSettings.handleUpdateSettings Sample.quiet_as_created " " 1)
               Sample.crowded_before)))).
  { simpl. auto. }
  split; [exact Hin|]. split; [cbv; lia|].
  pose proof (blank_credential_locks_room Sample.quiet_as_created " " 1
                Sample.crowded_before) as H.
  cbv zeta in H.
  destruct (H ltac:(discriminate) eq_refl ltac:(lia) Sample.quiet Hin eq_refl)
    as [_ H'].
  split; [apply (H' "ub" " ")|apply (H' "ub" "q")].
Defined.

(** ** The search box *)

(** On text of the ASCII range white space is one byte long. *)
Lemma all_white_space_ascii_cons (a : ascii) (s : string) :
  (nat_of_ascii a <? 128)%nat = true ->
  Js.all_white_space (String a s) = Js.is_white_space_1 a && Js.all_white_space s.
Proof.
  intros Ha. apply Nat.ltb_lt in Ha. cbn [Js.all_white_space].
  destruct (Js.is_white_space_1 a); [reflexivity|]. cbn [andb].
  destruct s as [|b s2]; [reflexivity|].
  assert (H2 : Js.is_white_space_2 a b = false).
  { unfold Js.is_white_space_2.
    replace (nat_of_ascii a =? 194)%nat with false
      by (symmetry; apply Nat.eqb_neq; lia). reflexivity. }
  rewrite H2. destruct s2 as [|c s3]; [reflexivity|].
  assert (H3 : Js.is_white_space_3 a b c = false).
  { unfold Js.is_white_space_3. cbv zeta.
    replace (nat_of_ascii a =? 225)%nat with false
      by (symmetry; apply Nat.eqb_neq; lia).
    replace (nat_of_ascii a =? 226)%nat with false
      by (symmetry; apply Nat.eqb_neq; lia).
    replace (nat_of_ascii a =? 227)%nat with false
      by (symmetry; apply Nat.eqb_neq; lia).
    replace (nat_of_ascii a =? 239)%nat with false
      by (symmetry; apply Nat.eqb_neq; lia).
    reflexivity. }
  rewrite H3. reflexivity.
Qed.

Lemma lower_ascii_char_facts (c : ascii) :
  (nat_of_ascii c <? 128)%nat = true ->
  (nat_of_ascii (Js.lower_ascii_char c) <? 128)%nat = true /\
  Js.is_white_space_1 (Js.lower_ascii_char c) = Js.is_white_space_1 c /\
  Js.lower_ascii_char (Js.lower_ascii_char c) = Js.lower_ascii_char c.
Proof.
  destruct c as [[] [] [] [] [] [] [] []]; intros H; try discriminate H;
    repeat split.
Qed.

Lemma is_ascii_lower_ascii (s : string) :
  Js.is_ascii s = true -> Js.is_ascii (Js.lower_ascii s) = true.
Proof.
  induction s as [|c s IH]; simpl; [reflexivity|].
  intros H. apply andb_true_iff in H as [Hc Hs].
  rewrite (proj1 (lower_ascii_char_facts c Hc)), (IH Hs). reflexivity.
Qed.

Lemma all_white_space_lower_ascii (s : string) :
  Js.is_ascii s = true ->
  Js.all_white_space (Js.lower_ascii s) = Js.all_white_space s.
Proof.
  induction s as [|c s IH]; [reflexivity|].
  intros H. cbn [Js.is_ascii] in H. apply andb_true_iff in H as [Hc Hs].
  cbn [Js.lower_ascii].
  destruct (lower_ascii_char_facts c Hc) as (Hl & Hw & _).
  rewrite (all_white_space_ascii_cons _ _ Hl), (all_white_space_ascii_cons _ _ Hc).
  rewrite Hw, (IH Hs). reflexivity.
Qed.

Lemma lower_ascii_idempotent (s : string) :
  Js.is_ascii s = true ->
  Js.lower_ascii (Js.lower_ascii s) = Js.lower_ascii s.
Proof.
  induction s as [|c s IH]; simpl; [reflexivity|].
  intros H. apply andb_true_iff in H as [Hc Hs].
  rewrite (proj2 (proj2 (lower_ascii_char_facts c Hc))), (IH Hs). reflexivity.
Qed.

Lemma lower_ascii_app (s t : string) :
  Js.lower_ascii (s ++ t) = (Js.lower_ascii s ++ Js.lower_ascii t)%string.
Proof.
  induction s as [|c s IH]; simpl; [reflexivity|]. rewrite IH. reflexivity.
Qed.

Lemma is_ascii_app (s t : string) :
  Js.is_ascii (s ++ t) = Js.is_ascii s && Js.is_ascii t.
Proof.
  induction s as [|c s IH]; simpl; [reflexivity|].
  rewrite IH, andb_assoc. reflexivity.
Qed.

Lemma all_white_space_ascii_app (s t : string) :
  Js.is_ascii s = true ->
  Js.all_white_space (s ++ t) = Js.all_white_space s && Js.all_white_space t.
Proof.
  induction s as [|c s IH]; [reflexivity|].
  intros H. cbn [Js.is_ascii] in H. apply andb_true_iff in H as [Hc Hs].
  change (String c s ++ t)%string with (String c (s ++ t)).
  rewrite !(all_white_space_ascii_cons _ _ Hc), (IH Hs), andb_assoc.
  reflexivity.
Qed.

Lemma blank_eqb (s : string) :
  String.eqb (Js.trim s) "" = Js.all_white_space s.
Proof.
  destruct (Js.all_white_space s) eqn:E.
  - apply String.eqb_eq, trim_empty_iff, E.
  - apply String.eqb_neq. intros H. apply trim_empty_iff in H. congruence.
Qed.

Lemma string_app_assoc (a b c : string) :
  ((a ++ b) ++ c = a ++ (b ++ c))%string.
Proof. induction a as [|x a IH]; simpl; [reflexivity|]. rewrite IH. reflexivity. Qed.

Lemma searchEffect_In (cm : Js.CaseMapping) (uid q : string)
  (rooms : list Room.t) (r : Room.t) :
  In r (RoomList.searchEffect cm uid q rooms) <->
  In r rooms /\
  (Js.all_white_space q = true \/
   RoomList.matches cm (Js.toLowerCase cm q) r = true).
Proof.
  unfold RoomList.searchEffect, RoomList.sortRooms. rewrite blank_eqb.
  destruct (Js.all_white_space q); rewrite sort_In.
  - tauto.
  - rewrite filter_In. intuition discriminate.
Qed.

(** The search does not tell the capitals A .. Z from the small letters
    in a query of the ASCII range: two such queries that differ in the
    case of their letters only show the same rooms in the same order,
    whatever the names of the rooms are. *)
Theorem search_ignores_case_of_query (cm : Js.CaseMapping) (uid q q' : string)
  (rooms : list Room.t)
  (Hq : Js.is_ascii q = true) (Hq' : Js.is_ascii q' = true)
  (Hcase : Js.lower_ascii q = Js.lower_ascii q') :
  RoomList.searchEffect cm uid q rooms = RoomList.searchEffect cm uid q' rooms /\
  RoomList.searchEffect cm uid (Js.lower_ascii q) rooms =
  RoomList.searchEffect cm uid q rooms.
Proof.
  assert (H : forall a b, Js.is_ascii a = true -> Js.is_ascii b = true ->
            Js.lower_ascii a = Js.lower_ascii b ->
            RoomList.searchEffect cm uid a rooms =
            RoomList.searchEffect cm uid b rooms).
  { intros a b Ha Hb E. unfold RoomList.searchEffect. rewrite !blank_eqb.
    rewrite <- (all_white_space_lower_ascii a Ha),
            <- (all_white_space_lower_ascii b Hb).
    rewrite (Js.toLowerCase_ascii cm a Ha), (Js.toLowerCase_ascii cm b Hb).
    rewrite E. reflexivity. }
  split; [apply H; assumption|].
  apply H; [apply is_ascii_lower_ascii, Hq|exact Hq|].
  apply lower_ascii_idempotent, Hq.
Qed.

Lemma search_ignores_case_of_query_witness :
  RoomList.searchEffect Js.basic_latin "ua" "LoB" (Db.rooms Sample.fresh) =
    [Sample.lobby] /\
  RoomList.searchEffect Js.basic_latin "ua" "lOb" (Db.rooms Sample.fresh) =
    [Sample.lobby].
Proof.
  destruct (search_ignores_case_of_query Js.basic_latin "ua" "LoB" "lOb"
              (Db.rooms Sample.fresh) eq_refl eq_refl eq_refl) as [H _].
  split; [reflexivity|]. rewrite <- H. reflexivity.
Defined.

(** Typing on narrows the search, for a query of the ASCII range: a room
    shown for the query followed by further ASCII characters is shown
    for the query itself, whatever the names of the rooms are. *)
Theorem search_narrows_while_typing (cm : Js.CaseMapping) (uid q more : string)
  (rooms : list Room.t) (r : Room.t)
  (Hq : Js.is_ascii q = true) (Hmore : Js.is_ascii more = true)
  (Hshown : In r (RoomList.searchEffect cm uid (q ++ more) rooms)) :
  In r (RoomList.searchEffect cm uid q rooms).
Proof.
  apply searchEffect_In in Hshown as [Hr Hm]. apply searchEffect_In.
  split; [exact Hr|].
  destruct (Js.all_white_space q) eqn:Hb; [left; reflexivity|right].
  destruct Hm as [Hw|Hm].
  - rewrite (all_white_space_ascii_app q more Hq), Hb in Hw. discriminate.
  - assert (Hqm : Js.is_ascii (q ++ more) = true).
    { rewrite is_ascii_app, Hq, Hmore. reflexivity. }
    rewrite (Js.toLowerCase_ascii cm _ Hqm), lower_ascii_app in Hm.
    rewrite (Js.toLowerCase_ascii cm _ Hq).
    apply matches_spec in Hm. apply matches_spec.
    unfold contains in *.
    destruct Hm as [[pre [post E]]|[pre [post E]]]; [left|right];
      exists pre, (Js.lower_ascii more ++ post)%string;
      rewrite E, string_app_assoc; reflexivity.
Qed.

Lemma search_narrows_while_typing_witness :
  RoomList.searchEffect Js.basic_latin "ua" "r1" (Db.rooms Sample.fresh) =
    [Sample.lobby] /\
  In Sample.lobby
     (RoomList.searchEffect Js.basic_latin "ua" "r" (Db.rooms Sample.fresh)).
Proof.
  split; [reflexivity|].
  apply (search_narrows_while_typing Js.basic_latin "ua" "r" "1"
           (Db.rooms Sample.fresh)); try reflexivity.
  simpl. auto.
Defined.

(** ** The message log under the change feed *)

(** The log only grows, at its end: after any sequence of events it is
    the log before, followed by the messages of the INSERT events in the
    order of their arrival.  No event removes or moves a message, an
    UPDATE or DELETE event included. *)
Theorem log_grows_by_inserts (ps : list Chat.payload) (log : list Message.t) :
  Chat.deliver ps log = log ++ inserted ps /\
  List.length (Chat.deliver ps log) =
    (List.length log + List.length (inserted ps))%nat /\
  firstn (List.length log) (Chat.deliver ps log) = log.
Proof.
  assert (H : Chat.deliver ps log = log ++ inserted ps).
  { unfold Chat.deliver, inserted. revert log.
    induction ps as [|p ps IH]; intros log; simpl.
    - rewrite app_nil_r. reflexivity.
    - rewrite IH. unfold Chat.onChange.
      destruct (Chat.event p); simpl; [|reflexivity|reflexivity].
      rewrite <- app_assoc. reflexivity. }
  split; [exact H|]. rewrite H. split.
  - apply length_app.
  - rewrite firstn_app, Nat.sub_diag, firstn_all. simpl. apply app_nil_r.
Qed.

Lemma deliver_app (ps qs : list Chat.payload) (log : list Message.t) :
  Chat.deliver (ps ++ qs) log = Chat.deliver qs (Chat.deliver ps log).
Proof. unfold Chat.deliver. apply fold_left_app. Qed.

Lemma sort_insert_snoc {A : Type} (cmp : A -> A -> Z) (x m : A) (l : list A) :
  cmp x m <= 0 ->
  Js.sort_insert cmp x (l ++ [m]) = Js.sort_insert cmp x l ++ [m].
Proof.
  intros Hx. induction l as [|y l IH]; simpl.
  - apply Z.leb_le in Hx. rewrite Hx. reflexivity.
  - destruct (cmp x y <=? 0); [reflexivity|]. rewrite IH. reflexivity.
Qed.

(** An element that no other has to follow is sorted to the end. *)
Lemma sort_snoc {A : Type} (cmp : A -> A -> Z) (m : A) (l : list A) :
  Forall (fun x => cmp x m <= 0) l ->
  Js.sort cmp (l ++ [m]) = Js.sort cmp l ++ [m].
Proof.
  induction 1 as [|x l Hx Hl IH]; simpl; [reflexivity|].
  rewrite IH. apply sort_insert_snoc, Hx.
Qed.

Lemma snapshot_after_insert (v : string) (w : ChatRoom.World) (row : Message.t) :
  ChatRoom.clock_ahead w ->
  Message.created_at row = Db.clock (ChatRoom.db w) ->
  Db.order_messages_asc
    (filter (Db.msg_in_room v) (Db.messages (ChatRoom.db w) ++ [row])) =
  Chat.deliver
    (filter (fun p => Db.msg_in_room v (Chat.new p))
            [Chat.mkPayload Chat.INSERT row])
    (ChatRoom.snapshot v w).
Proof.
  intros Hc Ht. unfold ChatRoom.snapshot. rewrite filter_app. simpl.
  destruct (Db.msg_in_room v row); simpl.
  - unfold Db.order_messages_asc. apply sort_snoc.
    apply Forall_forall. intros x Hx. apply filter_In in Hx as [Hx _].
    unfold ChatRoom.clock_ahead in Hc. rewrite Forall_forall in Hc.
    specialize (Hc x Hx). unfold Db.created_asc. simpl in *. lia.
  - rewrite app_nil_r. reflexivity.
Qed.

Lemma handle_feed (o : ChatRoom.Op) (w : ChatRoom.World) :
  ChatRoom.clock_ahead w ->
  let w' := snd (ChatRoom.handle o w) in
  ChatRoom.clock_ahead w' /\
  exists delta,
    ChatRoom.published w' = ChatRoom.published w ++ delta /\
    forall v,
      Chat.deliver (filter (fun p => Db.msg_in_room v (Chat.new p)) delta)
                   (ChatRoom.snapshot v w) = ChatRoom.snapshot v w'.
Proof.
  intros Hc. destruct o as [content uid email url ty rid|b p file|b p]; simpl.
  - destruct (existsb (Db.has_id rid) (Db.rooms (ChatRoom.db w))); simpl.
    + split.
      * unfold ChatRoom.clock_ahead in *. simpl. apply Forall_app. split.
        -- eapply Forall_impl; [|exact Hc]. simpl. intros m Hm. lia.
        -- constructor; [simpl; lia|constructor].
      * eexists. split; [reflexivity|]. intros v.
        symmetry. apply snapshot_after_insert; [exact Hc|reflexivity].
    + split; [exact Hc|]. exists []. split; [symmetry; apply app_nil_r|].
      intros v. reflexivity.
  - destruct (negb (String.eqb b ChatRoom.bucket)); simpl;
      [|destruct (existsb _ _); simpl];
      (split; [exact Hc|]; exists []; split; [symmetry; apply app_nil_r|];
       intros v; reflexivity).
  - split; [exact Hc|]. exists []. split; [symmetry; apply app_nil_r|].
    intros v. reflexivity.
Qed.

Lemma run_feed (p : ChatRoom.Handler) (w : ChatRoom.World) :
  ChatRoom.clock_ahead w ->
  let w' := Task.after ChatRoom.handle p w in
  ChatRoom.clock_ahead w' /\
  exists delta,
    ChatRoom.published w' = ChatRoom.published w ++ delta /\
    forall v,
      Chat.deliver (filter (fun p => Db.msg_in_room v (Chat.new p)) delta)
                   (ChatRoom.snapshot v w) = ChatRoom.snapshot v w'.
Proof.
  unfold Task.after. revert w.
  induction p as [r|e|a k IH|o k IH]; intros w Hc; simpl.
  - split; [exact Hc|]. exists []. split; [symmetry; apply app_nil_r|].
    intros v. reflexivity.
  - split; [exact Hc|]. exists []. split; [symmetry; apply app_nil_r|].
    intros v. reflexivity.
  - specialize (IH w Hc). simpl in IH.
    destruct (Task.run ChatRoom.handle k w) as [[r w'] tr]. exact IH.
  - destruct (handle_feed o w Hc) as [Hc1 [d1 [Hp1 Hs1]]].
    destruct (ChatRoom.handle o w) as [x w1]. simpl in Hc1, Hp1, Hs1.
    specialize (IH x w1 Hc1). simpl in IH.
    destruct (Task.run ChatRoom.handle (k x) w1) as [[r w'] tr].
    unfold Task.final in *. simpl in *.
    destruct IH as [Hc2 [d2 [Hp2 Hs2]]].
    split; [exact Hc2|]. exists (d1 ++ d2). split.
    + rewrite Hp2, Hp1, app_assoc. reflexivity.
    + intros v. rewrite filter_app, deliver_app, Hs1. apply Hs2.
Qed.

(** The live log is the log a reload would show.  Whatever the handlers
    of the chat do on the store (text messages, images, refused inserts),
    the snapshot a viewer of any room loaded before, extended by the
    events the feed delivers for that room, is the snapshot the viewer
    would load afterwards: no message is missing, none is doubled, and
    the order is that of creation.  The store dates a new row with its
    clock, which is ahead of every stored message. *)
Theorem live_log_equals_reload (p : ChatRoom.Handler) (w : ChatRoom.World)
  (viewed : string) (Hclock : ChatRoom.clock_ahead w) :
  let w' := Task.after ChatRoom.handle p w in
  Chat.deliver (ChatRoom.delivered viewed w w') (ChatRoom.snapshot viewed w) =
  ChatRoom.snapshot viewed w' /\
  ChatRoom.clock_ahead w'.
Proof.
  cbv zeta. destruct (run_feed p w Hclock) as [Hc [delta [Hp Hs]]].
  cbv zeta in Hc, Hp, Hs. split; [|exact Hc].
  unfold ChatRoom.delivered. rewrite Hp.
  rewrite skipn_app, skipn_all, Nat.sub_diag. simpl. apply Hs.
Qed.

Lemma live_log_equals_reload_witness :
  let send := ChatRoom.handleSend Sample.bob "r1" " see you " in
  let w' := Task.after ChatRoom.handle send SampleChat.world in
  map Message.content (ChatRoom.snapshot "r1" SampleChat.world) = ["hi"; "hello"] /\
  map Message.content
      (Chat.deliver (ChatRoom.delivered "r1" SampleChat.world w')
                    (ChatRoom.snapshot "r1" SampleChat.world)) =
    ["hi"; "hello"; " see you "] /\
  Chat.deliver (ChatRoom.delivered "r2" SampleChat.world w')
               (ChatRoom.snapshot "r2" SampleChat.world) =
    ChatRoom.snapshot "r2" SampleChat.world.
Proof.
  cbv zeta.
  assert (Hc : ChatRoom.clock_ahead SampleChat.world).
  { repeat constructor; simpl; lia. }
  pose proof (live_log_equals_reload
                (ChatRoom.handleSend Sample.bob "r1" " see you ")
                SampleChat.world "r1" Hc) as [H1 _].
  pose proof (live_log_equals_reload
                (ChatRoom.handleSend Sample.bob "r1" " see you ")
                SampleChat.world "r2" Hc) as [H2 _].
  cbv zeta in H1, H2.
  split; [reflexivity|]. split; [rewrite H1; reflexivity|].
  rewrite H2. reflexivity.
Defined.

(** ** Sending a message *)

(** [handleSend] sends nothing for a draft that is blank.  Otherwise it
    sends one insert whose content is the draft as it was typed, white
    space at the ends included, and it empties the draft only when the
    insert came back without error: after a failure the draft is kept and
    at most the message of the error is shown. *)
Theorem handleSend_outcomes {S : Type}
  (h : forall o : ChatRoom.Op, S -> ChatRoom.rsp o * S) (s : S)
  (session : User.t) (roomId newMessage : string) :
  let send := ChatRoom.handleSend session roomId newMessage in
  let ins := ChatRoom.messages_insert newMessage (User.id session)
               (User.email session) None Message.text roomId in
  (Js.all_white_space newMessage = true ->
   Task.run h send s = (inr tt, s, [])) /\
  (Js.all_white_space newMessage = false ->
   Task.requests h send s = [ins] /\
   (error (fst (h ins s)) = None ->
    Task.actions h send s = [ChatRoom.setNewMessage ""]) /\
   (forall e, error (fst (h ins s)) = Some e ->
    Task.actions h send s =
      if is_Error e then [ChatRoom.toast_error (message e)] else [])).
Proof.
  cbv zeta. unfold ChatRoom.handleSend. rewrite blank_test.
  destruct (Js.all_white_space newMessage).
  - split; [reflexivity|]. intros H. discriminate.
  - split; [intros H; discriminate|]. intros _.
    unfold Task.requests, Task.actions. cbn [Task.try_catch Task.run].
    destruct (h _ s) as [[d c e] s1]. cbn [fst snd error].
    destruct e as [[cd m ie]|]; cbn.
    + destruct ie; cbn; (split; [reflexivity|]);
        (split; [intros H; discriminate|]);
        intros e H; injection H as <-; reflexivity.
    + split; [reflexivity|]. split; [reflexivity|]. intros e H. discriminate.
Qed.

Lemma handleSend_outcomes_witness :
  Task.run ChatRoom.handle (ChatRoom.handleSend Sample.bob "r1" "   ")
           SampleChat.world = (inr tt, SampleChat.world, []) /\
  Task.run ChatRoom.handle (ChatRoom.handleSend Sample.bob "r1" Sample.nbsp)
           SampleChat.world = (inr tt, SampleChat.world, []) /\
  Task.actions ChatRoom.handle (ChatRoom.handleSend Sample.bob "r1" " ok ")
               SampleChat.world = [ChatRoom.setNewMessage ""] /\
  Task.actions ChatRoom.handle (ChatRoom.handleSend Sample.bob "r9" "ok")
               SampleChat.world = [].
Proof.
  pose proof (handleSend_outcomes ChatRoom.handle SampleChat.world Sample.bob
                "r1" "   ") as [H1 _].
  pose proof (handleSend_outcomes ChatRoom.handle SampleChat.world Sample.bob
                "r1" Sample.nbsp) as [H1' _].
  pose proof (handleSend_outcomes ChatRoom.handle SampleChat.world Sample.bob
                "r1" " ok ") as [_ H2].
  pose proof (handleSend_outcomes ChatRoom.handle SampleChat.world Sample.bob
                "r9" "ok") as [_ H3].
  cbv zeta in H1, H1', H2, H3.
  split; [apply H1; reflexivity|]. split; [apply H1'; reflexivity|]. split.
  - destruct (H2 eq_refl) as (_ & H & _). apply H. reflexivity.
  - destruct (H3 eq_refl) as (_ & _ & H).
    rewrite (H (mkError "23503"
                  "violates foreign key constraint messages_room_id_fkey" false));
      reflexivity.
Defined.

(** ** Uploading an image *)

Lemma split_dots_not_nil (s : string) : ChatRoom.split_dots s <> [].
Proof.
  induction s as [|c s IH]; simpl; [discriminate|].
  destruct (Ascii.eqb c "."); [discriminate|].
  destruct (ChatRoom.split_dots s); discriminate.
Qed.

(** Joining the pieces with dots gives the name back. *)
Lemma join_split_dots (s : string) : join_dots (ChatRoom.split_dots s) = s.
Proof.
  induction s as [|c s IH]; [reflexivity|]. cbn [ChatRoom.split_dots].
  destruct (Ascii.eqb_spec c ".") as [->|Hc].
  - pose proof (split_dots_not_nil s) as Hn.
    destruct (ChatRoom.split_dots s) as [|x l]; [contradiction|].
    change (join_dots ("" :: x :: l)) with ("" ++ "." ++ join_dots (x :: l))%string.
    rewrite IH. reflexivity.
  - pose proof (split_dots_not_nil s) as Hn.
    destruct (ChatRoom.split_dots s) as [|x l]; [contradiction|].
    destruct l as [|y l].
    + simpl in *. rewrite IH. reflexivity.
    + change (join_dots (String c x :: y :: l)) with
        (String c (x ++ "." ++ join_dots (y :: l)))%string.
      change (join_dots (x :: y :: l)) with (x ++ "." ++ join_dots (y :: l))%string
        in IH.
      rewrite IH. reflexivity.
Qed.

Lemma includes_dot_cons (c : ascii) (s : string) :
  Js.includes (String c s) "." = Ascii.eqb c "." || Js.includes s ".".
Proof.
  cbn [Js.includes Js.startsWith].
  rewrite (Ascii.eqb_sym "."%char c). destruct (Ascii.eqb c "."); simpl.
  - destruct s; reflexivity.
  - reflexivity.
Qed.

(** No piece holds a dot. *)
Lemma split_dots_dotless (s : string) :
  Forall (fun piece => Js.includes piece "." = false) (ChatRoom.split_dots s).
Proof.
  induction s as [|c s IH]; simpl.
  - repeat constructor.
  - destruct (Ascii.eqb c ".") eqn:Hc.
    + constructor; [reflexivity|exact IH].
    + destruct (ChatRoom.split_dots s) as [|x l].
      * constructor; [|constructor]. rewrite includes_dot_cons, Hc. reflexivity.
      * apply Forall_inv in IH as Hx. apply Forall_inv_tail in IH.
        constructor; [|exact IH]. rewrite includes_dot_cons, Hc, Hx. reflexivity.
Qed.

Lemma split_dots_single (s : string) :
  Js.includes s "." = false -> ChatRoom.split_dots s = [s].
Proof.
  induction s as [|c s IH]; [reflexivity|].
  rewrite includes_dot_cons. intros H. apply orb_false_iff in H as [Hc Hs].
  simpl. rewrite Hc, (IH Hs). reflexivity.
Qed.

Lemma pop_snoc (l : list string) (x : string) : ChatRoom.pop (l ++ [x]) = Some x.
Proof.
  induction l as [|y l IH]; [reflexivity|].
  simpl. destruct (l ++ [x]) eqn:E; [destruct l; discriminate|]. exact IH.
Qed.

Lemma join_dots_snoc (l : list string) (x : string) :
  l <> [] -> join_dots (l ++ [x]) = (join_dots l ++ "." ++ x)%string.
Proof.
  induction l as [|y l IH]; [contradiction|]. intros _.
  destruct l as [|z l]; [reflexivity|].
  change (join_dots ((y :: z :: l) ++ [x])) with
    (y ++ "." ++ join_dots ((z :: l) ++ [x]))%string.
  rewrite IH by discriminate.
  change (join_dots (y :: z :: l)) with (y ++ "." ++ join_dots (z :: l))%string.
  rewrite !string_app_assoc. reflexivity.
Qed.

(** The extension that [handleImageUpload] gives the stored object is the
    part of the file name after its last dot: it is always defined, holds
    no dot, and the name is the extension itself or ends with a dot and
    the extension.  A name without a dot is its own extension. *)
Theorem fileExt_is_after_last_dot (file : ChatRoom.File) :
  exists ext,
    ChatRoom.fileExt file = Some ext /\
    Js.includes ext "." = false /\
    (ChatRoom.file_name file = ext \/
     exists stem, ChatRoom.file_name file = (stem ++ "." ++ ext)%string) /\
    (Js.includes (ChatRoom.file_name file) "." = false ->
     ext = ChatRoom.file_name file).
Proof.
  unfold ChatRoom.fileExt. set (name := ChatRoom.file_name file).
  pose proof (split_dots_not_nil name) as Hn.
  pose proof (join_split_dots name) as Hj.
  pose proof (split_dots_dotless name) as Hd.
  destruct (exists_last Hn) as [l [ext E]].
  rewrite E in *. exists ext. rewrite pop_snoc.
  split; [reflexivity|]. split.
  { rewrite Forall_forall in Hd. apply Hd, in_or_app. right. left. reflexivity. }
  split.
  - destruct l as [|y l]; [left; symmetry; exact Hj|right].
    exists (join_dots (y :: l)). rewrite <- Hj. apply join_dots_snoc. discriminate.
  - intros Hnd. rewrite (split_dots_single name Hnd) in E.
    destruct l as [|y l]; simpl in E.
    + injection E as <-. reflexivity.
    + injection E as _ E. destruct l; discriminate.
Qed.

Lemma fileExt_is_after_last_dot_witness :
  ChatRoom.fileExt SampleChat.photo = Some "JPG" /\
  ChatRoom.fileExt (ChatRoom.mkFile "README" "image/png") = Some "README" /\
  ChatRoom.filePath Sample.bob "0.42" (ChatRoom.mkFile "README" "image/png") =
    "ub/0.42.README".
Proof.
  split; [reflexivity|].
  destruct (fileExt_is_after_last_dot (ChatRoom.mkFile "README" "image/png"))
    as [ext (E & _ & _ & H)].
  specialize (H eq_refl). subst ext. split; [exact E|].
  unfold ChatRoom.filePath. rewrite E. reflexivity.
Defined.

(** [handleImageUpload] turns down a file whose media type does not start
    with [image/] before any request and without touching the busy flag.
    For an image it uploads under the path made of the user id, the
    random number and the extension; a failed upload ends the requests,
    so that no message is posted for an image that is not stored; after
    the upload it asks for the public address and posts the message that
    carries it.  The busy flag is set first and released last on every
    path, and nowhere else. *)
Theorem handleImageUpload_steps {S : Type}
  (h : forall o : ChatRoom.Op, S -> ChatRoom.rsp o * S) (s : S)
  (session : User.t) (roomId random : string) (fileInput : bool)
  (file : ChatRoom.File) :
  let up := ChatRoom.handleImageUpload session roomId random fileInput file in
  let path := ChatRoom.filePath session random file in
  let upload := ChatRoom.storage_upload ChatRoom.bucket path file in
  (Js.startsWith (ChatRoom.file_type file) "image/" = false ->
   Task.run h up s =
     (inr tt, s, [Task.EvUi (ChatRoom.toast_error "Please upload an image file")])) /\
  (Js.startsWith (ChatRoom.file_type file) "image/" = true ->
   (error (fst (h upload s)) <> None -> Task.requests h up s = [upload]) /\
   (error (fst (h upload s)) = None ->
    Task.requests h up s =
      [upload;
       ChatRoom.storage_getPublicUrl ChatRoom.bucket path;
       ChatRoom.messages_insert "Sent an image" (User.id session)
         (User.email session)
         (Some (fst (h (ChatRoom.storage_getPublicUrl ChatRoom.bucket path)
                       (snd (h upload s)))))
         Message.image roomId]) /\
   exists mid,
     Task.actions h up s =
       ChatRoom.setIsUploading true :: mid ++ [ChatRoom.setIsUploading false] /\
     forall b, ~ In (ChatRoom.setIsUploading b) mid).
Proof.
  cbv zeta. unfold ChatRoom.handleImageUpload.
  destruct (Js.startsWith (ChatRoom.file_type file) "image/").
  - split; [intros H; discriminate|]. intros _.
    unfold Task.requests, Task.actions.
    cbn [negb Task.run Task.finally Task.try_catch Task.bind].
    destruct (h (ChatRoom.storage_upload _ _ _) s) as [[d c e] s1].
    cbn [fst snd error].
    assert (Hcatch : forall t : Thrown,
      exists mid,
        ChatRoom.setIsUploading true ::
        Task.ui_actions
          (snd (Task.run h
                  (Task.finally (ChatRoom.catch_toast t)
                     (Task.Ui (ChatRoom.setIsUploading false) (Task.Ret tt))) s1)) =
        ChatRoom.setIsUploading true :: mid ++ [ChatRoom.setIsUploading false] /\
        (forall b, ~ In (ChatRoom.setIsUploading b) mid) /\
        Task.calls
          (snd (Task.run h
                  (Task.finally (ChatRoom.catch_toast t)
                     (Task.Ui (ChatRoom.setIsUploading false) (Task.Ret tt))) s1)) = []).
    { intros [m|[cd m [|]]]; cbn.
      - exists [ChatRoom.toast_error m]. repeat split.
        intros b [H|[]]. discriminate.
      - exists [ChatRoom.toast_error m]. repeat split.
        intros b [H|[]]. discriminate.
      - exists []. repeat split. intros b []. }
    destruct e as [err|]; cbn [Task.throw_if_error Task.bind Task.try_catch Task.finally].
    + destruct (Hcatch (PgErr err)) as [mid (Ha & Hm & Hc)].
      split; [|split].
      * intros _. cbn [Task.calls]. destruct (Task.run h _ s1) as [[r s'] tr].
        simpl in *. rewrite Hc. reflexivity.
      * intros H. discriminate.
      * exists mid. destruct (Task.run h _ s1) as [[r s'] tr]. simpl in *.
        split; [exact Ha|exact Hm].
    + cbn [Task.run].
      destruct (h (ChatRoom.storage_getPublicUrl _ _) s1) as [url s2].
      cbn [fst Task.run].
      destruct (h (ChatRoom.messages_insert _ _ _ _ _ _) s2) as [[d3 c3 e3] s3].
      cbn [error].
      destruct e3 as [err3|];
        cbn [Task.throw_if_error Task.bind Task.try_catch Task.finally].
      * destruct (Hcatch (PgErr err3)) as [mid (Ha & Hm & Hc)].
        clear Hcatch.
        assert (Hsame : forall x : S,
          Task.calls (snd (Task.run h
             (Task.finally (ChatRoom.catch_toast (PgErr err3))
                (Task.Ui (ChatRoom.setIsUploading false) (Task.Ret tt))) x)) = [] /\
          Task.ui_actions (snd (Task.run h
             (Task.finally (ChatRoom.catch_toast (PgErr err3))
                (Task.Ui (ChatRoom.setIsUploading false) (Task.Ret tt))) x)) =
          mid ++ [ChatRoom.setIsUploading false]).
        { intros x. injection Ha as Ha. revert Ha.
          destruct err3 as [cd m [|]]; cbn; intros Ha; split; auto. }
        destruct (Hsame s3) as [Hc3 Ha3].
        destruct (Task.run h _ s3) as [[r s'] tr]. simpl in *.
        split; [intros H; contradiction|]. split.
        -- intros _. rewrite Hc3. reflexivity.
        -- exists mid. split; [rewrite Ha3; reflexivity|exact Hm].
      * split; [intros H; contradiction|]. split.
        -- intros _. destruct fileInput; reflexivity.
        -- destruct fileInput; cbn.
           ++ exists [ChatRoom.clearFileInput]. split; [reflexivity|].
              intros b [H|[]]. discriminate.
           ++ exists []. split; [reflexivity|]. intros b [].
  - split; [intros _; reflexivity|]. intros H. discriminate.
Qed.

Lemma handleImageUpload_steps_witness :
  Task.run ChatRoom.handle
    (ChatRoom.handleImageUpload Sample.bob "r1" "0.42" true SampleChat.notes)
    SampleChat.world =
    (inr tt, SampleChat.world,
     [Task.EvUi (ChatRoom.toast_error "Please upload an image file")]) /\
  Task.requests ChatRoom.handle
    (ChatRoom.handleImageUpload Sample.bob "r1" "0.42" true SampleChat.photo)
    SampleChat.world =
    [ChatRoom.storage_upload "message-images" "ub/0.42.JPG" SampleChat.photo;
     ChatRoom.storage_getPublicUrl "message-images" "ub/0.42.JPG";
     ChatRoom.messages_insert "Sent an image" "ub" "bob@example.org"
       (Some "https://chat.example.org/storage/v1/object/public/message-images/ub/0.42.JPG")
       Message.image "r1"].
Proof.
  pose proof (handleImageUpload_steps ChatRoom.handle SampleChat.world Sample.bob
                "r1" "0.42" true SampleChat.notes) as [H1 _].
  pose proof (handleImageUpload_steps ChatRoom.handle SampleChat.world Sample.bob
                "r1" "0.42" true SampleChat.photo) as [_ H2].
  cbv zeta in H1, H2. split; [apply H1; reflexivity|].
  destruct (H2 eq_refl) as (_ & H & _). rewrite H; reflexivity.
Defined.

(** The upload and the message are two steps with nothing to undo the
    first: an image whose path is free is stored; when its room is
    stored too, the message of type image with the public address of the
    object follows, and when the room is gone the message is refused,
    nothing is published, and the object stays in the blob store.  The
    refusal is a plain object, which the [catch] clause does not show:
    the busy flag is set and released, and nothing else happens on
    screen. *)
Theorem image_upload_on_store (w : ChatRoom.World) (session : User.t)
  (roomId random : string) (fileInput : bool) (file : ChatRoom.File)
  (Himage : Js.startsWith (ChatRoom.file_type file) "image/" = true)
  (Hfree : existsb (ChatRoom.has_object ChatRoom.bucket
                      (ChatRoom.filePath session random file))
                   (ChatRoom.objects w) = false) :
  let up := ChatRoom.handleImageUpload session roomId random fileInput file in
  let path := ChatRoom.filePath session random file in
  let w' := Task.after ChatRoom.handle up w in
  ChatRoom.objects w' = ChatRoom.objects w ++ [(ChatRoom.bucket, path, file)] /\
  (existsb (Db.has_id roomId) (Db.rooms (ChatRoom.db w)) = true ->
   Db.messages (ChatRoom.db w') =
     Db.messages (ChatRoom.db w) ++
     [Message.mk (ChatRoom.message_id (Db.uuid_seed (ChatRoom.db w)))
                 (Db.clock (ChatRoom.db w)) "Sent an image"
                 (User.id session) (User.email session)
                 (Some (ChatRoom.public_url w ChatRoom.bucket path))
                 Message.image roomId]) /\
  (existsb (Db.has_id roomId) (Db.rooms (ChatRoom.db w)) = false ->
   Db.messages (ChatRoom.db w') = Db.messages (ChatRoom.db w) /\
   ChatRoom.published w' = ChatRoom.published w /\
   Task.actions ChatRoom.handle up w =
     [ChatRoom.setIsUploading true; ChatRoom.setIsUploading false]).
Proof.
  cbv zeta. unfold ChatRoom.handleImageUpload, Task.after, Task.actions.
  rewrite Himage.
  cbn [negb Task.run Task.finally Task.try_catch Task.bind ChatRoom.handle].
  rewrite String.eqb_refl. cbn [negb]. rewrite Hfree.
  cbn [Db.ok error Task.throw_if_error Task.bind Task.try_catch Task.finally
       Task.run ChatRoom.handle ChatRoom.db ChatRoom.objects].
  destruct (existsb (Db.has_id roomId) (Db.rooms (ChatRoom.db w))).
  - destruct fileInput; cbn; (split; [reflexivity|]);
      (split; [intros _; reflexivity|intros H; discriminate]).
  - cbn. split; [reflexivity|]. split; [intros H; discriminate|].
    intros _. repeat split.
Qed.

Lemma image_upload_on_store_witness :
  let gone := ChatRoom.handleImageUpload Sample.bob "r9" "0.42" true SampleChat.photo in
  let w' := Task.after ChatRoom.handle gone SampleChat.world in
  ChatRoom.objects w' = [("message-images", "ub/0.42.JPG", SampleChat.photo)] /\
  Db.messages (ChatRoom.db w') = Db.messages Sample.crowded /\
  Task.actions ChatRoom.handle gone SampleChat.world =
    [ChatRoom.setIsUploading true; ChatRoom.setIsUploading false].
Proof.
  pose proof (image_upload_on_store SampleChat.world Sample.bob "r9" "0.42" true
                SampleChat.photo eq_refl eq_refl) as (H1 & _ & H3).
  cbv zeta in H1, H3. split; [rewrite H1; reflexivity|].
  destruct (H3 eq_refl) as (Hm & _ & Ha). split; [exact Hm|exact Ha].
Defined.

(** ** Behind the row policies *)

Lemma run_agree {R : Type} (h1 h2 : Backend Db.Store) (I : Db.Store -> Prop)
  (P : Op -> Prop) (p : Prog R) :
  (forall o s, P o -> I s -> h1 o s = h2 o s /\ I (snd (h2 o s))) ->
  all_calls P p -> forall s, I s -> run h1 p s = run h2 p s.
Proof.
  intros H. induction p as [r|e|a k IH|o k IH]; simpl; intros Hp s Hs; auto.
  - rewrite (IH Hp s Hs). reflexivity.
  - destruct Hp as [Ho Hk]. destruct (H o s Ho Hs) as [E Hi]. rewrite E.
    destruct (h2 o s) as [x s1]. simpl in Hi.
    rewrite (IH x (Hk x) s1 Hi). reflexivity.
Qed.

Lemma filter_filter_weaker {B : Type} (f g : B -> bool) (l : list B) :
  (forall x, f x = true -> g x = true) -> filter f (filter g l) = filter f l.
Proof.
  intros H. induction l as [|x l IH]; simpl; auto.
  destruct (g x) eqn:G; simpl.
  - destruct (f x); rewrite IH; reflexivity.
  - destruct (f x) eqn:F; [rewrite (H x F) in G; discriminate | exact IH].
Qed.

Lemma map_if_none {B : Type} (c : B -> bool) (f : B -> B) (l : list B) :
  (forall x, In x l -> c x = false) ->
  map (fun x => if c x then f x else x) l = l.
Proof.
  induction l as [|x l IH]; simpl; intros H; auto.
  rewrite (H x (or_introl eq_refl)), IH; auto.
Qed.

Lemma mine_of_owner (s : Db.Store) (rid : string) (l : list Room.t) :
  (forall r, In r l -> Room.id r = rid -> Rls.is_uid s (Room.owner_id r) = true) ->
  forall r, In r l -> Rls.mine s rid r = Db.has_id rid r.
Proof.
  intros H r Hr. unfold Rls.mine, Db.has_id.
  destruct (String.eqb_spec (Room.id r) rid) as [E|E]; simpl; auto.
Qed.

Lemma mine_of_other (s : Db.Store) (rid : string) (l : list Room.t) :
  (forall r, In r l -> Room.id r = rid -> Rls.is_uid s (Room.owner_id r) = false) ->
  forall r, In r l -> Rls.mine s rid r = false.
Proof.
  intros H r Hr. unfold Rls.mine, Db.has_id.
  destruct (String.eqb_spec (Room.id r) rid) as [E|E]; simpl; auto.
Qed.

Lemma existsb_ext_in {B : Type} (f g : B -> bool) (l : list B) :
  (forall x, In x l -> f x = g x) -> existsb f l = existsb g l.
Proof.
  induction l as [|x l IH]; simpl; intros H; auto.
  rewrite (H x (or_introl eq_refl)), IH; auto.
Qed.

(** What the components send on behalf of the session passes the
    policies: [createRoom] inserts a room owned by the user that
    [auth.getUser] reports, and [joinRoom] for the session's own user
    inserts that user's own membership.  Both run behind the policies exactly as
    on the unrestricted store, so what is proved of them there holds
    behind the policies too. *)
Theorem session_requests_pass_policies (s : Db.Store) (u : User.t)
  (Hu : Db.auth_user s = Some u) :
  (forall newRoomName newRoomPassword maxUsers,
     run Rls.handle (RoomList.createRoom newRoomName newRoomPassword maxUsers) s =
     run Db.handle (RoomList.createRoom newRoomName newRoomPassword maxUsers) s) /\
  (forall selectedRoom joinPassword,
     run Rls.handle (RoomList.joinRoom (User.id u) selectedRoom joinPassword) s =
     run Db.handle (RoomList.joinRoom (User.id u) selectedRoom joinPassword) s).
Proof.
  split.
  - intros nm pw mx. unfold RoomList.createRoom.
    destruct (negb (Js.truthy (Js.trim pw))); [reflexivity|].
    cbn [try_catch bind run Rls.handle Db.handle]. rewrite Hu.
    cbn [try_catch bind run Rls.handle]. unfold Rls.is_uid. rewrite Hu.
    rewrite String.eqb_refl. cbn [Db.handle].
    destruct (Db.check_max_users mx); [|reflexivity]. cbn [negb].
    destruct (existsb _ (Db.rooms s)); [reflexivity|].
    destruct (Db.name_taken _ _); reflexivity.
  - intros [room|] pw; [|reflexivity].
    apply run_agree with
      (I := fun s => Db.auth_user s = Some u)
      (P := fun o => o = room_users_select_single (Room.id room) (User.id u) \/
                     o = room_users_select_count (Room.id room) \/
                     o = room_users_insert (Room.id room) (User.id u)).
    + intros o s0 Ho Hs.
      destruct Ho as [->|[->| ->]]; cbn [Rls.handle];
        unfold Rls.authenticated, Rls.is_uid; rewrite Hs;
        rewrite ?String.eqb_refl; (split; [reflexivity|]).
      * simpl. destruct (filter _ _) as [|? [|? ?]]; exact Hs.
      * exact Hs.
      * simpl. destruct (existsb _ _); [exact Hs|].
        destruct (negb _); exact Hs.
    + unfold RoomList.joinRoom, RoomList.throw_unless_no_rows.
      repeat all_calls_step; auto.
    + exact Hu.
Qed.

Lemma session_requests_pass_policies_witness :
  Db.auth_user Sample.fresh = Some Sample.bob /\
  run Rls.handle (RoomList.joinRoom "ub" (Some Sample.lobby) "p") Sample.fresh =
  run Db.handle (RoomList.joinRoom "ub" (Some Sample.lobby) "p") Sample.fresh /\
  Db.room_users
    (final (run Rls.handle (RoomList.joinRoom "ub" (Some Sample.lobby) "p")
              Sample.fresh)) = [RoomUser.mk "r1" "ub" 10].
Proof.
  split; [reflexivity|]. split.
  - exact (proj2 (session_requests_pass_policies Sample.fresh Sample.bob eq_refl)
             (Some Sample.lobby) "p").
  - reflexivity.
Defined.

(** The owner's actions in the settings dialog pass the policies.  Of the
    three deletes of [handleDeleteRoom] the first removes nothing, as no
    policy lets anyone delete a message, and the second only the owner's
    own membership; deleting the room then takes the messages and the
    other memberships with it, so the store ends as it does without
    policies.  The update runs as it does without policies. *)
Theorem owner_settings_pass_policies (s : Db.Store) (room : Room.t)
  (Hstored : existsb (Db.has_id (Room.id room)) (Db.rooms s) = true)
  (Howner : forall r, In r (Db.rooms s) -> Room.id r = Room.id room ->
                      Rls.is_uid s (Room.owner_id r) = true) :
  let rid := Room.id room in
  let after_two :=
    snd (Rls.handle (room_users_delete_eq_room_id rid)
           (snd (Rls.handle (messages_delete_eq_room_id rid) s))) in
  Db.messages after_two = Db.messages s /\
  (forall m, In m (Db.room_users s) ->
             Rls.is_uid s (RoomUser.user_id m) = false ->
             In m (Db.room_users after_two)) /\
  run Rls.handle (RoomSettings.handleDeleteRoom room) s =
  run Db.handle (RoomSettings.handleDeleteRoom room) s /\
  forall newPassword maxUsers,
    run Rls.handle (RoomSettings.handleUpdateSettings room newPassword maxUsers) s =
    run Db.handle (RoomSettings.handleUpdateSettings room newPassword maxUsers) s.
Proof.
  cbv zeta. split; [reflexivity|]. split.
  { intros m Hm Hn. simpl. apply filter_In. split; [exact Hm|].
    unfold Rls.my_membership. rewrite Hn, andb_false_r. reflexivity. }
  pose proof (mine_of_owner s (Room.id room) (Db.rooms s) Howner) as Hmine.
  split.
  - rewrite handleDeleteRoom_run.
    unfold RoomSettings.handleDeleteRoom.
    cbn [run finally try_catch bind Rls.handle Db.set_room_users Db.rooms
         Db.room_users Db.messages Db.auth_user Db.clock Db.uuid_seed].
    replace (existsb _ (Db.rooms s)) with true.
    2:{ symmetry. rewrite <- Hstored. apply existsb_ext_in. intros r Hr.
        unfold Rls.mine, Rls.is_uid. cbn [Db.auth_user].
        exact (Hmine r Hr). }
    cbn [run finally try_catch bind].
    f_equal. f_equal. f_equal.
    + apply filter_ext_in. intros r Hr. f_equal.
      unfold Rls.mine, Rls.is_uid. cbn [Db.auth_user]. exact (Hmine r Hr).
    + apply filter_filter_weaker. intros m Hm.
      unfold Rls.my_membership. apply negb_true_iff in Hm. rewrite Hm. reflexivity.
  - intros pw mx. unfold RoomSettings.handleUpdateSettings.
    cbn [run finally try_catch bind Rls.handle Db.handle].
    assert (Ht : filter (Rls.mine s (Room.id room)) (Db.rooms s) =
                 filter (Db.has_id (Room.id room)) (Db.rooms s)).
    { apply filter_ext_in. exact Hmine. }
    rewrite Ht.
    assert (Hc : forallb (fun r => Rls.is_uid s
                   (Room.owner_id (Db.apply_updates (RoomSettings.updates pw mx) r)))
                   (filter (Db.has_id (Room.id room)) (Db.rooms s)) = true).
    { apply forallb_forall. intros r Hr. apply filter_In in Hr as [Hr Hid].
      simpl. apply Howner; [exact Hr|]. apply String.eqb_eq. exact Hid. }
    rewrite Hc. cbn [negb].
    rewrite !update_where_plain by reflexivity. rewrite Ht.
    assert (Hm : map (fun r => if Rls.mine s (Room.id room) r
                               then Db.apply_updates (RoomSettings.updates pw mx) r
                               else r) (Db.rooms s) =
                 Db.update_rooms (RoomSettings.updates pw mx) (Room.id room) (Db.rooms s)).
    { unfold Db.update_rooms. apply map_ext_in. intros r Hr.
      rewrite (Hmine r Hr). reflexivity. }
    rewrite Hm. clear Hc.
    destruct (forallb _ (filter (Db.has_id (Room.id room)) (Db.rooms s)));
      reflexivity.
Qed.

Lemma owner_settings_pass_policies_witness :
  existsb (Db.has_id "r1") (Db.rooms SampleSessions.alice_crowded) = true /\
  Db.messages (final (run Rls.handle (RoomSettings.handleDeleteRoom Sample.lobby)
                        SampleSessions.alice_crowded)) =
    [Message.mk "m3" 22 "psst" "ub" "bob@example.org" None Message.text "r2"] /\
  Db.room_users (final (run Rls.handle (RoomSettings.handleDeleteRoom Sample.lobby)
                          SampleSessions.alice_crowded)) =
    [RoomUser.mk "r2" "ub" 12].
Proof.
  split; [reflexivity|].
  assert (H : forall r, In r (Db.rooms SampleSessions.alice_crowded) ->
                Room.id r = Room.id Sample.lobby ->
                Rls.is_uid SampleSessions.alice_crowded (Room.owner_id r) = true).
  { intros r [<-|[<-|[<-|[<-|[]]]]] E; try reflexivity; discriminate E. }
  rewrite (proj1 (proj2 (proj2
             (owner_settings_pass_policies SampleSessions.alice_crowded
                Sample.lobby eq_refl H)))).
  split; reflexivity.
Defined.

(** Who does not own the room changes no room and no message from the
    settings dialog, and neither does a session that has expired: the
    policies skip the rows without an error.  [handleDeleteRoom] then
    removes at most the session's own membership of the room, and
    [handleUpdateSettings] nothing at all, whatever [maxUsers] is; both
    announce success. *)
Theorem stranger_settings_change_no_room (s : Db.Store) (room : Room.t)
  (Hother : forall r, In r (Db.rooms s) -> Room.id r = Room.id room ->
                      Rls.is_uid s (Room.owner_id r) = false) :
  let d := run Rls.handle (RoomSettings.handleDeleteRoom room) s in
  Db.rooms (final d) = Db.rooms s /\
  Db.messages (final d) = Db.messages s /\
  Db.room_users (final d) =
    filter (fun m => negb (Rls.my_membership s (Room.id room) m)) (Db.room_users s) /\
  In (toast_success "Room deleted successfully") (ui_actions (trace d)) /\
  forall newPassword maxUsers,
    let u := run Rls.handle
               (RoomSettings.handleUpdateSettings room newPassword maxUsers) s in
    final u = s /\
    In (toast_success "Room settings updated successfully") (ui_actions (trace u)).
Proof.
  pose proof (mine_of_other s (Room.id room) (Db.rooms s) Hother) as Hmine.
  cbv zeta.
  assert (Hd : final (run Rls.handle (RoomSettings.handleDeleteRoom room) s) =
               Db.set_room_users s
                 (filter (fun m => negb (Rls.my_membership s (Room.id room) m))
                         (Db.room_users s))).
  { unfold RoomSettings.handleDeleteRoom.
    cbn [run finally try_catch bind Rls.handle Db.set_room_users Db.rooms
         Db.room_users Db.messages Db.auth_user Db.clock Db.uuid_seed].
    replace (existsb _ (Db.rooms s)) with false; [reflexivity|].
    symmetry. apply not_true_is_false. intros H.
    apply existsb_exists in H as [r [Hr Hm]].
    change (Rls.mine s (Room.id room) r = true) in Hm.
    rewrite (Hmine r Hr) in Hm. discriminate. }
  rewrite Hd.
  split; [reflexivity|]. split; [reflexivity|]. split; [reflexivity|].
  split.
  { unfold RoomSettings.handleDeleteRoom.
    cbn [run finally try_catch bind Rls.handle].
    destruct (existsb _ _); simpl; auto. }
  intros pw mx. unfold RoomSettings.handleUpdateSettings.
  cbn [run finally try_catch bind Rls.handle].
  assert (Ht : filter (Rls.mine s (Room.id room)) (Db.rooms s) = []).
  { apply existsb_false_filter. apply not_true_is_false. intros H.
    apply existsb_exists in H as [r [Hr Hm]]. rewrite (Hmine r Hr) in Hm.
    discriminate. }
  rewrite Ht. cbn [forallb negb].
  rewrite update_where_plain by reflexivity. rewrite Ht. cbn [forallb].
  rewrite (map_if_none _ _ _ Hmine).
  destruct s; simpl. split; [reflexivity|]. auto.
Qed.

Lemma stranger_settings_change_no_room_witness :
  Db.rooms (final (run Rls.handle (RoomSettings.handleDeleteRoom Sample.lobby)
                     SampleSessions.expired_crowded)) =
    Db.rooms SampleSessions.expired_crowded /\
  final (run Rls.handle (RoomSettings.handleUpdateSettings Sample.lobby "x" 0)
           Sample.crowded) = Sample.crowded /\
  Db.room_users (final (run Rls.handle (RoomSettings.handleDeleteRoom Sample.lobby)
                          Sample.crowded)) =
    [RoomUser.mk "r1" "uc" 11; RoomUser.mk "r2" "ub" 12].
Proof.
  split; [|split].
  - refine (proj1 (stranger_settings_change_no_room
                     SampleSessions.expired_crowded Sample.lobby _)).
    intros r _ _. reflexivity.
  - refine (proj1 (proj2 (proj2 (proj2 (proj2
             (stranger_settings_change_no_room Sample.crowded Sample.lobby _))))
             "x" 0)).
    intros r [<-|[<-|[<-|[<-|[]]]]] E; try reflexivity; discriminate E.
  - reflexivity.
Defined.

Lemma fetchRooms_on_failure_witness :
  ui_actions (trace (run SampleChat.offline (RoomList.fetchRooms "ub") tt)) =
    [toast_error "Failed to fetch rooms"] /\
  error (fst (SampleChat.offline rooms_select_order_desc tt)) <> None.
Proof.
  assert (H : error (fst (SampleChat.offline rooms_select_order_desc tt)) <> None)
    by discriminate.
  split; [|exact H].
  exact (proj1 (proj2 (fetchRooms_on_failure SampleChat.offline tt "ub")) H).
Defined.

(** ** Memberships stay *)

Lemma run_invariant_calls {S R : Type} (h : Backend S) (Q : Op -> Prop)
  (P : S -> Prop) (HP : forall o s, Q o -> P s -> P (snd (h o s)))
  (p : Prog R) (s : S) :
  all_calls Q p -> P s -> P (final (run h p s)).
Proof.
  revert s. induction p as [r|e|a k IH|o k IH]; intros s Hp Hs; simpl.
  - exact Hs.
  - exact Hs.
  - specialize (IH s Hp Hs). destruct (run h k s) as [[r s'] t]. exact IH.
  - destruct Hp as [Ho Hk]. pose proof (HP o s Ho Hs) as Hs1.
    destruct (h o s) as [x s1]. simpl in Hs1.
    specialize (IH x s1 (Hk x) Hs1).
    destruct (run h (k x) s1) as [[r s'] t]. exact IH.
Qed.

Lemma no_delete_keeps_members {R : Type} (p : Prog R) (s : Db.Store) :
  all_calls (fun o => is_delete o = false) p ->
  exists added,
    Db.room_users (final (run Db.handle p s)) = Db.room_users s ++ added.
Proof.
  intros Hp.
  apply (run_invariant_calls Db.handle (fun o => is_delete o = false)
           (fun s' => exists added, Db.room_users s' = Db.room_users s ++ added));
    [|exact Hp|exists []; rewrite app_nil_r; reflexivity].
  intros o s0 Ho [added Hs].
  destruct o; try discriminate Ho; cbn [Db.handle resp].
  - eauto.
  - eauto.
  - destruct (Db.check_max_users _); cbn [negb]; [|eauto].
    destruct (existsb _ (Db.rooms s0)); [eauto|].
    destruct (Db.name_taken _ _); eauto.
  - destruct (update_where_cases (Db.has_id id) updates s0) as [[-> _]|[-> _]];
      eauto.
  - destruct (filter _ _) as [|? [|? ?]]; simpl; eauto.
  - eauto.
  - destruct (existsb _ _); simpl; eauto.
    destruct (negb _); simpl; eauto.
    exists (added ++ [RoomUser.mk room_id user_id (Db.clock s0)]).
    rewrite Hs, app_assoc. reflexivity.
  - eauto.
Qed.

(** Apart from [handleDeleteRoom], no handler of the room list or of the
    settings dialog sends a delete: on the store the membership rows
    that were there are still there afterwards, in their place, and the
    number of members of no room goes down.  A place that was taken is
    not given back while the room exists. *)
Theorem memberships_are_permanent (uid : string) (selectedRoom : option Room.t)
  (joinPassword newRoomName newRoomPassword : string) (maxUsers : Z)
  (room : Room.t) (newPassword : string) (newMaxUsers : Z) :
  Forall
    (fun p : Prog unit =>
       all_calls (fun o => is_delete o = false) p /\
       forall s : Db.Store,
         (exists added,
            Db.room_users (final (run Db.handle p s)) = Db.room_users s ++ added) /\
         forall rid,
           Db.member_count rid s <= Db.member_count rid (final (run Db.handle p s)))
    [RoomList.fetchRooms uid;
     RoomList.createRoom newRoomName newRoomPassword maxUsers;
     RoomList.joinRoom uid selectedRoom joinPassword;
     RoomSettings.handleUpdateSettings room newPassword newMaxUsers].
Proof.
  assert (H : forall p : Prog unit,
             all_calls (fun o => is_delete o = false) p ->
             all_calls (fun o => is_delete o = false) p /\
             forall s : Db.Store,
               (exists added,
                  Db.room_users (final (run Db.handle p s)) =
                  Db.room_users s ++ added) /\
               forall rid,
                 Db.member_count rid s <=
                 Db.member_count rid (final (run Db.handle p s))).
  { intros p Hp. split; [exact Hp|]. intros s.
    destruct (no_delete_keeps_members p s Hp) as [added E].
    split; [exists added; exact E|].
    intros rid. unfold Db.member_count. rewrite E, filter_app, length_app. lia. }
  repeat (apply Forall_cons; [apply H|]); [| | | |apply Forall_nil].
  - unfold RoomList.fetchRooms. repeat all_calls_step; reflexivity.
  - unfold RoomList.createRoom. repeat all_calls_step; reflexivity.
  - destruct selectedRoom as [r|]; [|exact I].
    unfold RoomList.joinRoom, RoomList.throw_unless_no_rows.
    repeat all_calls_step; reflexivity.
  - unfold RoomSettings.handleUpdateSettings. repeat all_calls_step; reflexivity.
Qed.
